(** * FSCommander: a shallow embedding of the size filter, the directory
      operations and the text search, with the properties of the
      specification checked against them.

    Conventions of the embedding.
    - A Python [str] is a [string]; the embedding covers ASCII text (code
      points below 128), on which [str.upper], [str.strip], [float] and [int]
      are modelled after CPython 3.11.
    - A Python [int] is a [Z].
    - A Python [float] is a [spec_float] of the Standard Library at binary64
      ([prec = 53], [emax = 1024]), rounded to nearest even.
    - An exception is a value of [exn]; code that may raise returns a
      [result] or runs in the state-and-exception monad [M]. *)

From Stdlib Require Import ZArith List Bool Ascii String Lia.
From Stdlib Require Import Floats.SpecFloat.
From Stdlib Require Import Sorting.Sorted Sorting.Permutation.
Import ListNotations.

Local Open Scope string_scope.
Local Open Scope list_scope.
Local Open Scope Z_scope.

(** ** Exceptions and results *)

Inductive exn : Type :=
| NameError (name : string)
| ValueError
| OverflowError
| FileExistsError
| NotADirectoryError
| FileNotFoundError
| PermissionError
| OSError
| ReError.

Inductive result (A : Type) : Type :=
| Ok (a : A)
| Raise (e : exn).
Arguments Ok {A} a.
Arguments Raise {A} e.

(** ** Python strings (ASCII) *)

Module PyStr.

(** [str.isspace] on ASCII: the characters removed by [str.strip()]. *)
Definition isspace (c : ascii) : bool :=
  let n := N_of_ascii c in
  ((9 <=? n) && (n <=? 13) || (28 <=? n) && (n <=? 32))%N.

(** [Py_ISSPACE]: the characters skipped by [float] and [int] around a
    numeral held in an ASCII string. *)
Definition c_isspace (c : ascii) : bool :=
  let n := N_of_ascii c in
  ((9 <=? n) && (n <=? 13) || (n =? 32))%N.

Definition isdigit (c : ascii) : bool :=
  let n := N_of_ascii c in ((48 <=? n) && (n <=? 57))%N.

Definition digit_val (c : ascii) : Z := Z.of_N (N_of_ascii c) - 48.

Definition upper_char (c : ascii) : ascii :=
  let n := N_of_ascii c in
  if ((97 <=? n) && (n <=? 122))%N then ascii_of_N (n - 32) else c.

Definition lower_char (c : ascii) : ascii :=
  let n := N_of_ascii c in
  if ((65 <=? n) && (n <=? 90))%N then ascii_of_N (n + 32) else c.

Fixpoint map (f : ascii -> ascii) (s : string) : string :=
  match s with
  | EmptyString => EmptyString
  | String c s' => String (f c) (map f s')
  end.

(** [s.upper()] and [s.lower()]. *)
Definition upper (s : string) : string := map upper_char s.
Definition lower (s : string) : string := map lower_char s.

Fixpoint lstrip_by (sp : ascii -> bool) (s : string) : string :=
  match s with
  | EmptyString => EmptyString
  | String c s' => if sp c then lstrip_by sp s' else s
  end.

Fixpoint rstrip_by (sp : ascii -> bool) (s : string) : string :=
  match s with
  | EmptyString => EmptyString
  | String c s' =>
      match rstrip_by sp s' with
      | EmptyString => if sp c then EmptyString else String c EmptyString
      | r => String c r
      end
  end.

Definition strip_by (sp : ascii -> bool) (s : string) : string :=
  rstrip_by sp (lstrip_by sp s).

(** [s.strip()]. *)
Definition strip (s : string) : string := strip_by isspace s.

(** [s.startswith(p)]. *)
Definition startswith (s p : string) : bool := String.prefix p s.

(** [s.endswith(p)]: [p] is [s] or ends the tail of [s]. *)
Fixpoint endswith (s p : string) : bool :=
  match s with
  | EmptyString => String.eqb p EmptyString
  | String _ s' => String.eqb s p || endswith s' p
  end.

(** [s[n:]] for [n >= 0]. *)
Fixpoint drop (n : nat) (s : string) : string :=
  match n, s with
  | O, _ => s
  | S n', String _ s' => drop n' s'
  | S _, EmptyString => EmptyString
  end.

(** [s[:-n]] for [n > 0]: the first [len(s) - n] characters. *)
Definition drop_end (n : nat) (s : string) : string :=
  String.substring 0 (String.length s - n) s.

(** The longest run of leading characters satisfying [p], and the rest. *)
Fixpoint span (p : ascii -> bool) (s : string) : string * string :=
  match s with
  | EmptyString => (EmptyString, EmptyString)
  | String c s' =>
      if p c then let '(a, b) := span p s' in (String c a, b)
      else (EmptyString, s)
  end.

(** Value of a string of decimal digits, most significant first. *)
Fixpoint digits_val_acc (acc : Z) (s : string) : Z :=
  match s with
  | EmptyString => acc
  | String c s' => digits_val_acc (10 * acc + digit_val c) s'
  end.
Definition digits_val (s : string) : Z := digits_val_acc 0 s.

(** Lexicographic order of strings by code point: [a < b] on [str]. *)
Fixpoint ltb (a b : string) : bool :=
  match a, b with
  | _, EmptyString => false
  | EmptyString, String _ _ => true
  | String x a', String y b' =>
      if (N_of_ascii x <? N_of_ascii y)%N then true
      else if (N_of_ascii y <? N_of_ascii x)%N then false
      else ltb a' b'
  end.

(** Every character of the string satisfies [p]. *)
Fixpoint all_chars (p : ascii -> bool) (s : string) : bool :=
  match s with
  | EmptyString => true
  | String c s' => p c && all_chars p s'
  end.

(** No character of the string is a minus sign. *)
Definition no_minus (s : string) : bool :=
  all_chars (fun c => negb (Ascii.eqb c "-")) s.

(** [s.isascii()]: a [str] of characters below 128.  These are the strings
    for which the functions of this module, and [float] and [int] below, are
    those of Python; beyond them [str.strip], [str.upper], [str.lower],
    [float] and [int] follow the Unicode character database. *)
Definition is_ascii (s : string) : bool :=
  all_chars (fun c => (N_of_ascii c <? 128)%N) s.

End PyStr.

(** ** Python numbers: [float(str)], [float * int], [int(float)], [int(str)] *)

Module PyNum.

Definition prec : Z := 53.
Definition emax : Z := 1024.

(** The numeric tower check of [_Py_string_to_number_with_underscores]: an
    underscore needs a digit before it and a digit after it; the underscores
    are then dropped.  [prev] is the previous character ([None] at the
    start). *)
Fixpoint strip_underscores (prev : option ascii) (s : string) : option string :=
  match s with
  | EmptyString =>
      match prev with
      | Some "_"%char => None
      | _ => Some EmptyString
      end
  | String c s' =>
      if Ascii.eqb c "_" then
        match prev with
        | Some p => if PyStr.isdigit p then strip_underscores (Some c) s' else None
        | None => None
        end
      else
        let bad :=
          match prev with
          | Some "_"%char => negb (PyStr.isdigit c)
          | _ => false
          end in
        if bad then None
        else option_map (String c) (strip_underscores (Some c) s')
  end.

(** An optional sign; [true] is minus. *)
Definition take_sign (s : string) : bool * string :=
  match s with
  | String "+"%char s' => (false, s')
  | String "-"%char s' => (true, s')
  | _ => (false, s)
  end.

(** The optional exponent part [(e|E) [sign] digits+] up to the end of the
    numeral; [None] when what follows the mantissa is not such a part. *)
Definition parse_exponent (s : string) : option Z :=
  match s with
  | EmptyString => Some 0
  | String c s' =>
      if Ascii.eqb c "e" || Ascii.eqb c "E" then
        let '(neg, s1) := take_sign s' in
        let '(ds, rest) := PyStr.span PyStr.isdigit s1 in
        match ds, rest with
        | String _ _, EmptyString =>
            Some (if neg then - PyStr.digits_val ds else PyStr.digits_val ds)
        | _, _ => None
        end
      else None
  end.

(** The double nearest to [(-1)^neg * m * 10^e] for an integer [m >= 0]
    (correctly rounded, as CPython's [strtod] is). *)
Definition decimal_to_float (neg : bool) (m e : Z) : spec_float :=
  match m with
  | Zpos p =>
      if 0 <=? e then
        binary_normalize prec emax (if neg then - (m * 10 ^ e) else m * 10 ^ e) 0 neg
      else
        SFdiv prec emax (S754_finite neg p 0)
              (S754_finite false (Z.to_pos (10 ^ (- e))) 0)
  | _ => S754_zero neg
  end.

(** The numeral grammar of [float] once blanks and underscores are gone:
    [[sign] (inf | infinity | nan)] in any case, or
    [[sign] digits* [. digits*] [exponent]] with at least one digit. *)
Definition parse_float_body (s : string) : option spec_float :=
  let '(neg, s1) := take_sign s in
  let u := PyStr.upper s1 in
  if String.eqb u "INF" || String.eqb u "INFINITY" then Some (S754_infinity neg)
  else if String.eqb u "NAN" then Some S754_nan
  else
    let '(ip, r1) := PyStr.span PyStr.isdigit s1 in
    let '(fp, r2) :=
      match r1 with
      | String "."%char r => PyStr.span PyStr.isdigit r
      | _ => (EmptyString, r1)
      end in
    match (ip ++ fp)%string with
    | EmptyString => None
    | String _ _ =>
        match parse_exponent r2 with
        | Some ex =>
            Some (decimal_to_float neg (PyStr.digits_val (ip ++ fp))
                                   (ex - Z.of_nat (String.length fp)))
        | None => None
        end
    end.

(** [float(s)] on a string; [None] stands for [ValueError]. *)
Definition float_of_str (s : string) : option spec_float :=
  match strip_underscores None (PyStr.strip_by PyStr.c_isspace s) with
  | Some body => parse_float_body body
  | None => None
  end.

(** [float(n)] for an integer (exact for the multipliers of this program). *)
Definition float_of_int (n : Z) : spec_float := binary_normalize prec emax n 0 false.

(** [x * n] with [x] a float and [n] an int: [n] is converted, then the
    product is rounded. *)
Definition float_mul_int (x : spec_float) (n : Z) : spec_float :=
  SFmul prec emax x (float_of_int n).

(** [int(x)] on a float: truncation toward zero; infinities raise
    [OverflowError] and NaN raises [ValueError]. *)
Definition int_of_float (x : spec_float) : result Z :=
  match x with
  | S754_zero _ => Ok 0
  | S754_infinity _ => Raise OverflowError
  | S754_nan => Raise ValueError
  | S754_finite s m e =>
      let mag := if 0 <=? e then Zpos m * 2 ^ e else Zpos m / 2 ^ (- e) in
      Ok (if s then - mag else mag)
  end.

(** [sys.get_int_max_str_digits()], at its default. *)
Definition int_max_str_digits : nat := 4300.

(** Digits of an [int] literal: [digit (["_"] digit)*] up to the end;
    returns the digits without the underscores. *)
Fixpoint int_digits (s : string) : option string :=
  match s with
  | EmptyString => None
  | String c s' =>
      if PyStr.isdigit c then
        match s' with
        | EmptyString => Some (String c EmptyString)
        | String "_"%char s'' => option_map (String c) (int_digits s'')
        | _ => option_map (String c) (int_digits s')
        end
      else None
  end.

(** [int(s)] on a string, base 10; [None] stands for [ValueError]. *)
Definition int_of_str (s : string) : option Z :=
  let '(neg, s1) := take_sign (PyStr.strip_by PyStr.c_isspace s) in
  match int_digits s1 with
  | Some ds =>
      if (int_max_str_digits <? String.length ds)%nat then None
      else Some (if neg then - PyStr.digits_val ds else PyStr.digits_val ds)
  | None => None
  end.

(** The sign of a float is [s], where it has one that counts. *)
Definition has_sign (s : bool) (v : spec_float) : Prop :=
  match v with
  | S754_finite s' _ _ | S754_infinity s' => s' = s
  | _ => True
  end.

(** The characters that an [int] literal may hold. *)
Definition int_char (c : ascii) : bool :=
  PyStr.isdigit c || PyStr.c_isspace c ||
  existsb (Ascii.eqb c) ["_"; "+"; "-"]%char.

End PyNum.

(** ** [sorted(xs, key=...)]: the stable sort by a key *)

Section Sorted.
Context {A K : Type}.
Variable key : A -> K.
Variable key_ltb : K -> K -> bool.

(** [x] goes before the first element whose key is not below the key of
    [x], so that equal keys keep their order. *)
Fixpoint insert_by (x : A) (l : list A) : list A :=
  match l with
  | [] => [x]
  | y :: l' => if key_ltb (key y) (key x) then y :: insert_by x l' else x :: l
  end.

Fixpoint sorted_by (l : list A) : list A :=
  match l with
  | [] => []
  | x :: l' => insert_by x (sorted_by l')
  end.

(** [x] may stand before [y]: the key of [y] is not below that of [x]. *)
Definition not_after (x y : A) : Prop := key_ltb (key y) (key x) = false.
End Sorted.

(** ** search.py: the size filter *)

Module Search.

(** A size filter is the tuple [(op, threshold)]. *)
Definition SizeFilter : Type := string * Z.

(** The dictionary [units], in insertion order. *)
Definition units : list (string * Z) :=
  [("B", 1); ("KB", 1024); ("MB", 1024 ^ 2); ("GB", 1024 ^ 3); ("TB", 1024 ^ 4)].

(** [sorted(units.items(), key=lambda x: -len(x[0]))]. *)
Definition units_by_length : list (string * Z) :=
  sorted_by (fun x : string * Z => - Z.of_nat (String.length (fst x))) Z.ltb units.

(** How the [for] loop over the units ends. *)
Inductive loop_exit : Type :=
| Returned (f : SizeFilter)
| Fell_through
| Raised (e : exn).

(** The loop "Extract number and unit": the first unit ending [val_str]
    decides; a [ValueError] of [float] or [int] breaks out of the loop, any
    other exception propagates. *)
Fixpoint unit_loop (us : list (string * Z)) (op val_str : string) : loop_exit :=
  match us with
  | [] => Fell_through
  | (unit, multiplier) :: us' =>
      if PyStr.endswith val_str unit then
        match PyNum.float_of_str (PyStr.drop_end (String.length unit) val_str) with
        | Some value =>
            match PyNum.int_of_float (PyNum.float_mul_int value multiplier) with
            | Ok n => Returned (op, n)
            | Raise ValueError => Fell_through
            | Raise e => Raised e
            end
        | None => Fell_through
        end
      else unit_loop us' op val_str
  end.

(** The operator and the rest of the (stripped, upper-cased) string. *)
Definition split_operator (size_str : string) : string * string :=
  if PyStr.startswith size_str ">=" then (">=", PyStr.drop 2 size_str)
  else if PyStr.startswith size_str "<=" then ("<=", PyStr.drop 2 size_str)
  else if PyStr.startswith size_str ">" then (">", PyStr.drop 1 size_str)
  else if PyStr.startswith size_str "<" then ("<", PyStr.drop 1 size_str)
  else (">", size_str).

Definition _parse_size_filter (size_str : string) : result SizeFilter :=
  let size_str := PyStr.upper (PyStr.strip size_str) in
  let '(op, val_str) := split_operator size_str in
  match unit_loop units_by_length op val_str with
  | Returned f => Ok f
  | Raised e => Raise e
  | Fell_through =>
      match PyNum.int_of_str val_str with
      | Some n => Ok (op, n)
      | None => Ok (">", 0)
      end
  end.

Definition _matches_size (file_size : Z) (filter_tuple : SizeFilter) : bool :=
  let '(op, threshold) := filter_tuple in
  if String.eqb op ">" then threshold <? file_size
  else if String.eqb op ">=" then threshold <=? file_size
  else if String.eqb op "<" then file_size <? threshold
  else if String.eqb op "<=" then file_size <=? threshold
  else false.

(** The unit that decides for [val_str]: the first of the sorted units that
    ends it. *)
Definition decisive_unit (val_str : string) : option (string * Z) :=
  List.find (fun um => PyStr.endswith val_str (fst um)) units_by_length.

(** The number of a size string cannot be read: [float] raises [ValueError]
    on what precedes the unit, or, without a unit, [int] raises it. *)
Definition number_unparsable (size_str : string) : Prop :=
  let '(_, val_str) := split_operator (PyStr.upper (PyStr.strip size_str)) in
  match decisive_unit val_str with
  | Some (unit, _) =>
      PyNum.float_of_str (PyStr.drop_end (String.length unit) val_str) = None
  | None => PyNum.int_of_str val_str = None
  end.

(** The characters of a decimal numeral. *)
Definition numeral_char (c : ascii) : bool :=
  PyStr.isdigit c ||
  existsb (Ascii.eqb c) ["."; "+"; "-"; "e"; "E"; "_"]%char.

(** The operator written by the prefix [op], which may be empty. *)
Definition operator_of (op : string) : string :=
  if String.eqb op "" then ">" else op.

(** The operator prefixes that a size string may carry. *)
Definition written_operator (op : string) : Prop :=
  In op [""; ">"; ">="; "<"; "<="]%string.

(** What a character of the numeral is after [upper]: not a blank, not an
    operator character, and none of the letters before the [B] of a unit. *)
Definition plain_char (c : ascii) : bool :=
  negb (PyStr.isspace c) &&
  negb (existsb (Ascii.eqb c) [">"; "<"; "="; "K"; "M"; "G"; "T"]%char).

End Search.

(** ** The file system

    A path is the list of its components from the root (the result of
    [Path.resolve()]); the file system holds regular files and directories.
    The state is an association list from paths to nodes: its order is the
    order in which a directory walk meets the entries, so that every traversal
    order of the operating system is the order of some state.  The root
    directory always exists.  There are no symbolic links, and the operating
    system fails only for the shape of the tree (a regular file in the way,
    a missing entry, a directory that is not empty); the right to list a
    directory is part of the platform of the listing. *)

Module FS.

Definition path : Type := list string.

Inductive node : Type :=
| File (content : string)
| Dir.

Definition fs : Type := list (path * node).

Fixpoint path_eqb (p q : path) : bool :=
  match p, q with
  | [], [] => true
  | a :: p', b :: q' => String.eqb a b && path_eqb p' q'
  | _, _ => false
  end.

Fixpoint assoc (p : path) (s : fs) : option node :=
  match s with
  | [] => None
  | (q, n) :: s' => if path_eqb p q then Some n else assoc p s'
  end.

Definition lookup (s : fs) (p : path) : option node :=
  match p with
  | [] => Some Dir
  | _ => assoc p s
  end.

(** [p.exists()], [p.is_file()], [p.is_dir()]. *)
Definition exists_ (s : fs) (p : path) : bool :=
  match lookup s p with Some _ => true | None => false end.
Definition is_file (s : fs) (p : path) : bool :=
  match lookup s p with Some (File _) => true | _ => false end.
Definition is_dir (s : fs) (p : path) : bool :=
  match lookup s p with Some Dir => true | _ => false end.

(** The content of the regular file at [p], if there is one. *)
Definition file_at (s : fs) (p : path) : option string :=
  match lookup s p with Some (File c) => Some c | _ => None end.

(** [p] is a prefix of [q], resp. a prefix other than [q] itself. *)
Fixpoint is_prefix (p q : path) : bool :=
  match p, q with
  | [], _ => true
  | a :: p', b :: q' => String.eqb a b && is_prefix p' q'
  | _ :: _, [] => false
  end.
Definition strictly_under (root q : path) : bool :=
  is_prefix root q && (List.length root <? List.length q)%nat.

(** [p.parent] and [p.name]. *)
Definition parent (p : path) : path := removelast p.
Definition name (p : path) : string := last p EmptyString.

(** [p.relative_to(root)] for [p] under [root]. *)
Definition relative_to (p root : path) : path := skipn (List.length root) p.

(** [root.rglob("*")]: every entry below [root], in walk order. *)
Definition rglob_all (s : fs) (root : path) : list path :=
  List.map fst (List.filter (fun e => strictly_under root (fst e)) s).

(** [p.iterdir()]: the entries whose parent is [p], in walk order. *)
Definition is_child (p q : path) : bool :=
  match q with
  | [] => false
  | _ => path_eqb (parent q) p
  end.
Definition iterdir (s : fs) (p : path) : list path :=
  List.map fst (List.filter (fun e => is_child p (fst e)) s).

(** Removal of the entry at [p], resp. of [p] and all below it. *)
Definition remove_entry (p : path) (s : fs) : fs :=
  List.filter (fun e => negb (path_eqb p (fst e))) s.
Definition remove_tree (p : path) (s : fs) : fs :=
  List.filter (fun e => negb (is_prefix p (fst e))) s.

(** The nonempty proper prefixes of a path. *)
Fixpoint ancestors_from (pre : path) (rest : list string) : list path :=
  match rest with
  | [] => []
  | c :: rest' =>
      match rest' with
      | [] => []
      | _ => (pre ++ [c]) :: ancestors_from (pre ++ [c]) rest'
      end
  end.
Definition ancestors (p : path) : list path := ancestors_from [] p.

(** A state is a tree: every entry lies in directories. *)
Definition wfb (s : fs) : bool :=
  forallb (fun e => forallb (is_dir s) (ancestors (fst e))) s.
Definition wf (s : fs) : Prop := wfb s = true.

End FS.

(** ** The state-and-exception monad

    A computation takes the file system and gives a result or an exception,
    together with the file system at that point: what was changed before an
    exception stays changed. *)

Definition M (A : Type) : Type := FS.fs -> result A * FS.fs.

Definition ret {A} (a : A) : M A := fun s => (Ok a, s).
Definition raise {A} (e : exn) : M A := fun s => (Raise e, s).
Definition bind {A B} (m : M A) (k : A -> M B) : M B :=
  fun s =>
    match m s with
    | (Ok a, s') => k a s'
    | (Raise e, s') => (Raise e, s')
    end.
Definition get_fs {A} (f : FS.fs -> A) : M A := fun s => (Ok (f s), s).
Definition modify_fs (f : FS.fs -> FS.fs) : M unit := fun s => (Ok tt, f s).

Declare Scope m_scope.
Delimit Scope m_scope with m.
Notation "x <- m ;; k" := (bind m (fun x => k))
  (at level 100, m at next level, right associativity) : m_scope.
Notation "m ;; k" := (bind m (fun _ => k))
  (at level 100, right associativity) : m_scope.

(** The exceptions caught by [except (OSError, IOError)]. *)
Definition is_OSError (e : exn) : bool :=
  match e with
  | FileExistsError | NotADirectoryError | FileNotFoundError
  | PermissionError | OSError => true
  | _ => false
  end.

(** [try: m  except (OSError, IOError): h]. *)
Definition try_except_OSError {A} (m h : M A) : M A :=
  fun s =>
    match m s with
    | (Raise e, s') => if is_OSError e then h s' else (Raise e, s')
    | r => r
    end.

(** ** What the operating system answers

    [Path.exists()], [Path.is_dir()] and [Path.is_file()] ask the operating
    system, and re-raise what it answers other than "not there": a path in
    a directory that the process may not search raises [PermissionError].
    A function that asks outside its [try] blocks raises with them. *)

Module Os.
Import FS.

Record Calls : Type := mkCalls
  { path_exists : fs -> path -> result bool;
    path_is_dir : fs -> path -> result bool;
    path_is_file : fs -> path -> result bool }.

(** A call that asks and changes nothing. *)
Definition ask {A} (f : fs -> result A) : M A := fun s => (f s, s).

(** The calls where every path may be examined: they answer what the tree
    holds. *)
Definition open_calls : Calls :=
  mkCalls (fun s p => Ok (exists_ s p))
          (fun s p => Ok (is_dir s p))
          (fun s p => Ok (is_file s p)).

(** The calls where only the paths of [may_examine] may be examined. *)
Definition guarded_calls (may_examine : path -> bool) : Calls :=
  mkCalls
    (fun s p => if may_examine p then Ok (exists_ s p) else Raise PermissionError)
    (fun s p => if may_examine p then Ok (is_dir s p) else Raise PermissionError)
    (fun s p => if may_examine p then Ok (is_file s p) else Raise PermissionError).

(** The process can examine [p]: the calls answer what the tree holds. *)
Definition sees (C : Calls) (s : fs) (p : path) : Prop :=
  path_exists C s p = Ok (exists_ s p) /\
  path_is_dir C s p = Ok (is_dir s p) /\
  path_is_file C s p = Ok (is_file s p).

End Os.

(** ** Library calls on paths *)

Module PathLib.
Import FS.
Local Open Scope m_scope.

(** [Path.mkdir(parents=True, exist_ok=True)], component by component:
    a directory on the way is kept, a missing one is created, a regular file
    in the way raises ([FileExistsError] at the path itself,
    [NotADirectoryError] above it). *)
Fixpoint mkdirs (pre : path) (rest : list string) : M unit :=
  match rest with
  | [] => ret tt
  | c :: rest' =>
      let q := pre ++ [c] in
      n <- get_fs (fun s => lookup s q) ;;
      match n with
      | Some Dir => mkdirs q rest'
      | Some (File _) =>
          raise (match rest' with [] => FileExistsError | _ => NotADirectoryError end)
      | None => modify_fs (fun s => s ++ [(q, Dir)]) ;; mkdirs q rest'
      end
  end.
Definition mkdir_parents_exist_ok (p : path) : M unit := mkdirs [] p.

(** [shutil.copy2(src, dst)]: the content of the regular file [src] becomes
    the content of [dst] (of [dst / src.name] when [dst] is a directory). *)
Definition copy2 (src dst : path) : M unit :=
  fun s =>
    match lookup s src with
    | Some (File c) =>
        let target := if is_dir s dst then dst ++ [name src] else dst in
        if is_dir s (parent target)
        then (Ok tt, remove_entry target s ++ [(target, File c)])
        else (Raise FileNotFoundError, s)
    | Some Dir => (Raise OSError, s)
    | None => (Raise FileNotFoundError, s)
    end.

(** [p.iterdir()] as a call: it needs a directory. *)
Definition iterdir (s : fs) (p : path) : result (list path) :=
  match lookup s p with
  | Some Dir => Ok (FS.iterdir s p)
  | Some (File _) => Raise NotADirectoryError
  | None => Raise FileNotFoundError
  end.

(** [p.unlink()]. *)
Definition unlink (p : path) : M unit :=
  fun s =>
    match lookup s p with
    | Some (File _) => (Ok tt, remove_entry p s)
    | Some Dir => (Raise OSError, s)
    | None => (Raise FileNotFoundError, s)
    end.

(** [p.rmdir()]: only an empty directory goes. *)
Definition rmdir (p : path) : M unit :=
  fun s =>
    match p, lookup s p with
    | _ :: _, Some Dir =>
        match rglob_all s p with
        | [] => (Ok tt, remove_entry p s)
        | _ => (Raise OSError, s)
        end
    | [], _ => (Raise OSError, s)
    | _, Some (File _) => (Raise NotADirectoryError, s)
    | _, None => (Raise FileNotFoundError, s)
    end.

(** [shutil.rmtree(p)] on a directory. *)
Definition rmtree (p : path) : M unit :=
  fun s =>
    match p with
    | [] => (Raise OSError, s)
    | _ => (Ok tt, remove_tree p s)
    end.

End PathLib.

(** ** file_ops.py *)

Module FileOps.
Import FS PathLib.
Local Open Scope m_scope.

Definition remove (p : path) (recursive force : bool) : M bool :=
  e <- get_fs (fun s => exists_ s p) ;;
  if negb e then ret force
  else
    try_except_OSError
      (d <- get_fs (fun s => is_dir s p) ;;
       (if d then
          if recursive then rmtree p else rmdir p
        else unlink p) ;;
       ret true)
      (ret false).

(** [remove] over the answers of the operating system: [p.exists()] is
    asked before the [try], [p.is_dir()] and the removal inside it.
    [remove] above is [remove_on] where every path may be examined and the
    removal is that of [PathLib]. *)
Section RemoveOn.
Variable C : Os.Calls.
Variables run_rmtree run_rmdir run_unlink : path -> M unit.

Definition remove_on (p : path) (recursive force : bool) : M bool :=
  e <- Os.ask (fun s => Os.path_exists C s p) ;;
  if negb e then ret force
  else
    try_except_OSError
      (d <- Os.ask (fun s => Os.path_is_dir C s p) ;;
       (if d then
          if recursive then run_rmtree p else run_rmdir p
        else run_unlink p) ;;
       ret true)
      (ret false).
End RemoveOn.

End FileOps.

(** ** dir_ops.py *)

Module DirOps.
Import FS PathLib.
Local Open Scope m_scope.

(** The names bound at the top level of the module: its imports ([os],
    [Path], [datetime], [List], [Dict], [Any], [Tree]) and its functions. *)
Definition module_globals : list string :=
  ["os"; "Path"; "datetime"; "List"; "Dict"; "Any"; "Tree";
   "create_directory"; "tree"; "list_directory"; "sync"; "_format_size"]%string.

(** Evaluation of a global name inside a function of the module (none of
    the names at stake is a builtin). *)
Definition load_global (name : string) : M unit :=
  if existsb (String.eqb name) module_globals then ret tt
  else raise (NameError name).

(** The dictionary [{"copied": _, "skipped": _, "deleted": _}]. *)
Record SyncResult : Type := mkSyncResult
  { copied : Z; skipped : Z; deleted : Z }.

Definition incr_copied (r : SyncResult) : SyncResult :=
  mkSyncResult (copied r + 1) (skipped r) (deleted r).
Definition incr_skipped (r : SyncResult) : SyncResult :=
  mkSyncResult (copied r) (skipped r + 1) (deleted r).
Definition incr_deleted (r : SyncResult) : SyncResult :=
  mkSyncResult (copied r) (skipped r) (deleted r + 1).

(** The loop "Copy files from source to dest" over the entries that
    [src.rglob] gave.  The entries are those met when the loop starts: what
    the loop adds while the walk goes on are directories, which the test
    [is_file] passes over. *)
Fixpoint copy_loop (src dst : path) (dry_run : bool)
         (entries : list path) (result : SyncResult) : M SyncResult :=
  match entries with
  | [] => ret result
  | src_file :: entries' =>
      f <- get_fs (fun s => is_file s src_file) ;;
      if f then
        let rel_path := relative_to src_file src in
        let dst_file := dst ++ rel_path in
        mkdir_parents_exist_ok (parent dst_file) ;;
        e <- get_fs (fun s => exists_ s dst_file) ;;
        if e then copy_loop src dst dry_run entries' (incr_skipped result)
        else
          (if negb dry_run
           then (load_global "shutil" ;; copy2 src_file dst_file)
           else ret tt) ;;
          copy_loop src dst dry_run entries' (incr_copied result)
      else copy_loop src dst dry_run entries' result
  end.

(** The loop "Delete extra files in dest". *)
Fixpoint delete_loop (src dst : path) (dry_run : bool)
         (entries : list path) (result : SyncResult) : M SyncResult :=
  match entries with
  | [] => ret result
  | dst_file :: entries' =>
      f <- get_fs (fun s => is_file s dst_file) ;;
      if f then
        let rel_path := relative_to dst_file dst in
        let src_file := src ++ rel_path in
        e <- get_fs (fun s => exists_ s src_file) ;;
        if negb e then
          (if negb dry_run then unlink dst_file else ret tt) ;;
          delete_loop src dst dry_run entries' (incr_deleted result)
        else delete_loop src dst dry_run entries' result
      else delete_loop src dst dry_run entries' result
  end.

Definition sync (source dest : path) (delete dry_run : bool) : M SyncResult :=
  let src := source in
  let dst := dest in
  let result := mkSyncResult 0 0 0 in
  stop <- get_fs (fun s => negb (exists_ s src) || negb (is_dir s src)) ;;
  if stop then ret result
  else
    mkdir_parents_exist_ok dst ;;
    entries <- get_fs (fun s => rglob_all s src) ;;
    result <- copy_loop src dst dry_run entries result ;;
    if delete then
      entries <- get_fs (fun s => rglob_all s dst) ;;
      delete_loop src dst dry_run entries result
    else ret result.

(** *** What a run of [sync] is expected to find *)

(** The regular files below [root], in walk order. *)
Definition files_under (s : fs) (root : path) : list path :=
  List.filter (is_file s) (rglob_all s root).

(** The path under [to] that corresponds to [f] under [from]. *)
Definition counterpart (from to f : path) : path := to ++ relative_to f from.

(** The files of the source without, resp. with, a counterpart in the
    destination. *)
Definition to_copy (s : fs) (src dst : path) : list path :=
  List.filter (fun f => negb (exists_ s (counterpart src dst f)))
              (files_under s src).
Definition already_there (s : fs) (src dst : path) : list path :=
  List.filter (fun f => exists_ s (counterpart src dst f)) (files_under s src).

(** The files of the destination in [s] whose counterpart in the source is
    missing in [s']. *)
Definition to_delete (s s' : fs) (src dst : path) : list path :=
  List.filter (fun g => negb (exists_ s' (counterpart dst src g)))
              (files_under s dst).

(** Entries that are all directories. *)
Definition dirs_only (ds : fs) : Prop := Forall (fun e => snd e = Dir) ds.

(** The directories that a run may have to create: the destination and what
    is above it, and, for each file of the source, the directory of its
    counterpart and what is above it. *)
Definition created (s : fs) (src dst q : path) : Prop :=
  q <> [] /\
  (is_prefix q dst = true \/
   exists f, is_file s f = true /\ strictly_under src f = true /\
             is_prefix q (parent (counterpart src dst f)) = true).

(** *** The states of a run of [sync] *)

(** [s] is [s0] with some of the directories that the run creates, none of
    which was there in [s0]. *)
Definition reached (s0 : fs) (src dst : path) (s : fs) : Prop :=
  exists D, s = s0 ++ D /\ dirs_only D /\
            forall q, In q (List.map fst D) ->
                      lookup s0 q = None /\ created s0 src dst q.

(** The entries all lie below the source. *)
Definition under_src (src : path) (entries : list path) : Prop :=
  Forall (fun f => strictly_under src f = true) entries.

(** The directory of the counterpart of each regular file of [entries] is
    there with all above it, and so is the counterpart. *)
Definition settled (src dst : path) (s : fs) (entries : list path) : Prop :=
  Forall (fun f =>
            is_file s f = true ->
            (forall a b, parent (counterpart src dst f) = a ++ b -> a <> [] ->
                         is_dir s a = true) /\
            exists_ s (counterpart src dst f) = true) entries.

(** How many of the entries satisfy [p]. *)
Definition count (p : path -> bool) (l : list path) : Z :=
  Z.of_nat (List.length (List.filter p l)).

(** *** Directory listing *)

(** [f"{x:.1f}"], the rendering of a float with one decimal, the result of
    [entry.stat()] ([None] for an [OSError]),
    [datetime.fromtimestamp(t).strftime("%Y-%m-%d %H:%M")] and the
    directories that the process is allowed to list are taken from the
    platform.  [datetime.fromtimestamp] raises for a time that it cannot
    render: [ValueError] or [OverflowError] for one out of the range of
    years, [OSError] where the conversion of the platform fails. *)
Record Platform : Type := mkPlatform
  { format_1f : spec_float -> string;
    stat : fs -> path -> option (Z * Z);
    format_mtime : Z -> result string;
    may_list : path -> bool }.

Section Listing.
Variable P : Platform.
Variable C : Os.Calls.

(** The loop of [_format_size] from the second unit on, where
    [size_bytes] is a float. *)
Fixpoint format_size_loop (us : list string) (size_bytes : spec_float) : string :=
  match us with
  | [] => (format_1f P size_bytes ++ "PB")%string
  | unit :: us' =>
      if SFltb size_bytes (PyNum.float_of_int 1024)
      then (format_1f P size_bytes ++ unit)%string
      else format_size_loop us'
             (SFdiv PyNum.prec PyNum.emax size_bytes (PyNum.float_of_int 1024))
  end.

Definition _format_size (size_bytes : Z) : string :=
  if size_bytes <? 1024
  then (format_1f P (PyNum.float_of_int size_bytes) ++ "B")%string
  else format_size_loop ["KB"; "MB"; "GB"; "TB"]%string
         (SFdiv PyNum.prec PyNum.emax (PyNum.float_of_int size_bytes)
                (PyNum.float_of_int 1024)).

(** The sort key [(x.is_file(), x.name.lower())] and [<] on such pairs. *)
Definition sort_key (s : fs) (x : path) : bool * string :=
  (is_file s x, PyStr.lower (name x)).

Definition key_ltb (a b : bool * string) : bool :=
  match fst a, fst b with
  | false, true => true
  | true, false => false
  | _, _ => PyStr.ltb (snd a) (snd b)
  end.

(** An entry of the result: a dictionary, as the list of its items. *)
Definition info : Type := list (string * string).

(** The body of the loop from [info = {"name": entry.name}] on: with
    [detailed] the [try] block sets the three items, and an [OSError] of
    [entry.stat()], of [datetime.fromtimestamp] or of [entry.is_dir()] gives
    the two dashes instead; any other exception is not caught. *)
Definition entry_info (s : fs) (detailed : bool) (entry : path) : result info :=
  let info := [("name", name entry)]%string in
  let dashes := info ++ [("size", "-"); ("modified", "-")]%string in
  if detailed then
    match stat P s entry with
    | Some (st_size, st_mtime) =>
        match format_mtime P st_mtime with
        | Ok modified =>
            match Os.path_is_dir C s entry with
            | Ok d =>
                Ok (info ++ [("size", _format_size st_size);
                             ("modified", modified);
                             ("type", if d then "dir" else "file")]%string)
            | Raise e => if is_OSError e then Ok dashes else Raise e
            end
        | Raise e => if is_OSError e then Ok dashes else Raise e
        end
    | None => Ok dashes
    end
  else Ok info.

Fixpoint listing_loop (s : fs) (show_hidden detailed : bool)
         (entries : list path) : result (list info) :=
  match entries with
  | [] => Ok []
  | entry :: entries' =>
      if negb show_hidden && PyStr.startswith (name entry) "."
      then listing_loop s show_hidden detailed entries'
      else
        match entry_info s detailed entry with
        | Ok i =>
            match listing_loop s show_hidden detailed entries' with
            | Ok rest => Ok (i :: rest)
            | Raise e => Raise e
            end
        | Raise e => Raise e
        end
  end.

(** [p.iterdir()] on the platform: a directory that may not be listed
    raises [PermissionError]. *)
Definition iterdir (s : fs) (p : path) : result (list path) :=
  if may_list P p then PathLib.iterdir s p else Raise PermissionError.

(** The keys [(x.is_file(), x.name.lower())] that [sorted] computes, one
    for each entry in turn; [x.is_file()] asks the operating system. *)
Fixpoint sort_keys (s : fs) (entries : list path)
  : result (list (path * (bool * string))) :=
  match entries with
  | [] => Ok []
  | x :: entries' =>
      match Os.path_is_file C s x with
      | Ok f =>
          match sort_keys s entries' with
          | Ok keyed => Ok ((x, (f, PyStr.lower (name x))) :: keyed)
          | Raise e => Raise e
          end
      | Raise e => Raise e
      end
  end.

(** [sorted(p.iterdir(), key=lambda x: (x.is_file(), x.name.lower()))]. *)
Definition sorted_entries (s : fs) (p : path) : result (list path) :=
  match iterdir s p with
  | Ok children =>
      match sort_keys s children with
      | Ok keyed => Ok (List.map fst (sorted_by snd key_ltb keyed))
      | Raise e => Raise e
      end
  | Raise e => Raise e
  end.

Definition list_directory (s : fs) (p : path) (show_hidden detailed : bool)
  : result (list info) :=
  match Os.path_exists C s p with
  | Raise e => Raise e
  | Ok false => Ok []
  | Ok true =>
      match Os.path_is_dir C s p with
      | Raise e => Raise e
      | Ok false => Ok []
      | Ok true =>
          match sorted_entries s p with
          | Ok entries => listing_loop s show_hidden detailed entries
          | Raise PermissionError => Ok []
          | Raise e => Raise e
          end
      end
  end.

(** The time can be put into an entry: [datetime.fromtimestamp] returns, or
    raises an [OSError], which is caught. *)
Definition renders (t : Z) : bool :=
  match format_mtime P t with
  | Ok _ => true
  | Raise e => is_OSError e
  end.

(** The value under ["name"] of an entry of the result. *)
Definition info_name (i : info) : string :=
  match i with
  | (_, n) :: _ => n
  | [] => EmptyString
  end.
End Listing.

(** An entry is listed: hidden entries are listed on request only. *)
Definition visible (show_hidden : bool) (entry : path) : bool :=
  show_hidden || negb (PyStr.startswith (name entry) ".").

End DirOps.

(** ** search.py: text search

    The regular expressions of [re], the patterns of [fnmatch] and the walk
    of [Path.rglob(pattern)] are library code; the search is written over
    them. *)

Module TextSearch.
Import FS.

Record Libs : Type := mkLibs
  { regex : Type;
    (** [re.compile(p, re.IGNORECASE)]: [re.error], here [ReError], is
        raised for a pattern that is not a valid regular expression; other
        exceptions are possible (CPython raises [OverflowError] for a
        repetition count that is too large). *)
    re_compile : string -> result regex;
    (** [r.search(line)] is a match. *)
    re_search : regex -> string -> bool;
    re_escape : string -> string;
    fnmatch : string -> string -> bool;
    (** [root.rglob(pattern)], which raises on a pattern it refuses. *)
    rglob : fs -> path -> string -> result (list path);
    (** [p.exists()] and [p.is_file()], which raise where the operating
        system refuses to examine the path ([PermissionError] for a
        directory above it that may not be searched). *)
    path_exists : fs -> path -> result bool;
    path_is_file : fs -> path -> result bool;
    (** The lines that the loop over
        [open(p, "r", encoding="utf-8", errors="ignore")] gets: the text is
        decoded, what cannot be decoded being left out, and the loop ends
        with the file or with an [OSError], which is caught; there is no
        line when the file cannot be opened. *)
    read_lines : fs -> path -> list string }.

(** The lines of a file opened in text mode: each ends with its newline,
    and ["\r\n"] and ["\r"] are read as ["\n"]. *)
Fixpoint text_lines (cur : string) (content : string) : list string :=
  match content with
  | EmptyString =>
      match cur with
      | EmptyString => []
      | _ => [cur]
      end
  | String "013"%char (String "010"%char rest) =>
      (cur ++ String "010"%char EmptyString)%string :: text_lines EmptyString rest
  | String "013"%char rest =>
      (cur ++ String "010"%char EmptyString)%string :: text_lines EmptyString rest
  | String "010"%char rest =>
      (cur ++ String "010"%char EmptyString)%string :: text_lines EmptyString rest
  | String c rest => text_lines (cur ++ String c EmptyString)%string rest
  end.

(** A match: the dictionary [{"file": _, "line": _, "content": _}]. *)
Record SearchMatch : Type := mkMatch
  { file : path; line : Z; content : string }.

(** [for line_num, line in enumerate(f, 1)] with the test [found]. *)
Fixpoint scan_lines (found : string -> bool) (file_path : path)
         (line_num : Z) (lines : list string) : list SearchMatch :=
  match lines with
  | [] => []
  | l :: lines' =>
      (if found l then [mkMatch file_path line_num l] else [])
      ++ scan_lines found file_path (line_num + 1) lines'
  end.

Section Search.
Variable L : Libs.

(** [exclude and fnmatch.fnmatch(file_path.name, exclude)]. *)
Definition excluded (exclude : option string) (file_path : path) : bool :=
  match exclude with
  | Some (String _ _ as pat) => fnmatch L (name file_path) pat
  | _ => false
  end.

(** The loop over the files that [rglob] gave. *)
Fixpoint scan_files (found : string -> bool) (s : fs) (exclude : option string)
         (files : list path) : result (list SearchMatch) :=
  match files with
  | [] => Ok []
  | file_path :: files' =>
      match path_is_file L s file_path with
      | Raise e => Raise e
      | Ok false => scan_files found s exclude files'
      | Ok true =>
          if excluded exclude file_path then scan_files found s exclude files'
          else
            match scan_files found s exclude files' with
            | Ok rest =>
                Ok (scan_lines found file_path 1 (read_lines L s file_path)
                    ++ rest)
            | Raise e => Raise e
            end
      end
  end.

(** What follows the compilation of the pattern. *)
Definition search_with (found : string -> bool) (s : fs) (root : path)
           (include : string) (exclude : option string)
  : result (list SearchMatch) :=
  match rglob L s root include with
  | Ok files => scan_files found s exclude files
  | Raise e => Raise e
  end.

Definition search_text (s : fs) (pattern : string) (root : path)
           (include : string) (exclude : option string)
  : result (list SearchMatch) :=
  match path_exists L s root with
  | Raise e => Raise e
  | Ok false => Ok []
  | Ok true =>
      let compiled :=
        match re_compile L pattern with
        | Raise ReError => re_compile L (re_escape L pattern)
        | r => r
        end in
      match compiled with
      | Ok regex => search_with (re_search L regex) s root include exclude
      | Raise e => Raise e
      end
  end.

(** [m] stands for a line that the search tests: a line of a regular file
    among [files] that is not excluded, with its number, counted from 1. *)
Definition scanned (s : fs) (exclude : option string) (files : list path)
           (m : SearchMatch) : Prop :=
  In (file m) files /\
  path_is_file L s (file m) = Ok true /\
  excluded exclude (file m) = false /\
  exists i, nth_error (read_lines L s (file m)) i = Some (content m) /\
            line m = 1 + Z.of_nat i.

(** [is_file()] answers for each of the files. *)
Definition examinable (s : fs) (files : list path) : Prop :=
  Forall (fun f => exists b, path_is_file L s f = Ok b) files.
End Search.

(** [needle] occurs in [hay]. *)
Fixpoint contains (hay needle : string) : bool :=
  String.prefix needle hay ||
  match hay with
  | EmptyString => false
  | String _ hay' => contains hay' needle
  end.

(** [text] occurs in [line] when the case of letters is ignored. *)
Definition icontains (line text : string) : bool :=
  contains (PyStr.lower line) (PyStr.lower text).


End TextSearch.

(** A small library for the text search: patterns are literal texts in
    which every special character is escaped; every path can be examined,
    and the files hold ASCII text and are read to their end. *)

Module LiteralRe.

Definition is_special (c : ascii) : bool :=
  existsb (Ascii.eqb c)
    ["."; "^"; "$"; "*"; "+"; "?"; "{"; "}"; "["; "]"; "\"; "|"; "("; ")"]%char.

Fixpoint compile (p : string) : option string :=
  match p with
  | EmptyString => Some EmptyString
  | String "\"%char (String c rest) => option_map (String c) (compile rest)
  | String c rest =>
      if is_special c then None else option_map (String c) (compile rest)
  end.

Fixpoint escape (p : string) : string :=
  match p with
  | EmptyString => EmptyString
  | String c rest =>
      if is_special c then String "\"%char (String c (escape rest))
      else String c (escape rest)
  end.

Definition libs : TextSearch.Libs :=
  TextSearch.mkLibs string
    (fun p => match compile p with Some r => Ok r | None => Raise ReError end)
    (fun r line => TextSearch.icontains line r)
    escape String.eqb
    (fun s root include =>
       Ok (List.filter (fun q => String.eqb (FS.name q) include)
                       (FS.rglob_all s root)))
    (fun s p => Ok (FS.exists_ s p))
    (fun s p => Ok (FS.is_file s p))
    (fun s p => match FS.file_at s p with
                | Some text => TextSearch.text_lines EmptyString text
                | None => []
                end).

End LiteralRe.

(** ** Sample states *)

Module Samples.
Import FS.

(** A platform whose [stat] always fails and which renders nothing; every
    directory may be listed. *)
Definition bare_platform : DirOps.Platform :=
  DirOps.mkPlatform (fun _ => EmptyString) (fun _ _ => None)
                    (fun _ => Ok EmptyString) (fun _ => true).

(** The same, where no directory may be listed. *)
Definition locked_platform : DirOps.Platform :=
  DirOps.mkPlatform (fun _ => EmptyString) (fun _ _ => None)
                    (fun _ => Ok EmptyString) (fun _ => false).

(** A platform with sizes and times: every entry has 2048 bytes; a time is
    rendered for the directories, refused with an [OSError] for
    the regular files (time 1) and out of the range of years for the times from
    253402300800 on, the first second of the year 10000. *)
Definition sample_stat (s : FS.fs) (p : FS.path) : option (Z * Z) :=
  if FS.is_dir s p then Some (2048, 0)
  else if FS.is_file s p then Some (2048, 1)
  else None.

Definition sample_mtime (t : Z) : result string :=
  if 253402300800 <=? t then Raise ValueError
  else if t =? 1 then Raise OSError
  else Ok "1970-01-01 00:00".

Definition dated_platform : DirOps.Platform :=
  DirOps.mkPlatform (fun _ => "2.0") sample_stat sample_mtime (fun _ => true).

Definition far_platform : DirOps.Platform :=
  DirOps.mkPlatform (fun _ => "2.0") (fun _ _ => Some (2048, 253402300800))
                    sample_mtime (fun _ => true).

(** A directory of notes: a file of two lines. *)
Definition notes_tree : fs :=
  [(["docs"], Dir);
   (["docs"; "notes.txt"],
    File ("see [Need] here" ++ String "010"%char "nothing"
          ++ String "010"%char EmptyString)%string)].

(** A home directory with a hidden file, two directories and two files. *)
Definition home_tree : fs :=
  [(["home"], Dir);
   (["home"; "notes.txt"], File "needle");
   (["home"; ".profile"], File "x");
   (["home"; "Work"], Dir);
   (["home"; "Work"; "plan.txt"], File "y");
   (["home"; "archive"], Dir);
   (["home"; "Zebra.txt"], File "z")]%string.

(** A source with two files, one of them in a directory, and a destination
    that has the first file and one more. *)
Definition sync_tree : fs :=
  [(["src"], Dir);
   (["src"; "a.txt"], File "new");
   (["src"; "sub"], Dir);
   (["src"; "sub"; "b.txt"], File "b");
   (["dst"], Dir);
   (["dst"; "a.txt"], File "old");
   (["dst"; "extra.txt"], File "e")]%string.

(** A source and a destination that hold the same single file name. *)
Definition mirrored_tree : fs :=
  [(["s"], Dir); (["s"; "a"], File "x");
   (["d"], Dir); (["d"; "a"], File "y")]%string.

(** A source with one file and a destination with none. *)
Definition fresh_tree : fs :=
  [(["s"], Dir); (["s"; "a"], File "x")]%string.

(** The paths that may be examined when [/tmp] may not be searched. *)
Definition tmp_closed (p : path) : bool := negb (strictly_under ["tmp"] p).


End Samples.

(** ** dir_ops.py: [create_directory] *)

Module DirCreate.
Import FS PathLib.
Local Open Scope m_scope.

(** [Path.mkdir(parents=False, exist_ok=False)], that is [os.mkdir]: the
    path must be new and its parent a directory. *)
Definition mkdir_plain (p : path) : M unit :=
  fun s =>
    match p with
    | [] => (Raise FileExistsError, s)
    | _ =>
        match lookup s p with
        | Some _ => (Raise FileExistsError, s)
        | None =>
            match lookup s (parent p) with
            | Some Dir => (Ok tt, s ++ [(p, Dir)])
            | Some (File _) => (Raise NotADirectoryError, s)
            | None => (Raise FileNotFoundError, s)
            end
        end
    end.

(** [p.mkdir(parents=parents, exist_ok=parents)]. *)
Definition mkdir (p : path) (parents : bool) : M unit :=
  if parents then mkdir_parents_exist_ok p else mkdir_plain p.

Definition create_directory (p : path) (parents : bool) : M bool :=
  try_except_OSError (mkdir p parents ;; ret true) (ret false).

End DirCreate.

(** ** search.py: [find] *)

Module Find.
Import FS Search.

(** An entry of the result: the dictionary
    [{"path": _, "name": _, "type": _}]. *)
Record Found : Type := mkFound
  { item_path : path; item_name : string; item_type : string }.

(** [root.rglob("*")]: every entry below a directory, in walk order; what
    is not a directory has nothing below it. *)
Definition rglob_star (s : fs) (root : path) : list path :=
  if is_dir s root then rglob_all s root else [].

(** [item.is_symlink()]: the file system has no symbolic links. *)
Definition is_symlink (s : fs) (item : path) : bool := false.

(** [item.stat().st_size] of a regular file, the characters being bytes. *)
Definition st_size (s : fs) (item : path) : option Z :=
  match file_at s item with
  | Some content => Some (Z.of_nat (String.length content))
  | None => None
  end.

Section Find.
(** [fnmatch.fnmatch(name, pattern)]. *)
Variable fnmatch : string -> string -> bool.

(** The three tests of the loop that end in [continue]. *)
Definition name_skips (name : option string) (item : path) : bool :=
  match name with
  | Some (String _ _ as pat) => negb (fnmatch (FS.name item) pat)
  | _ => false
  end.

Definition type_skips (s : fs) (file_type : option string) (item : path) : bool :=
  match file_type with
  | Some (String _ _ as t) =>
      if String.eqb t "file" && negb (is_file s item) then true
      else if String.eqb t "dir" && negb (is_dir s item) then true
      else if String.eqb t "link" && negb (is_symlink s item) then true
      else false
  | _ => false
  end.

Definition size_skips (s : fs) (size_filter : option SizeFilter) (item : path)
  : bool :=
  match size_filter with
  | Some f =>
      is_file s item &&
      match st_size s item with
      | Some file_size => negb (_matches_size file_size f)
      | None => true
      end
  | None => false
  end.

Definition found (s : fs) (item : path) : Found :=
  mkFound item (FS.name item) (if is_dir s item then "dir" else "file").

Fixpoint find_loop (s : fs) (name : option string)
         (size_filter : option SizeFilter) (file_type : option string)
         (items : list path) : list Found :=
  match items with
  | [] => []
  | item :: items' =>
      if name_skips name item
      then find_loop s name size_filter file_type items'
      else if type_skips s file_type item
      then find_loop s name size_filter file_type items'
      else if size_skips s size_filter item
      then find_loop s name size_filter file_type items'
      else found s item :: find_loop s name size_filter file_type items'
  end.

(** [_parse_size_filter(size) if size else None]. *)
Definition size_filter_of (size : option string) : result (option SizeFilter) :=
  match size with
  | Some (String _ _ as z) =>
      match _parse_size_filter z with
      | Ok f => Ok (Some f)
      | Raise e => Raise e
      end
  | _ => Ok None
  end.

Definition find (s : fs) (root : path) (name size file_type : option string)
  : result (list Found) :=
  if negb (exists_ s root) then Ok []
  else
    match size_filter_of size with
    | Ok size_filter =>
        Ok (find_loop s name size_filter file_type (rglob_star s root))
    | Raise e => Raise e
    end.

(** [find] over the answer of the operating system to [root.exists()],
    which is asked first and outside any [try]; [find] above is [find_on]
    where every path may be examined. *)
Definition find_on (C : Os.Calls) (s : fs) (root : path)
           (name size file_type : option string) : result (list Found) :=
  match Os.path_exists C s root with
  | Raise e => Raise e
  | Ok false => Ok []
  | Ok true =>
      match size_filter_of size with
      | Ok size_filter =>
          Ok (find_loop s name size_filter file_type (rglob_star s root))
      | Raise e => Raise e
      end
  end.
End Find.

End Find.

(** ** file_ops.py: [copy_file] *)

Module FileCopy.
Import FS PathLib.
Local Open Scope m_scope.

(** Writing a regular file that is there: its content is replaced where it
    stands. *)
Definition write_over (p : path) (content : string) (s : fs) : fs :=
  List.map (fun e => if path_eqb p (fst e) then (fst e, File content) else e) s.

(** Where the copy of [src] goes: a directory [dst] stands for
    [dst / src.name]. *)
Definition target_of (s : fs) (src dst : path) : path :=
  if is_dir s dst then dst ++ [name src] else dst.

(** [shutil.copy2(src, dst)] in full ([PathLib.copy2] is the part of it that
    [sync] would need, which never gets that far).  The copy is refused when
    source and target are the same file ([SameFileError]) and when either is
    a directory ([IsADirectoryError]); both are subclasses of [OSError] and
    are raised as [OSError] here.  The target is then opened for writing: an
    existing file is overwritten, a new one needs its directory. *)
Definition copy2 (src dst : path) : M unit :=
  fun s =>
    let target := target_of s src dst in
    if exists_ s src && path_eqb src target then (Raise OSError, s)
    else
      match lookup s src with
      | None => (Raise FileNotFoundError, s)
      | Some Dir => (Raise OSError, s)
      | Some (File content) =>
          match lookup s target with
          | Some Dir => (Raise OSError, s)
          | Some (File _) => (Ok tt, write_over target content s)
          | None =>
              match lookup s (parent target) with
              | Some Dir => (Ok tt, s ++ [(target, File content)])
              | Some (File _) => (Raise NotADirectoryError, s)
              | None => (Raise FileNotFoundError, s)
              end
          end
      end.

Definition copy_file (source dest : path) (overwrite : bool) : M bool :=
  let src := source in
  let dst := dest in
  e <- get_fs (fun s => exists_ s src) ;;
  if negb e then ret false
  else
    d <- get_fs (fun s => exists_ s dst) ;;
    if d && negb overwrite then ret false
    else
      try_except_OSError
        (mkdir_parents_exist_ok (parent dst) ;;
         copy2 src dst ;;
         ret true)
        (ret false).

End FileCopy.

(** ** dir_ops.py: [tree] *)

Module DirTree.
Import FS DirOps.

(** A [rich.tree.Tree]: a label and the children added to it, in the order
    of the calls of [add]. *)
#[warnings="-register-all"] Inductive Tree : Type :=
| mkTree (label : string) (children : list Tree).

(** The two icons of the labels, as their bytes in UTF-8 (U+1F4C1 and
    U+1F4C4). *)
Definition folder_icon : string :=
  String "240" (String "159" (String "147" (String "129" EmptyString))).
Definition page_icon : string :=
  String "240" (String "159" (String "147" (String "132" EmptyString))).

Definition folder_label (text : string) : string := folder_icon ++ " " ++ text.
Definition page_label (text : string) : string := page_icon ++ " " ++ text.

(** [str(p)] of an absolute path. *)
Definition str_path (p : path) : string :=
  match p with
  | [] => "/"
  | _ => String.concat "" (List.map (fun c => ("/" ++ c)%string) p)
  end.

Section Tree.
Variable P : Platform.

(** The loop over the sorted entries of [_add_to_tree]; [recur entry] is
    the call [_add_to_tree(entry, branch, depth + 1)] and gives what that
    call adds to the new branch. *)
Fixpoint add_entries (recur : path -> result (list Tree)) (s : fs)
         (entries : list path) : result (list Tree) :=
  match entries with
  | [] => Ok []
  | entry :: entries' =>
      if PyStr.startswith (name entry) "." then add_entries recur s entries'
      else if is_dir s entry then
        match recur entry with
        | Ok branch =>
            match add_entries recur s entries' with
            | Ok rest => Ok (mkTree (folder_label (name entry)) branch :: rest)
            | Raise e => Raise e
            end
        | Raise e => Raise e
        end
      else
        match add_entries recur s entries' with
        | Ok rest => Ok (mkTree (page_label (name entry)) [] :: rest)
        | Raise e => Raise e
        end
  end.

(** [_add_to_tree(current_path, current_tree, depth)] gives what it adds to
    [current_tree]; [levels] is [max_depth - depth + 1], the number of levels
    still to be shown, so that [depth > max_depth] is [levels = 0]. *)
Fixpoint _add_to_tree (levels : nat) (s : fs) (current_path : path)
  : result (list Tree) :=
  match levels with
  | O => Ok []
  | S levels' =>
      match iterdir P s current_path with
      | Ok children =>
          let entries := sorted_by (sort_key s) key_ltb children in
          add_entries (_add_to_tree levels' s) s entries
      | Raise PermissionError => Ok []
      | Raise e => Raise e
      end
  end.

(** [tree(path, max_depth)]; the first call has [depth = 1]. *)
Definition tree (s : fs) (root_path : path) (max_depth : Z) : result Tree :=
  match _add_to_tree (Z.to_nat max_depth) s root_path with
  | Ok children => Ok (mkTree (folder_label (str_path root_path)) children)
  | Raise e => Raise e
  end.
End Tree.

Definition label (t : Tree) : string := match t with mkTree l _ => l end.
Definition children (t : Tree) : list Tree := match t with mkTree _ c => c end.

(** The nodes of a tree with their depths, the root having depth [d]. *)
Fixpoint nodes (d : nat) (t : Tree) : list (nat * string) :=
  match t with
  | mkTree l c => (d, l) :: List.flat_map (nodes (S d)) c
  end.

(** The label that an entry gets. *)
Definition entry_label (s : fs) (entry : path) : string :=
  if is_dir s entry then folder_label (name entry) else page_label (name entry).

(** A label of an entry that is not hidden. *)
Definition shown_label (l : string) : Prop :=
  exists n, PyStr.startswith n "." = false /\
            (l = folder_label n \/ l = page_label n).

End DirTree.

(** ** example_workflow.py: [backup_project] *)

Module Workflow.
Import FS.
Local Open Scope m_scope.

Section Backup.
(** [cleanup_old_backups(backup_base, keep_days)], which reads the clock, and
    [datetime.now().strftime("%Y%m%d_%H%M%S")] are given; what is printed is
    left out. *)
Variable cleanup_old_backups : path -> Z -> M unit.
Variable timestamp : string.


End Backup.

End Workflow.

(** Further sample states. *)

Module MoreSamples.
Import FS.

(** A source with one file and a destination that has it and a stale
    one. *)
Definition stale_tree : fs :=
  [(["s"], Dir); (["s"; "a"], File "x");
   (["d"], Dir); (["d"; "a"], File "y"); (["d"; "old"], File "z")]%string.

(** The picture of the home directory of [Samples.home_tree]. *)
Definition home_picture : DirTree.Tree :=
  DirTree.mkTree (DirTree.folder_label "/home")
    [DirTree.mkTree (DirTree.folder_label "archive") [];
     DirTree.mkTree (DirTree.folder_label "Work")
       [DirTree.mkTree (DirTree.page_label "plan.txt") []];
     DirTree.mkTree (DirTree.page_label "notes.txt") [];
     DirTree.mkTree (DirTree.page_label "Zebra.txt") []].

End MoreSamples.


(** * Properties *)

(** ** Strings *)

Module PyStrFacts.
Import PyStr.

Lemma all_chars_app p a b :
  all_chars p (a ++ b) = all_chars p a && all_chars p b.
Proof.
  induction a as [|c a IH]; simpl; [reflexivity|].
  rewrite IH, andb_assoc. reflexivity.
Qed.

Lemma all_chars_impl (p q : ascii -> bool) s :
  (forall c, p c = true -> q c = true) ->
  all_chars p s = true -> all_chars q s = true.
Proof.
  intros Hpq. induction s as [|c s IH]; simpl; [reflexivity|].
  intros H. apply andb_true_iff in H. destruct H as [H1 H2].
  rewrite (Hpq _ H1), (IH H2). reflexivity.
Qed.

Lemma all_chars_map p f s :
  all_chars p (map f s) = all_chars (fun c => p (f c)) s.
Proof.
  induction s as [|c s IH]; simpl; [reflexivity|]. rewrite IH. reflexivity.
Qed.

Lemma map_app f a b : map f (a ++ b) = (map f a ++ map f b)%string.
Proof.
  induction a as [|c a IH]; simpl; [reflexivity|]. rewrite IH. reflexivity.
Qed.

Lemma map_id_on f s :
  all_chars (fun c => Ascii.eqb (f c) c) s = true -> map f s = s.
Proof.
  induction s as [|c s IH]; simpl; [reflexivity|].
  intros H. apply andb_true_iff in H. destruct H as [H1 H2].
  apply Ascii.eqb_eq in H1. rewrite H1, (IH H2). reflexivity.
Qed.

Lemma app_assoc a b c : ((a ++ b) ++ c = a ++ (b ++ c))%string.
Proof.
  induction a as [|x a IH]; simpl; [reflexivity|]. rewrite IH. reflexivity.
Qed.

Lemma app_empty_r a : (a ++ "")%string = a.
Proof.
  induction a as [|x a IH]; simpl; [reflexivity|]. rewrite IH. reflexivity.
Qed.

Lemma length_app a b :
  String.length (a ++ b) = (String.length a + String.length b)%nat.
Proof.
  induction a as [|x a IH]; simpl; [reflexivity|]. rewrite IH. reflexivity.
Qed.

(** Stripping keeps a string without blanks. *)
Lemma lstrip_by_none sp s :
  all_chars (fun c => negb (sp c)) s = true -> lstrip_by sp s = s.
Proof.
  destruct s as [|c s]; simpl; [reflexivity|].
  intros H. apply andb_true_iff in H. destruct H as [H1 _].
  apply negb_true_iff in H1. rewrite H1. reflexivity.
Qed.

Lemma rstrip_by_none sp s :
  all_chars (fun c => negb (sp c)) s = true -> rstrip_by sp s = s.
Proof.
  induction s as [|c s IH]; simpl; [reflexivity|].
  intros H. apply andb_true_iff in H. destruct H as [H1 H2].
  apply negb_true_iff in H1. rewrite (IH H2), H1.
  destruct s; reflexivity.
Qed.

Lemma strip_by_none sp s :
  all_chars (fun c => negb (sp c)) s = true -> strip_by sp s = s.
Proof.
  intros H. unfold strip_by. rewrite (lstrip_by_none _ _ H).
  apply rstrip_by_none, H.
Qed.

(** Stripping, slicing and upper-casing only keep or transform characters
    that were there. *)
Lemma all_chars_lstrip p sp s :
  all_chars p s = true -> all_chars p (lstrip_by sp s) = true.
Proof.
  induction s as [|c s IH]; simpl; [reflexivity|].
  intros H. destruct (sp c).
  - apply IH. apply andb_true_iff in H. apply H.
  - exact H.
Qed.

Lemma all_chars_rstrip p sp s :
  all_chars p s = true -> all_chars p (rstrip_by sp s) = true.
Proof.
  induction s as [|c s IH]; simpl; [reflexivity|].
  intros H. apply andb_true_iff in H. destruct H as [H1 H2].
  specialize (IH H2).
  destruct (rstrip_by sp s) eqn:E.
  - destruct (sp c); simpl; [reflexivity|]. rewrite H1. reflexivity.
  - simpl. rewrite H1. exact IH.
Qed.

Lemma all_chars_strip p sp s :
  all_chars p s = true -> all_chars p (strip_by sp s) = true.
Proof.
  intros H. apply all_chars_rstrip, all_chars_lstrip, H.
Qed.

Lemma all_chars_drop p n s :
  all_chars p s = true -> all_chars p (drop n s) = true.
Proof.
  revert s. induction n as [|n IH]; intros s H; destruct s as [|c s]; simpl; auto.
  apply IH. simpl in H. apply andb_true_iff in H. apply H.
Qed.

Lemma all_chars_substring0 p n s :
  all_chars p s = true -> all_chars p (String.substring 0 n s) = true.
Proof.
  revert s. induction n as [|n IH]; intros s H; destruct s as [|c s]; simpl; auto.
  simpl in H. apply andb_true_iff in H. destruct H as [H1 H2].
  rewrite H1. apply IH, H2.
Qed.

Lemma all_chars_drop_end p n s :
  all_chars p s = true -> all_chars p (drop_end n s) = true.
Proof. apply all_chars_substring0. Qed.

Lemma all_chars_span p q s :
  all_chars p s = true ->
  all_chars p (fst (span q s)) = true /\ all_chars p (snd (span q s)) = true.
Proof.
  induction s as [|c s IH]; simpl; [auto|].
  intros H. apply andb_true_iff in H. destruct H as [H1 H2].
  destruct (q c).
  - destruct (span q s) as [a b]. simpl in *. destruct (IH H2) as [Ha Hb].
    rewrite H1, Ha, Hb. auto.
  - simpl. rewrite H1, H2. auto.
Qed.

Lemma span_all q s : all_chars q (fst (span q s)) = true.
Proof.
  induction s as [|c s IH]; simpl; [reflexivity|].
  destruct (q c) eqn:E; [|reflexivity].
  destruct (span q s) as [a b]. simpl in *. rewrite E, IH. reflexivity.
Qed.

Lemma span_all_chars q s :
  all_chars q s = true -> span q s = (s, EmptyString).
Proof.
  induction s as [|c s IH]; simpl; [reflexivity|].
  intros H. apply andb_true_iff in H. destruct H as [H1 H2].
  rewrite H1, (IH H2). reflexivity.
Qed.

(** Suffixes. *)
Lemma endswith_app a p : endswith (a ++ p) p = true.
Proof.
  induction a as [|c a IH]; simpl.
  - destruct p as [|d p]; simpl; [reflexivity|].
    rewrite Ascii.eqb_refl, String.eqb_refl. reflexivity.
  - rewrite IH. apply orb_true_r.
Qed.

Lemma endswith_inv s p :
  endswith s p = true -> exists a, s = (a ++ p)%string.
Proof.
  induction s as [|c s IH]; cbn [endswith]; intros H.
  - apply String.eqb_eq in H. subst p. exists EmptyString. reflexivity.
  - apply orb_true_iff in H. destruct H as [H|H].
    + apply String.eqb_eq in H. exists EmptyString. simpl. exact H.
    + destruct (IH H) as [a Ha]. exists (String c a). simpl. rewrite Ha. reflexivity.
Qed.

Lemma app_snoc_inj a b c d :
  (a ++ String c "" = b ++ String d "")%string -> a = b /\ c = d.
Proof.
  revert b. induction a as [|x a IH]; intros [|y b] H; simpl in H.
  - inversion H. auto.
  - inversion H as [[H1 H2]]. destruct b; discriminate.
  - inversion H as [[H1 H2]]. destruct a; discriminate.
  - inversion H as [[H1 H2]]. destruct (IH _ H2) as [-> ->]. auto.
Qed.

Lemma drop_end_app a p : drop_end (String.length p) (a ++ p) = a.
Proof.
  unfold drop_end. rewrite length_app.
  replace (String.length a + String.length p - String.length p)%nat
    with (String.length a) by lia.
  induction a as [|c a IH]; simpl.
  - destruct p; reflexivity.
  - rewrite IH. reflexivity.
Qed.

End PyStrFacts.

(** ** Numbers *)

Module PyNumFacts.
Import PyStr PyStrFacts PyNum.

Lemma binary_round_aux_sign s m e l :
  has_sign s (binary_round_aux prec emax s m e l).
Proof.
  unfold binary_round_aux.
  destruct (shr_fexp prec emax m e l) as [mrs' e'].
  destruct (shr_fexp prec emax _ e' loc_Exact) as [mrs'' e''].
  destruct (shr_m mrs''); cbn; auto.
  match goal with |- context [if ?b then _ else _] => destruct b end;
    cbn; reflexivity.
Qed.

Lemma binary_round_sign s m e : has_sign s (binary_round prec emax s m e).
Proof.
  unfold binary_round.
  destruct (shl_align m e _) as [mz ez]. apply binary_round_aux_sign.
Qed.

Lemma decimal_to_float_sign neg m e : has_sign neg (decimal_to_float neg m e).
Proof.
  unfold decimal_to_float. destruct m as [|p|p]; [exact I| |exact I].
  destruct (0 <=? e) eqn:He.
  - assert (Hpos : 0 < Zpos p * 10 ^ e).
    { apply Z.mul_pos_pos; [lia|]. apply Z.pow_pos_nonneg; lia. }
    unfold binary_normalize. destruct neg.
    + destruct (- (Zpos p * 10 ^ e)) eqn:E; try lia.
      apply binary_round_sign.
    + destruct (Zpos p * 10 ^ e) eqn:E; try lia.
      apply binary_round_sign.
  - unfold SFdiv.
    destruct (SFdiv_core_binary _ _ _ _ _ _) as [[mz ez] lz].
    replace (xorb neg false) with neg by (destruct neg; reflexivity).
    apply binary_round_aux_sign.
Qed.

Lemma take_sign_no_minus s :
  no_minus s = true ->
  fst (take_sign s) = false /\ no_minus (snd (take_sign s)) = true.
Proof.
  unfold no_minus. destruct s as [|c s]; [simpl; auto|].
  cbn [all_chars]. intros H. apply andb_true_iff in H. destruct H as [H1 H2].
  assert (E : take_sign (String c s) = (false, String c s) \/
              take_sign (String c s) = (false, s)).
  { apply negb_true_iff in H1.
    destruct c as [[] [] [] [] [] [] [] []];
      try (left; reflexivity); try (right; reflexivity).
    vm_compute in H1. discriminate. }
  destruct E as [E|E]; rewrite E; cbn [fst snd all_chars].
  - rewrite H1, H2. auto.
  - auto.
Qed.

Lemma strip_underscores_chars p prev s t :
  all_chars p s = true -> strip_underscores prev s = Some t ->
  all_chars p t = true.
Proof.
  revert prev t. induction s as [|c s IH]; intros prev t Hs H; simpl in H.
  - destruct prev as [a|]; [destruct (Ascii.eqb a "_") eqn:E|].
    + apply Ascii.eqb_eq in E. subst a. discriminate.
    + assert (t = EmptyString) as ->; [|reflexivity].
      destruct a as [[] [] [] [] [] [] [] []]; try (inversion H; reflexivity);
        discriminate.
    + inversion H. reflexivity.
  - simpl in Hs. apply andb_true_iff in Hs. destruct Hs as [Hc Hs].
    destruct (Ascii.eqb c "_").
    + destruct prev as [a|]; [|discriminate].
      destruct (isdigit a); [|discriminate]. eapply IH; eauto.
    + match type of H with (if ?b then _ else _) = _ => destruct b end;
        [discriminate|].
      destruct (strip_underscores (Some c) s) as [t'|] eqn:E; [|discriminate].
      inversion H. subst t. simpl. rewrite Hc. eapply IH; eauto.
Qed.

(** A numeral without a minus sign is not negative. *)
Lemma float_of_str_sign s v :
  no_minus s = true -> float_of_str s = Some v -> has_sign false v.
Proof.
  unfold float_of_str. intros Hs H.
  destruct (strip_underscores None (strip_by c_isspace s)) as [body|] eqn:E;
    [|discriminate].
  assert (Hb : no_minus body = true).
  { eapply strip_underscores_chars; [|exact E].
    apply all_chars_strip. exact Hs. }
  unfold parse_float_body in H.
  destruct (take_sign_no_minus _ Hb) as [Hneg _].
  destruct (take_sign body) as [neg s1]. simpl in Hneg. subst neg.
  destruct (_ || _); [inversion H; reflexivity|].
  destruct (String.eqb _ "NAN"); [inversion H; exact I|].
  destruct (span isdigit s1) as [ip r1].
  match type of H with
    (let '(_, _) := ?x in _) = _ => destruct x as [fp r2]
  end.
  destruct (ip ++ fp)%string eqn:Ed; [discriminate|].
  destruct (parse_exponent r2); [|discriminate].
  inversion H. apply decimal_to_float_sign.
Qed.

Lemma float_of_int_pos_sign n : 0 < n -> has_sign false (float_of_int n).
Proof.
  intros Hn. unfold float_of_int, binary_normalize.
  destruct n; try lia. apply binary_round_sign.
Qed.

Lemma float_mul_int_sign v n :
  0 < n -> has_sign false v -> has_sign false (float_mul_int v n).
Proof.
  intros Hn Hv. unfold float_mul_int.
  pose proof (float_of_int_pos_sign n Hn) as Hy.
  destruct v as [sv|sv| |sv mv ev], (float_of_int n) as [sy|sy| |sy my ey];
    simpl in *; subst; auto.
  apply binary_round_aux_sign.
Qed.

Lemma int_of_float_nonneg v n :
  has_sign false v -> int_of_float v = Ok n -> 0 <= n.
Proof.
  destruct v as [s|s| |s m e]; cbn [int_of_float has_sign]; intros Hs H;
    try discriminate.
  - injection H as <-. lia.
  - subst s.
    assert (Hmag : 0 <= (if 0 <=? e then Zpos m * 2 ^ e else Zpos m / 2 ^ (- e))).
    { destruct (0 <=? e) eqn:He.
      + apply Z.mul_nonneg_nonneg; [lia|]. apply Z.pow_nonneg. lia.
      + apply Z.leb_gt in He.
        apply Z.div_pos; [lia|]. apply Z.pow_pos_nonneg; lia. }
    congruence.
Qed.

Lemma digit_val_nonneg c : isdigit c = true -> 0 <= digit_val c.
Proof.
  unfold isdigit, digit_val. intros H. apply andb_true_iff in H.
  destruct H as [H _]. apply N.leb_le in H. lia.
Qed.

Lemma digits_val_acc_nonneg s acc :
  all_chars isdigit s = true -> 0 <= acc -> 0 <= digits_val_acc acc s.
Proof.
  revert acc. induction s as [|c s IH]; cbn [digits_val_acc all_chars];
    intros acc H Hacc; [exact Hacc|].
  apply andb_true_iff in H. destruct H as [Hc Hs].
  apply IH; [exact Hs|]. pose proof (digit_val_nonneg c Hc). lia.
Qed.

Lemma int_digits_all_digits_upto n s ds :
  (String.length s <= n)%nat ->
  int_digits s = Some ds -> all_chars isdigit ds = true.
Proof.
  revert s ds. induction n as [|n IH]; intros s ds Hn H.
  - destruct s; [discriminate|simpl in Hn; lia].
  - destruct s as [|c s']; [discriminate|].
    cbn [int_digits] in H.
    destruct (isdigit c) eqn:Hc; [|discriminate].
    simpl in Hn.
    assert (Hrec : forall t, (String.length t <= n)%nat ->
                     option_map (String c) (int_digits t) = Some ds ->
                     all_chars isdigit ds = true).
    { intros t Hlt Hr. destruct (int_digits t) as [ds'|] eqn:E; [|discriminate].
      injection Hr as <-. cbn [all_chars]. rewrite Hc. eapply IH; eauto. }
    destruct s' as [|d s''].
    + injection H as <-. cbn [all_chars]. rewrite Hc. reflexivity.
    + simpl in Hn.
      destruct (Ascii.eqb d "_") eqn:Ed.
      * apply Ascii.eqb_eq in Ed. subst d. apply (Hrec s''); [lia|exact H].
      * apply (Hrec (String d s'')); [simpl; lia|].
        destruct d as [[] [] [] [] [] [] [] []]; try exact H.
        vm_compute in Ed. discriminate.
Qed.

Lemma int_digits_all_digits s ds :
  int_digits s = Some ds -> all_chars isdigit ds = true.
Proof. apply (int_digits_all_digits_upto (String.length s)). lia. Qed.

(** An integer literal without a minus sign is not negative. *)
Lemma int_of_str_nonneg s n :
  no_minus s = true -> int_of_str s = Some n -> 0 <= n.
Proof.
  unfold int_of_str. intros Hs H.
  assert (Hb : no_minus (strip_by c_isspace s) = true)
    by (apply all_chars_strip; exact Hs).
  destruct (take_sign_no_minus _ Hb) as [Hneg _].
  destruct (take_sign _) as [neg s1]. simpl in Hneg. subst neg.
  destruct (int_digits s1) as [ds|] eqn:E; [|discriminate].
  destruct (_ <? _)%nat; [discriminate|]. inversion H.
  apply digits_val_acc_nonneg; [|lia].
  eapply int_digits_all_digits; eauto.
Qed.

Lemma all_chars_lstrip_inv p sp s :
  (forall c, sp c = true -> p c = true) ->
  all_chars p (lstrip_by sp s) = true -> all_chars p s = true.
Proof.
  intros Hsp. induction s as [|c s IH]; cbn [lstrip_by all_chars]; [auto|].
  destruct (sp c) eqn:E.
  - intros H. rewrite (Hsp _ E), (IH H). reflexivity.
  - cbn [all_chars]. auto.
Qed.

Lemma all_chars_rstrip_inv p sp s :
  (forall c, sp c = true -> p c = true) ->
  all_chars p (rstrip_by sp s) = true -> all_chars p s = true.
Proof.
  intros Hsp. induction s as [|c s IH]; cbn [rstrip_by all_chars]; [auto|].
  destruct (rstrip_by sp s) as [|d r] eqn:E.
  - destruct (sp c) eqn:Ec; cbn [all_chars]; intros H.
    + rewrite (Hsp _ Ec), IH; reflexivity.
    + apply andb_true_iff in H. destruct H as [H _].
      rewrite H, IH; reflexivity.
  - cbn [all_chars]. intros H. apply andb_true_iff in H. destruct H as [H1 H2].
    rewrite H1, (IH H2). reflexivity.
Qed.

Lemma all_chars_strip_inv p sp s :
  (forall c, sp c = true -> p c = true) ->
  all_chars p (strip_by sp s) = true -> all_chars p s = true.
Proof.
  intros Hsp H. apply (all_chars_lstrip_inv p sp); [exact Hsp|].
  apply (all_chars_rstrip_inv p sp); [exact Hsp|exact H].
Qed.

Lemma take_sign_cases s :
  take_sign s = (false, s) \/
  (exists s1, s = String "+" s1 /\ take_sign s = (false, s1)) \/
  (exists s1, s = String "-" s1 /\ take_sign s = (true, s1)).
Proof.
  destruct s as [|c s]; [left; reflexivity|].
  destruct (Ascii.eqb c "+") eqn:Ep.
  { apply Ascii.eqb_eq in Ep. subst c. right. left. eauto. }
  destruct (Ascii.eqb c "-") eqn:Em.
  { apply Ascii.eqb_eq in Em. subst c. right. right. eauto. }
  left. destruct c as [[] [] [] [] [] [] [] []]; try reflexivity;
    vm_compute in Ep, Em; discriminate.
Qed.

Lemma int_digits_chars_upto n s ds :
  (String.length s <= n)%nat ->
  int_digits s = Some ds ->
  all_chars (fun c => isdigit c || Ascii.eqb c "_") s = true.
Proof.
  revert s ds. induction n as [|n IH]; intros s ds Hn H.
  - destruct s; [discriminate|simpl in Hn; lia].
  - destruct s as [|c s']; [discriminate|].
    cbn [int_digits] in H.
    destruct (isdigit c) eqn:Hc; [|discriminate].
    simpl in Hn. cbn [all_chars]. rewrite Hc. cbn [orb andb].
    assert (Hrec : forall t, (String.length t <= n)%nat ->
                     option_map (String c) (int_digits t) = Some ds ->
                     all_chars (fun c => isdigit c || Ascii.eqb c "_") t = true).
    { intros t Hlt Hr. destruct (int_digits t) as [ds'|] eqn:E; [|discriminate].
      eapply IH; eauto. }
    destruct s' as [|d s'']; [reflexivity|].
    simpl in Hn.
    destruct (Ascii.eqb d "_") eqn:Ed.
    + cbn [all_chars]. rewrite Ed, orb_true_r. cbn [andb].
      apply Ascii.eqb_eq in Ed. subst d. apply (Hrec s''); [lia|exact H].
    + apply (Hrec (String d s'')); [simpl; lia|].
      destruct d as [[] [] [] [] [] [] [] []]; try exact H.
      vm_compute in Ed. discriminate.
Qed.

(** A string that [int] reads holds nothing but digits, underscores, signs
    and blanks. *)
Lemma int_of_str_chars s n :
  int_of_str s = Some n -> all_chars int_char s = true.
Proof.
  unfold int_of_str. intros H.
  apply (all_chars_strip_inv int_char c_isspace).
  { intros c Hc. unfold int_char. rewrite Hc, orb_true_r. reflexivity. }
  destruct (take_sign _) as [neg s1] eqn:Et.
  destruct (int_digits s1) as [ds|] eqn:Ed; [|discriminate].
  assert (H1 : all_chars int_char s1 = true).
  { eapply all_chars_impl;
      [|eapply (int_digits_chars_upto (String.length s1)); [lia|exact Ed]].
    intros c Hc. unfold int_char. apply orb_true_iff in Hc.
    destruct Hc as [Hc|Hc].
    - rewrite Hc. reflexivity.
    - apply Ascii.eqb_eq in Hc. subst c. reflexivity. }
  destruct (take_sign_cases (strip_by c_isspace s))
    as [E|[[s2 [E1 E2]]|[s2 [E1 E2]]]].
  - rewrite E in Et. inversion Et. subst. exact H1.
  - rewrite E2 in Et. inversion Et. subst. rewrite E1.
    cbn [all_chars]. rewrite H1. reflexivity.
  - rewrite E2 in Et. inversion Et. subst. rewrite E1.
    cbn [all_chars]. rewrite H1. reflexivity.
Qed.

(** *** Integers below 2^53 are floats *)

Lemma digits2_pos_bounds p :
  2 ^ (Zpos (digits2_pos p) - 1) <= Zpos p < 2 ^ Zpos (digits2_pos p).
Proof.
  induction p as [p IH|p IH|]; cbn [digits2_pos].
  - rewrite Pos2Z.inj_succ.
    replace (Z.succ (Zpos (digits2_pos p)) - 1) with (Z.succ (Zpos (digits2_pos p) - 1)) by lia.
    rewrite !Z.pow_succ_r by lia. lia.
  - rewrite Pos2Z.inj_succ.
    replace (Z.succ (Zpos (digits2_pos p)) - 1) with (Z.succ (Zpos (digits2_pos p) - 1)) by lia.
    rewrite !Z.pow_succ_r by lia. lia.
  - simpl. lia.
Qed.

Lemma digits2_pos_unique p k :
  2 ^ (k - 1) <= Zpos p < 2 ^ k -> Zpos (digits2_pos p) = k.
Proof.
  intros H. pose proof (digits2_pos_bounds p) as B.
  assert (Hk : 0 < k).
  { destruct (Z_lt_le_dec 0 k); [auto|].
    assert (2 ^ k <= 1).
    { destruct (Z.eq_dec k 0); [subst; simpl; lia|].
      rewrite Z.pow_neg_r by lia. lia. }
    lia. }
  set (d := Zpos (digits2_pos p)) in *.
  destruct (Z.lt_trichotomy d k) as [L|[E|G]]; [|exact E|].
  - assert (2 ^ d <= 2 ^ (k - 1)) by (apply Z.pow_le_mono_r; lia). lia.
  - assert (2 ^ k <= 2 ^ (d - 1)) by (apply Z.pow_le_mono_r; lia). lia.
Qed.

Lemma pos_iter_xO p k : Zpos (Pos.iter xO p k) = Zpos p * 2 ^ Zpos k.
Proof.
  rewrite <- Z.shiftl_mul_pow2 by lia. cbn [Z.shiftl].
  apply (Pos.iter_swap_gen _ _ Zpos xO (Z.mul 2)). reflexivity.
Qed.

Lemma binary_round_aux_exact s mz ez :
  Zpos (digits2_pos mz) = 53 -> -1074 <= ez <= 971 ->
  binary_round_aux prec emax s (Zpos mz) ez loc_Exact = S754_finite s mz ez.
Proof.
  intros Hd He.
  assert (Hs : shr_fexp prec emax (Zpos mz) ez loc_Exact
               = ({| shr_m := Zpos mz; shr_r := false; shr_s := false |}, ez)).
  { unfold shr_fexp. cbn [Zdigits2]. rewrite Hd.
    unfold fexp, emin, prec, emax.
    replace (Z.max (53 + ez - 53) (3 - 1024 - 53) - ez) with 0 by lia.
    reflexivity. }
  unfold binary_round_aux. rewrite Hs. cbn [shr_m loc_of_shr_record round_nearest_even].
  rewrite Hs. cbn [shr_m].
  replace (ez <=? emax - prec) with true; [reflexivity|].
  symmetry. apply Z.leb_le. unfold emax, prec. lia.
Qed.

(** The float of a positive integer below 2^53 holds it exactly. *)
Lemma float_of_small_int p :
  Zpos p < 2 ^ 53 ->
  exists mz ez,
    binary_round prec emax false p 0 = S754_finite false mz ez /\
    Zpos (digits2_pos mz) = 53 /\ -52 <= ez <= 0 /\
    Zpos mz = Zpos p * 2 ^ (- ez).
Proof.
  intros Hp. pose proof (digits2_pos_bounds p) as B.
  set (d := Zpos (digits2_pos p)) in *.
  assert (Hd : 1 <= d <= 53).
  { split; [unfold d; lia|].
    destruct (Z_le_gt_dec d 53); [auto|].
    assert (2 ^ 53 <= 2 ^ (d - 1)) by (apply Z.pow_le_mono_r; lia). lia. }
  unfold binary_round.
  assert (Hf : fexp prec emax (Zpos (digits2_pos p) + 0) = d - 53).
  { unfold fexp, emin, prec, emax. fold d. lia. }
  rewrite Hf. unfold shl_align.
  destruct (d - 53 - 0) as [|k|k] eqn:Ek; try lia.
  - assert (Hd53 : d = 53) by lia.
    exists p, 0.
    split; [apply binary_round_aux_exact; [exact Hd53|lia]|].
    split; [exact Hd53|]. split; [lia|]. simpl. lia.
  - exists (Pos.iter xO p k), (d - 53).
    assert (Hm : Zpos (Pos.iter xO p k) = Zpos p * 2 ^ Zpos k) by apply pos_iter_xO.
    assert (Hk : Zpos k = 53 - d) by lia.
    assert (Hdig : Zpos (digits2_pos (Pos.iter xO p k)) = 53).
    { apply digits2_pos_unique. rewrite Hm, Hk.
      assert (E1 : 2 ^ (53 - 1) = 2 ^ (d - 1) * 2 ^ (53 - d))
        by (rewrite <- Z.pow_add_r by lia; f_equal; lia).
      assert (E2 : 2 ^ 53 = 2 ^ d * 2 ^ (53 - d))
        by (rewrite <- Z.pow_add_r by lia; f_equal; lia).
      assert (0 < 2 ^ (53 - d)) by (apply Z.pow_pos_nonneg; lia).
      rewrite E1, E2.
      split; [apply Z.mul_le_mono_nonneg_r; lia|apply Z.mul_lt_mono_pos_r; lia]. }
    split; [apply binary_round_aux_exact; [exact Hdig|lia]|].
    split; [exact Hdig|]. split; [lia|].
    rewrite Hm, Hk. f_equal. f_equal. lia.
Qed.

(** Multiplying a full-width mantissa by a power of two shifts the
    exponent. *)
Lemma mul_pow2_exact mz ez e2 :
  Zpos (digits2_pos mz) = 53 -> -1074 <= ez + e2 + 52 <= 971 ->
  SFmul prec emax (S754_finite false mz ez)
        (S754_finite false 4503599627370496 e2)
  = S754_finite false mz (ez + e2 + 52).
Proof.
  intros Hd He. cbn [SFmul xorb].
  assert (Hdp : digits2_pos mz = 53%positive) by (injection Hd; auto).
  assert (Hs : shr_fexp prec emax (Zpos (mz * 4503599627370496)) (ez + e2) loc_Exact
               = ({| shr_m := Zpos mz; shr_r := false; shr_s := false |}, ez + e2 + 52)).
  { unfold shr_fexp. rewrite Pos.mul_comm. cbn [Pos.mul Zdigits2 digits2_pos].
    rewrite Hdp. cbn [Pos.succ].
    unfold fexp, emin, prec, emax.
    replace (Z.max (105 + (ez + e2) - 53) (3 - 1024 - 53) - (ez + e2)) with 52 by lia.
    reflexivity. }
  unfold binary_round_aux. rewrite Hs.
  cbn [shr_m loc_of_shr_record round_nearest_even].
  assert (Hs2 : shr_fexp prec emax (Zpos mz) (ez + e2 + 52) loc_Exact
               = ({| shr_m := Zpos mz; shr_r := false; shr_s := false |}, ez + e2 + 52)).
  { unfold shr_fexp. cbn [Zdigits2]. rewrite Hd.
    unfold fexp, emin, prec, emax.
    replace (Z.max (53 + (ez + e2 + 52) - 53) (3 - 1024 - 53) - (ez + e2 + 52)) with 0 by lia.
    reflexivity. }
  rewrite Hs2. cbn [shr_m].
  replace (ez + e2 + 52 <=? emax - prec) with true; [reflexivity|].
  symmetry. apply Z.leb_le. unfold emax, prec. lia.
Qed.

Lemma float_of_int_pow1024 k :
  0 <= k <= 4 ->
  float_of_int (1024 ^ k) = S754_finite false 4503599627370496 (10 * k - 52).
Proof.
  intros H.
  assert (k = 0 \/ k = 1 \/ k = 2 \/ k = 3 \/ k = 4) as [->|[->|[->|[->| ->]]]] by lia;
    vm_compute; reflexivity.
Qed.

(** An integer below 2^53 times a unit multiplier is computed exactly. *)
Lemma int_times_unit_exact n k :
  0 <= n < 2 ^ 53 -> 0 <= k <= 4 ->
  int_of_float (float_mul_int (decimal_to_float false n 0) (1024 ^ k))
  = Ok (n * 1024 ^ k).
Proof.
  intros Hn Hk. unfold float_mul_int. rewrite (float_of_int_pow1024 k Hk).
  unfold decimal_to_float. destruct n as [|p|p]; try lia.
  - reflexivity.
  - replace (0 <=? 0) with true by reflexivity.
    replace (Zpos p * 10 ^ 0) with (Zpos p) by (simpl; lia).
    cbn [binary_normalize].
    destruct (float_of_small_int p) as [mz [ez [E [Hd [He Hm]]]]]; [lia|].
    rewrite E, (mul_pow2_exact mz ez (10 * k - 52) Hd) by lia.
    cbn [int_of_float]. f_equal.
    replace (1024 ^ k) with (2 ^ (10 * k))
      by (change 1024 with (2 ^ 10); rewrite <- Z.pow_mul_r by lia; reflexivity).
    rewrite Hm.
    destruct (0 <=? ez + (10 * k - 52) + 52) eqn:Ee.
    + apply Z.leb_le in Ee.
      rewrite <- Z.mul_assoc, <- Z.pow_add_r by lia. f_equal. f_equal. lia.
    + apply Z.leb_gt in Ee.
      replace (- ez) with (10 * k + - (ez + (10 * k - 52) + 52)) by lia.
      rewrite Z.pow_add_r by lia. rewrite Z.mul_assoc.
      apply Z.div_mul. apply Z.pow_nonzero; lia.
Qed.

Lemma digit_facts c :
  isdigit c = true ->
  c_isspace c = false /\ Ascii.eqb c "_" = false /\ upper_char c = c /\
  Ascii.eqb c "I" = false /\ Ascii.eqb c "N" = false /\
  (forall s, take_sign (String c s) = (false, String c s)) /\
  Search.numeral_char c = true.
Proof.
  destruct c as [[] [] [] [] [] [] [] []]; intros H;
    try (vm_compute in H; discriminate); repeat split; reflexivity.
Qed.

Lemma strip_underscores_digits ds prev :
  all_chars isdigit ds = true ->
  (ds = EmptyString -> prev <> Some "_"%char) ->
  strip_underscores prev ds = Some ds.
Proof.
  revert prev. induction ds as [|c ds IH]; intros prev H Hp.
  - cbn [strip_underscores]. destruct prev as [a|]; [|reflexivity].
    destruct (Ascii.eqb a "_") eqn:E.
    + apply Ascii.eqb_eq in E. subst a. exfalso. apply Hp; reflexivity.
    + destruct a as [[] [] [] [] [] [] [] []]; try reflexivity;
        vm_compute in E; discriminate.
  - cbn [all_chars] in H. apply andb_true_iff in H. destruct H as [Hc Hs].
    destruct (digit_facts c Hc) as [_ [Hu _]].
    cbn [strip_underscores]. rewrite Hu, Hc. cbn [negb].
    assert (Hbad : match prev with Some "_"%char => false | _ => false end = false).
    { destruct prev as [a|]; [|reflexivity].
      destruct a as [[] [] [] [] [] [] [] []]; reflexivity. }
    rewrite Hbad, IH; [reflexivity|exact Hs|].
    intros _ E. inversion E. subst c. vm_compute in Hc. discriminate.
Qed.

Lemma upper_digits ds : all_chars isdigit ds = true -> upper ds = ds.
Proof.
  intros H. apply map_id_on. eapply all_chars_impl; [|exact H].
  intros c Hc. destruct (digit_facts c Hc) as [_ [_ [-> _]]].
  apply Ascii.eqb_refl.
Qed.

(** [float] reads a string of digits as the float of its value. *)
Lemma float_of_digits ds :
  all_chars isdigit ds = true -> ds <> EmptyString ->
  float_of_str ds = Some (decimal_to_float false (digits_val ds) 0).
Proof.
  intros H Hne. unfold float_of_str.
  rewrite strip_by_none.
  2:{ eapply all_chars_impl; [|exact H]. intros c Hc.
      destruct (digit_facts c Hc) as [-> _]. reflexivity. }
  rewrite strip_underscores_digits; [|exact H|contradiction].
  destruct ds as [|c ds]; [contradiction|].
  pose proof H as H'. cbn [all_chars] in H'. apply andb_true_iff in H'.
  destruct H' as [Hc Hs].
  destruct (digit_facts c Hc) as [_ [_ [Hup [HI [HN [Hts _]]]]]].
  unfold parse_float_body. rewrite Hts, (upper_digits _ H).
  cbn [String.eqb]. rewrite HI, HN. cbn [orb].
  rewrite (span_all_chars _ _ H), app_empty_r.
  cbn [parse_exponent String.length Z.of_nat]. reflexivity.
Qed.

End PyNumFacts.

(** ** The size filter *)

Module SearchFacts.
Import PyStr PyStrFacts PyNum PyNumFacts Search.

Lemma units_by_length_eq :
  units_by_length =
  [("KB", 1024); ("MB", 1048576); ("GB", 1073741824); ("TB", 1099511627776);
   ("B", 1)]%string.
Proof. reflexivity. Qed.

Lemma units_by_length_perm : Permutation units_by_length units.
Proof.
  rewrite units_by_length_eq. unfold units. simpl.
  apply Permutation_sym.
  apply (Permutation_cons_app [_; _; _; _] []). reflexivity.
Qed.

Lemma unit_multiplier_pos u m : In (u, m) units_by_length -> 0 < m.
Proof.
  rewrite units_by_length_eq. simpl.
  intros [H|[H|[H|[H|[H|[]]]]]]; inversion H; lia.
Qed.

Lemma upper_char_not_minus c :
  negb (Ascii.eqb c "-") = true -> negb (Ascii.eqb (upper_char c) "-") = true.
Proof.
  destruct c as [[] [] [] [] [] [] [] []]; intros H; try reflexivity;
    vm_compute in H; discriminate.
Qed.

Lemma no_minus_upper s : no_minus s = true -> no_minus (upper s) = true.
Proof.
  unfold no_minus, upper. rewrite all_chars_map.
  apply all_chars_impl. exact upper_char_not_minus.
Qed.

Lemma no_minus_split_operator s :
  no_minus s = true -> no_minus (snd (split_operator s)) = true.
Proof.
  intros H. unfold split_operator.
  repeat match goal with
         | |- context [if ?b then _ else _] => destruct b
         end; cbn [snd]; try exact H; apply all_chars_drop, H.
Qed.

(** The loop follows the decisive unit. *)
Lemma unit_loop_find us op val_str :
  unit_loop us op val_str =
  match List.find (fun um => endswith val_str (fst um)) us with
  | Some (unit, multiplier) =>
      match float_of_str (drop_end (String.length unit) val_str) with
      | Some value =>
          match int_of_float (float_mul_int value multiplier) with
          | Ok n => Returned (op, n)
          | Raise ValueError => Fell_through
          | Raise e => Raised e
          end
      | None => Fell_through
      end
  | None => Fell_through
  end.
Proof.
  induction us as [|[u m] us IH]; cbn [unit_loop List.find fst]; [reflexivity|].
  destruct (endswith val_str u); [reflexivity|exact IH].
Qed.

Lemma unit_loop_nonneg us op val_str op' t :
  (forall u m, In (u, m) us -> 0 < m) ->
  no_minus val_str = true ->
  unit_loop us op val_str = Returned (op', t) -> 0 <= t.
Proof.
  intros Hus Hv. rewrite unit_loop_find.
  destruct (List.find _ us) as [[u m]|] eqn:Ef; [|discriminate].
  apply find_some in Ef. destruct Ef as [Hin _].
  destruct (float_of_str _) as [v|] eqn:Ev; [|discriminate].
  destruct (int_of_float _) as [n|e] eqn:En.
  - intros H. inversion H. subst.
    eapply int_of_float_nonneg; [|exact En].
    apply float_mul_int_sign; [eapply Hus; eauto|].
    eapply float_of_str_sign; [|exact Ev].
    apply all_chars_drop_end, Hv.
  - destruct e; discriminate.
Qed.

(** *** A size string made of an operator, a numeral and a unit *)

Lemma numeral_char_plain c :
  numeral_char c = true -> plain_char (upper_char c) = true.
Proof.
  destruct c as [[] [] [] [] [] [] [] []]; intros H; try reflexivity;
    vm_compute in H; discriminate.
Qed.

Lemma numeral_upper_plain num :
  all_chars numeral_char num = true -> all_chars plain_char (upper num) = true.
Proof.
  intros H. unfold upper. rewrite all_chars_map.
  eapply all_chars_impl; [|exact H]. exact numeral_char_plain.
Qed.

Lemma numeral_char_not_space c :
  numeral_char c = true -> negb (isspace c) = true.
Proof.
  destruct c as [[] [] [] [] [] [] [] []]; intros H; try reflexivity;
    vm_compute in H; discriminate.
Qed.

Lemma unit_cases u m :
  In (u, m) units ->
  (u, m) = ("B", 1)%string \/ (u, m) = ("KB", 1024)%string \/
  (u, m) = ("MB", 1048576)%string \/ (u, m) = ("GB", 1073741824)%string \/
  (u, m) = ("TB", 1099511627776)%string.
Proof.
  unfold units. simpl. intros [H|[H|[H|[H|[H|[]]]]]]; inversion H; auto 6.
Qed.

(** [strip] and [upper] leave such a string as it is, but for the case of
    the numeral. *)
Lemma normalise_written op num u m :
  written_operator op -> In (u, m) units ->
  all_chars numeral_char num = true ->
  upper (strip (op ++ num ++ u)) = (op ++ upper num ++ u)%string.
Proof.
  intros Hop Hu Hn.
  assert (Hop' : all_chars (fun c => negb (isspace c)) op = true /\ upper op = op).
  { unfold written_operator in Hop. simpl in Hop.
    destruct Hop as [<-|[<-|[<-|[<-|[<-|[]]]]]]; split; reflexivity. }
  assert (Hu' : all_chars (fun c => negb (isspace c)) u = true /\ upper u = u).
  { destruct (unit_cases u m Hu) as [E|[E|[E|[E|E]]]]; inversion E;
      split; reflexivity. }
  destruct Hop' as [Ho1 Ho2], Hu' as [Hu1 Hu2].
  unfold strip. rewrite strip_by_none.
  - unfold upper in *. rewrite !map_app, Ho2, Hu2. reflexivity.
  - rewrite !all_chars_app, Ho1, Hu1.
    rewrite (all_chars_impl _ _ _ numeral_char_not_space Hn). reflexivity.
Qed.

(** The operator is split off where the rest does not begin with one of
    its characters. *)
Lemma split_operator_written op c r :
  written_operator op -> plain_char c = true ->
  split_operator (op ++ String c r) = (operator_of op, String c r).
Proof.
  intros Hop Hc. unfold written_operator in Hop. simpl in Hop.
  destruct Hop as [<-|[<-|[<-|[<-|[<-|[]]]]]];
    destruct c as [[] [] [] [] [] [] [] []]; try reflexivity;
    vm_compute in Hc; discriminate.
Qed.

Lemma endswith_two a x y c d :
  endswith (a ++ String x (String y "")) (String c (String d "")) = true ->
  x = c /\ y = d.
Proof.
  intros H. apply endswith_inv in H. destruct H as [b Hb].
  change (a ++ String x (String y ""))%string
    with (a ++ (String x "" ++ String y ""))%string in Hb.
  change (b ++ String c (String d ""))%string
    with (b ++ (String c "" ++ String d ""))%string in Hb.
  rewrite <- !app_assoc in Hb.
  apply app_snoc_inj in Hb. destruct Hb as [Hb ->].
  apply app_snoc_inj in Hb. destruct Hb as [_ ->]. auto.
Qed.

Lemma endswith_one_two a y c d :
  endswith (a ++ String y "") (String c (String d "")) = true ->
  exists b, a = (b ++ String c "")%string.
Proof.
  intros H. apply endswith_inv in H. destruct H as [b Hb].
  change (b ++ String c (String d ""))%string
    with (b ++ (String c "" ++ String d ""))%string in Hb.
  rewrite <- app_assoc in Hb.
  apply app_snoc_inj in Hb. destruct Hb as [Hb _]. eauto.
Qed.

Lemma plain_no_unit_letter b c :
  existsb (Ascii.eqb c) ["K"; "M"; "G"; "T"]%char = true ->
  all_chars plain_char (b ++ String c "") = false.
Proof.
  intros H. rewrite all_chars_app. cbn [all_chars].
  assert (plain_char c = false) as ->; [|apply andb_false_r].
  destruct c as [[] [] [] [] [] [] [] []]; try reflexivity;
    vm_compute in H; discriminate.
Qed.

(** The unit written at the end is the one that decides. *)
Lemma decisive_unit_written a u m :
  all_chars plain_char a = true -> In (u, m) units ->
  decisive_unit (a ++ u) = Some (u, m).
Proof.
  intros Ha Hu. unfold decisive_unit. rewrite units_by_length_eq.
  destruct (unit_cases u m Hu) as [E|[E|[E|[E|E]]]]; inversion E; subst;
    cbn [List.find fst];
    repeat match goal with
      | |- context [endswith (a ++ ?x) ?x] => rewrite (endswith_app a x)
      | |- context [endswith (a ++ String ?x (String ?y "")) ?v] =>
          let H := fresh "H" in
          destruct (endswith (a ++ String x (String y "")) v) eqn:H;
          [apply endswith_two in H; destruct H; discriminate|]
      | |- context [endswith (a ++ String ?y "") ?v] =>
          let H := fresh "H" in
          destruct (endswith (a ++ String y "") v) eqn:H;
          [apply endswith_one_two in H; destruct H as [b ->];
           rewrite plain_no_unit_letter in Ha by reflexivity; discriminate|]
      end; reflexivity.
Qed.

(** The threshold of a written size string is the numeral read as a float,
    multiplied and truncated. *)
Lemma parse_written op num u m v n :
  written_operator op -> In (u, m) units ->
  all_chars numeral_char num = true ->
  float_of_str (upper num) = Some v ->
  int_of_float (float_mul_int v m) = Ok n ->
  _parse_size_filter (op ++ num ++ u) = Ok (operator_of op, n).
Proof.
  intros Hop Hu Hn Hv Hi. unfold _parse_size_filter.
  rewrite (normalise_written op num u m Hop Hu Hn).
  pose proof (numeral_upper_plain num Hn) as Hp.
  assert (Hrest : exists c r, (upper num ++ u)%string = String c r /\
                              plain_char c = true).
  { destruct (upper num) as [|c r] eqn:E.
    - vm_compute in Hv. discriminate.
    - exists c, (r ++ u)%string. split; [reflexivity|].
      cbn [all_chars] in Hp. apply andb_true_iff in Hp. apply Hp. }
  destruct Hrest as [c [r [Er Hc]]].
  rewrite Er, (split_operator_written op c r Hop Hc), <- Er.
  rewrite unit_loop_find.
  fold (decisive_unit (upper num ++ u)).
  rewrite (decisive_unit_written _ u m Hp Hu), drop_end_app, Hv, Hi.
  reflexivity.
Qed.

Lemma unit_has_letter u m a :
  In (u, m) units_by_length -> all_chars int_char (a ++ u) = false.
Proof.
  rewrite units_by_length_eq, all_chars_app. simpl.
  intros [H|[H|[H|[H|[H|[]]]]]]; inversion H; apply andb_false_r.
Qed.

(** C4 (as stated, refuted).  The threshold is not always the number times
    the multiplier: the number is read as a double, so that an integer that
    no double holds is rounded (2^53 + 1 becomes 2^53), a fraction of a byte
    is cut off, and a numeral beyond the doubles raises [OverflowError]. *)
Lemma parse_size_filter_rounds :
  _parse_size_filter ">9007199254740993B" = Ok (">", 9007199254740992) /\
  _parse_size_filter ">9007199254740993B"
    <> Ok (">", 9007199254740993 * 1024 ^ 0) /\
  _parse_size_filter ">0.1KB" = Ok (">", 102) /\
  _parse_size_filter ">1e999B" = Raise OverflowError.
Proof.
  repeat split; try (vm_compute; reflexivity).
  vm_compute. discriminate.
Qed.

(** C4 (amended).  For a size string made of an optional operator among
    [>], [>=], [<], [<=] (none stands for [>]), a numeral and a unit among
    B, KB, MB, GB, TB: the multiplier of the unit is 1024 to the rank of the
    unit, longer units are tried before shorter ones, and
    - when the numeral is a decimal integer below 2^53, the result is the
      operator with the threshold number times multiplier;
    - in general the result is the operator with the threshold
      [int(float(numeral) * multiplier)]: the numeral rounded to a double,
      multiplied, and truncated toward zero.
    In particular [">1MB"] gives [(">", 1048576)] and ["<=2KB"] gives
    [("<=", 2048)]. *)
Theorem parse_size_filter_unit (op num unit : string) (multiplier : Z) :
  written_operator op -> In (unit, multiplier) units ->
  (exists rank, nth_error units rank = Some (unit, multiplier) /\
                multiplier = 1024 ^ Z.of_nat rank) /\
  List.map fst units_by_length = ["KB"; "MB"; "GB"; "TB"; "B"]%string /\
  (all_chars isdigit num = true -> num <> EmptyString ->
   digits_val num < 2 ^ 53 ->
   _parse_size_filter (op ++ num ++ unit)
   = Ok (operator_of op, digits_val num * multiplier)) /\
  (forall v n,
      all_chars numeral_char num = true ->
      float_of_str (upper num) = Some v ->
      int_of_float (float_mul_int v multiplier) = Ok n ->
      _parse_size_filter (op ++ num ++ unit) = Ok (operator_of op, n)) /\
  _parse_size_filter ">1MB" = Ok (">", 1048576) /\
  _parse_size_filter "<=2KB" = Ok ("<=", 2048).
Proof.
  intros Hop Hu.
  assert (Hrank : exists rank, nth_error units rank = Some (unit, multiplier) /\
                               multiplier = 1024 ^ Z.of_nat rank /\
                               (rank <= 4)%nat).
  { destruct (unit_cases unit multiplier Hu) as [E|[E|[E|[E|E]]]];
      inversion E; subst;
      [exists 0%nat|exists 1%nat|exists 2%nat|exists 3%nat|exists 4%nat];
      repeat split; lia. }
  destruct Hrank as [rank [Hnth [Hm Hr]]].
  split; [eauto|]. split; [reflexivity|].
  split; [|split; [|split; vm_compute; reflexivity]].
  - intros Hd Hne Hlt.
    assert (Hnum : all_chars numeral_char num = true).
    { eapply all_chars_impl; [|exact Hd]. intros c Hc.
      apply (digit_facts c Hc). }
    apply (parse_written op num unit multiplier
             (decimal_to_float false (digits_val num) 0)); auto.
    + rewrite (upper_digits _ Hd). apply float_of_digits; assumption.
    + rewrite Hm. apply int_times_unit_exact; [|lia].
      split; [|exact Hlt]. apply digits_val_acc_nonneg; [exact Hd|lia].
  - intros v n Hn Hv Hi. eapply parse_written; eauto.
Qed.

Lemma parse_size_filter_unit_witness :
  _parse_size_filter (">" ++ "7" ++ "GB") = Ok (">", 7 * 1073741824).
Proof.
  apply (parse_size_filter_unit ">" "7" "GB" 1073741824);
    try (vm_compute; reflexivity); try discriminate.
  - unfold written_operator. simpl. auto.
  - unfold units. simpl. auto 6.
Defined.

(** C5.  For every integer size and every filter, [_matches_size] applies
    the comparison of the filter to the size and the threshold: [>] holds
    exactly when the size is above the threshold, [>=] when it is at least
    the threshold, [<] when it is below, [<=] when it is at most the
    threshold; for any other operator the result is false.  With the filter
    parsed from [">1MB"], 1048577 matches and 1048576 does not. *)
Theorem matches_size_spec (file_size threshold : Z) (op : string) :
  (_matches_size file_size (">", threshold) = true <-> file_size > threshold) /\
  (_matches_size file_size (">=", threshold) = true <-> file_size >= threshold) /\
  (_matches_size file_size ("<", threshold) = true <-> file_size < threshold) /\
  (_matches_size file_size ("<=", threshold) = true <-> file_size <= threshold) /\
  (op <> ">" -> op <> ">=" -> op <> "<" -> op <> "<=" ->
   _matches_size file_size (op, threshold) = false) /\
  (exists f, _parse_size_filter ">1MB" = Ok f /\ f = (">", 1048576) /\
             _matches_size 1048577 f = true /\
             _matches_size 1048576 f = false).
Proof.
  repeat split; unfold _matches_size; cbn [String.eqb Ascii.eqb Bool.eqb];
    try (rewrite ?Z.ltb_lt, ?Z.leb_le; lia).
  - intros H1 H2 H3 H4.
    apply String.eqb_neq in H1, H2, H3, H4.
    rewrite H1, H2, H3, H4. reflexivity.
  - exists (">", 1048576). repeat split; vm_compute; reflexivity.
Qed.

Lemma matches_size_spec_witness :
  _matches_size 10 ("==", 3) = false.
Proof.
  apply (matches_size_spec 10 3 "=="); discriminate.
Defined.

(** C6 (as stated, refuted).  A size string with a minus sign gives a
    negative threshold, without a unit ([int]) and with one ([float]). *)
Lemma parse_size_filter_negative_threshold :
  _parse_size_filter "-5" = Ok (">", -5) /\
  _parse_size_filter ">-1KB" = Ok (">", -1024) /\
  ~ (forall s op t, _parse_size_filter s = Ok (op, t) -> 0 <= t).
Proof.
  assert (H1 : _parse_size_filter "-5" = Ok (">", -5)) by (vm_compute; reflexivity).
  assert (H2 : _parse_size_filter ">-1KB" = Ok (">", -1024))
    by (vm_compute; reflexivity).
  repeat split; auto.
  intros H. specialize (H _ _ _ H1). lia.
Qed.

(** C6 (amended).  For every input string without a minus sign, a filter
    returned by [_parse_size_filter] has a non-negative threshold. *)
Theorem parse_size_filter_threshold_nonneg (s op : string) (t : Z) :
  no_minus s = true -> _parse_size_filter s = Ok (op, t) -> 0 <= t.
Proof.
  intros Hs. unfold _parse_size_filter.
  assert (Hv : no_minus (snd (split_operator (upper (strip s)))) = true).
  { apply no_minus_split_operator, no_minus_upper.
    apply all_chars_strip. exact Hs. }
  destruct (split_operator (upper (strip s))) as [op0 val_str].
  cbn [snd] in Hv.
  destruct (unit_loop units_by_length op0 val_str) as [[op1 t1]| |e] eqn:El.
  - intros H. inversion H. subst.
    eapply unit_loop_nonneg; [|exact Hv|exact El].
    exact unit_multiplier_pos.
  - destruct (int_of_str val_str) as [n|] eqn:En; intros H; inversion H; subst.
    + eapply int_of_str_nonneg; eauto.
    + lia.
  - discriminate.
Qed.

Lemma parse_size_filter_threshold_nonneg_witness : 0 <= 1048576.
Proof.
  apply (parse_size_filter_threshold_nonneg ">1MB" ">" 1048576);
    vm_compute; reflexivity.
Defined.

(** C7.  For every size string of ASCII characters whose number cannot be
    read (such as [">abcMB"]), [_parse_size_filter] does not raise: it
    returns the filter [(">", 0)], which matches every file of positive
    size. *)
Theorem parse_size_filter_unparsable (s : string) :
  is_ascii s = true ->
  number_unparsable s ->
  _parse_size_filter s = Ok (">", 0) /\
  (forall file_size, 0 < file_size -> _matches_size file_size (">", 0) = true).
Proof.
  intros _ H. split.
  - unfold number_unparsable, decisive_unit in H. unfold _parse_size_filter.
    destruct (split_operator (upper (strip s))) as [op val_str].
    rewrite unit_loop_find.
    destruct (List.find _ units_by_length) as [[u m]|] eqn:Ef.
    + rewrite H.
      apply find_some in Ef. destruct Ef as [Hin He]. cbn [fst] in He.
      apply endswith_inv in He. destruct He as [a ->].
      destruct (int_of_str (a ++ u)) as [n|] eqn:En; [|reflexivity].
      apply int_of_str_chars in En.
      rewrite (unit_has_letter u m a Hin) in En. discriminate.
    + rewrite H. reflexivity.
  - intros file_size Hpos. unfold _matches_size. cbn. apply Z.ltb_lt. exact Hpos.
Qed.

Lemma parse_size_filter_unparsable_witness :
  _parse_size_filter ">abcMB" = Ok (">", 0) /\
  (forall file_size, 0 < file_size -> _matches_size file_size (">", 0) = true).
Proof.
  apply (parse_size_filter_unparsable ">abcMB"); vm_compute; reflexivity.
Defined.

End SearchFacts.

(** ** The stable sort *)

Section SortedFacts.
Context {A K : Type}.
Variable key : A -> K.
Variable ltb : K -> K -> bool.
Hypothesis ltb_asym : forall a b, ltb a b = true -> ltb b a = false.
Hypothesis ltb_negtrans :
  forall a b c, ltb a c = true -> ltb a b = true \/ ltb b c = true.

Lemma not_after_trans x y z :
  not_after key ltb x y -> not_after key ltb y z -> not_after key ltb x z.
Proof.
  unfold not_after. intros Hxy Hyz.
  destruct (ltb (key z) (key x)) eqn:E; [|reflexivity].
  destruct (ltb_negtrans _ (key y) _ E) as [H|H]; congruence.
Qed.

Lemma insert_by_perm x l : Permutation (insert_by key ltb x l) (x :: l).
Proof.
  induction l as [|y l IH]; cbn [insert_by]; [reflexivity|].
  destruct (ltb (key y) (key x)); [|reflexivity].
  rewrite IH. apply perm_swap.
Qed.

Lemma sorted_by_perm l : Permutation (sorted_by key ltb l) l.
Proof.
  induction l as [|x l IH]; cbn [sorted_by]; [reflexivity|].
  rewrite insert_by_perm, IH. reflexivity.
Qed.

Lemma insert_by_sorted x l :
  StronglySorted (not_after key ltb) l ->
  StronglySorted (not_after key ltb) (insert_by key ltb x l).
Proof.
  induction l as [|y l IH]; cbn [insert_by]; intros Hs.
  - constructor; constructor.
  - inversion Hs as [|? ? Hl Hy]; subst.
    destruct (ltb (key y) (key x)) eqn:E.
    + constructor; [apply IH, Hl|].
      rewrite Forall_forall. intros z Hz.
      apply (Permutation_in _ (insert_by_perm x l)) in Hz.
      destruct Hz as [<-|Hz].
      * apply ltb_asym, E.
      * rewrite Forall_forall in Hy. apply Hy, Hz.
    + constructor; [exact Hs|].
      constructor; [exact E|].
      rewrite Forall_forall in *. intros z Hz.
      apply (not_after_trans x y z); [exact E|apply Hy, Hz].
Qed.

Lemma sorted_by_sorted l :
  StronglySorted (not_after key ltb) (sorted_by key ltb l).
Proof.
  induction l as [|x l IH]; cbn [sorted_by]; [constructor|].
  apply insert_by_sorted, IH.
Qed.
End SortedFacts.

Lemma Permutation_filter_compat {A} (f : A -> bool) (l l' : list A) :
  Permutation l l' -> Permutation (List.filter f l) (List.filter f l').
Proof.
  induction 1 as [|x l l' _ IH|x y l|l l' l'' _ IH1 _ IH2]; cbn [List.filter].
  - constructor.
  - destruct (f x); [constructor|]; exact IH.
  - destruct (f x), (f y); try reflexivity. apply perm_swap.
  - etransitivity; eassumption.
Qed.

Lemma StronglySorted_filter {A} (R : A -> A -> Prop) (f : A -> bool) l :
  StronglySorted R l -> StronglySorted R (List.filter f l).
Proof.
  induction 1 as [|x l Hs IH Hx]; cbn [List.filter]; [constructor|].
  destruct (f x); [|exact IH].
  constructor; [exact IH|].
  rewrite Forall_forall in *. intros y Hy.
  apply filter_In in Hy. apply Hx, Hy.
Qed.

(** ** The file system *)

Module FSFacts.
Import FS.

Lemma path_eqb_eq p q : path_eqb p q = true <-> p = q.
Proof.
  revert q. induction p as [|a p IH]; intros [|b q]; cbn [path_eqb];
    try (split; [discriminate|discriminate]); [split; reflexivity|].
  rewrite andb_true_iff, String.eqb_eq, IH.
  split; [intros [-> ->]; reflexivity|intros H; inversion H; auto].
Qed.

Lemma path_eqb_refl p : path_eqb p p = true.
Proof. apply path_eqb_eq. reflexivity. Qed.

Lemma assoc_app p s t :
  assoc p (s ++ t) =
  match assoc p s with Some n => Some n | None => assoc p t end.
Proof.
  induction s as [|[q n] s IH]; cbn [assoc app]; [reflexivity|].
  destruct (path_eqb p q); [reflexivity|exact IH].
Qed.

Lemma assoc_In p s n : assoc p s = Some n -> In (p, n) s.
Proof.
  induction s as [|[q m] s IH]; cbn [assoc]; [discriminate|].
  destruct (path_eqb p q) eqn:E.
  - apply path_eqb_eq in E. subst q. intros H. inversion H. left. reflexivity.
  - intros H. right. apply IH, H.
Qed.

Lemma In_assoc p n s : In (p, n) s -> exists m, assoc p s = Some m.
Proof.
  induction s as [|[q m] s IH]; cbn [assoc In]; [contradiction|].
  intros [H|H].
  - inversion H. subst. rewrite path_eqb_refl. eauto.
  - destruct (path_eqb p q); [eauto|apply IH, H].
Qed.

Lemma lookup_app s t p :
  lookup (s ++ t) p =
  match lookup s p with Some n => Some n | None => lookup t p end.
Proof.
  destruct p as [|a p]; [reflexivity|]. cbn [lookup]. apply assoc_app.
Qed.

End FSFacts.

(** ** file_ops.py *)

Module FileOpsFacts.
Import FS PathLib FileOps.

Lemma remove_on_open (s : fs) (p : path) (recursive force : bool) :
  remove_on Os.open_calls rmtree rmdir unlink p recursive force s
  = remove p recursive force s.
Proof.
  unfold remove_on, remove, bind, Os.ask, get_fs, try_except_OSError, ret.
  cbn [Os.path_exists Os.path_is_dir Os.open_calls].
  destruct (exists_ s p); reflexivity.
Qed.

(** C10 (as stated, refuted).  A path that is not there, in a directory that
    the process may not search: [exists()] raises [PermissionError] before
    the [try], and [remove] raises with it instead of returning [force]. *)
Lemma remove_unsearchable :
  exists_ [(["tmp"], Dir)] ["tmp"; "gone"] = false /\
  remove_on (Os.guarded_calls Samples.tmp_closed) rmtree rmdir unlink
            ["tmp"; "gone"] false true [(["tmp"], Dir)]
  = (Raise PermissionError, [(["tmp"], Dir)]) /\
  Raise PermissionError <> Ok true.
Proof.
  split; [reflexivity|]. split; [reflexivity|discriminate].
Qed.

(** C10 (amended).  For every path of which [exists()] says that it is not
    there, [remove] returns the value of [force] and leaves the file system
    as it is: nothing else is asked or done, whatever the removal calls
    would do. *)
Theorem remove_missing (C : Os.Calls) (run_rmtree run_rmdir run_unlink : path -> M unit)
        (s : fs) (p : path) (recursive force : bool) :
  Os.path_exists C s p = Ok false ->
  remove_on C run_rmtree run_rmdir run_unlink p recursive force s = (Ok force, s).
Proof.
  intros H. unfold remove_on, bind, Os.ask. rewrite H. reflexivity.
Qed.

Lemma remove_missing_witness :
  remove_on Os.open_calls rmtree rmdir unlink ["tmp"; "gone"] true false
            [(["tmp"], Dir); (["tmp"; "kept"], File "x")]
  = (Ok false, [(["tmp"], Dir); (["tmp"; "kept"], File "x")]).
Proof.
  apply (remove_missing Os.open_calls rmtree rmdir unlink
           [(["tmp"], Dir); (["tmp"; "kept"], File "x")]
           ["tmp"; "gone"] true false).
  reflexivity.
Defined.

End FileOpsFacts.

(** ** The order of strings and of sort keys *)

Module OrderFacts.
Import PyStr.

Lemma ltb_asym a b : ltb a b = true -> ltb b a = false.
Proof.
  revert b. induction a as [|x a IH]; intros [|y b]; cbn [ltb]; auto.
  destruct (N_of_ascii x <? N_of_ascii y)%N eqn:Exy,
           (N_of_ascii y <? N_of_ascii x)%N eqn:Eyx; auto.
  apply N.ltb_lt in Exy, Eyx. lia.
Qed.

Lemma ltb_negtrans a b c :
  ltb a c = true -> ltb a b = true \/ ltb b c = true.
Proof.
  revert b c. induction a as [|x a IH]; intros [|y b] [|z c]; cbn [ltb]; auto.
  destruct (N_of_ascii x <? N_of_ascii z)%N eqn:Exz,
           (N_of_ascii z <? N_of_ascii x)%N eqn:Ezx,
           (N_of_ascii x <? N_of_ascii y)%N eqn:Exy,
           (N_of_ascii y <? N_of_ascii x)%N eqn:Eyx,
           (N_of_ascii y <? N_of_ascii z)%N eqn:Eyz,
           (N_of_ascii z <? N_of_ascii y)%N eqn:Ezy;
    auto; try discriminate;
    try (rewrite ?N.ltb_lt, ?N.ltb_ge in *; lia).
Qed.

Lemma key_ltb_asym a b :
  DirOps.key_ltb a b = true -> DirOps.key_ltb b a = false.
Proof.
  destruct a as [[] a], b as [[] b]; unfold DirOps.key_ltb; cbn [fst snd];
    auto using ltb_asym.
Qed.

Lemma key_ltb_negtrans a b c :
  DirOps.key_ltb a c = true ->
  DirOps.key_ltb a b = true \/ DirOps.key_ltb b c = true.
Proof.
  destruct a as [[] a], b as [[] b], c as [[] c];
    unfold DirOps.key_ltb; cbn [fst snd];
    auto using ltb_negtrans; discriminate.
Qed.

End OrderFacts.

(** ** dir_ops.py: the listing *)

Module ListingFacts.
Import FS PathLib DirOps FSFacts.

Lemma is_child_spec p q :
  is_child p q = true <-> exists n, q = p ++ [n].
Proof.
  unfold is_child, parent. split.
  - destruct q as [|a q]; [discriminate|].
    intros H. apply path_eqb_eq in H.
    exists (last (a :: q) EmptyString). rewrite <- H.
    apply app_removelast_last. discriminate.
  - intros [n ->]. destruct (p ++ [n]) eqn:E.
    + destruct p; discriminate.
    + rewrite <- E, removelast_last. apply path_eqb_refl.
Qed.

(** [iterdir] gives the immediate children and nothing else. *)
Lemma iterdir_spec s p q :
  In q (FS.iterdir s p) <-> exists n node, q = p ++ [n] /\ In (q, node) s.
Proof.
  unfold FS.iterdir. rewrite in_map_iff. split.
  - intros [[q' node] [E H]]. cbn [fst] in E. subst q'.
    apply filter_In in H. destruct H as [Hin Hc]. cbn [fst] in Hc.
    apply is_child_spec in Hc. destruct Hc as [n ->]. eauto.
  - intros [n [node [E H]]]. exists (q, node). split; [reflexivity|].
    apply filter_In. split; [exact H|]. cbn [fst].
    apply is_child_spec. eauto.
Qed.

(** Sorting the entries that carry their keys is sorting the entries by
    their keys. *)
Lemma sorted_by_keyed {A K} (key : A -> K) (ltb : K -> K -> bool) (l : list A) :
  List.map fst (sorted_by snd ltb (List.map (fun x => (x, key x)) l))
  = sorted_by key ltb l.
Proof.
  assert (Hi : forall x l',
             insert_by snd ltb (x, key x) (List.map (fun x => (x, key x)) l')
             = List.map (fun x => (x, key x)) (insert_by key ltb x l')).
  { intros x l'. induction l' as [|y l' IH]; cbn [insert_by List.map snd];
      [reflexivity|].
    destruct (ltb (key y) (key x)); cbn [List.map]; [rewrite IH|]; reflexivity. }
  assert (Hs : sorted_by snd ltb (List.map (fun x => (x, key x)) l)
               = List.map (fun x => (x, key x)) (sorted_by key ltb l)).
  { induction l as [|x l IH]; cbn [sorted_by List.map]; [reflexivity|].
    rewrite IH. apply Hi. }
  rewrite Hs, List.map_map. cbn [fst]. apply List.map_id.
Qed.

(** Where [is_file()] answers for each entry as the tree has it, the keys
    are those of the tree. *)
Lemma sort_keys_sees C s entries :
  (forall q, In q entries -> Os.path_is_file C s q = Ok (is_file s q)) ->
  sort_keys C s entries = Ok (List.map (fun x => (x, sort_key s x)) entries).
Proof.
  induction entries as [|e entries IH]; intros H; cbn [sort_keys List.map];
    [reflexivity|].
  rewrite (H e (or_introl eq_refl)), IH; [reflexivity|].
  intros q Hq. apply H. right. exact Hq.
Qed.

Lemma sorted_entries_sees P C s p :
  is_dir s p = true ->
  may_list P p = true ->
  (forall q, In q (FS.iterdir s p) -> Os.path_is_file C s q = Ok (is_file s q)) ->
  sorted_entries P C s p
  = Ok (sorted_by (sort_key s) key_ltb (FS.iterdir s p)).
Proof.
  intros Hd Hm H. unfold sorted_entries, iterdir, PathLib.iterdir.
  rewrite Hm. unfold is_dir in Hd.
  destruct (lookup s p) as [[]|]; try discriminate.
  rewrite (sort_keys_sees C s _ H), sorted_by_keyed. reflexivity.
Qed.

Lemma entry_info_name P C s detailed entry i :
  entry_info P C s detailed entry = Ok i -> info_name i = name entry.
Proof.
  unfold entry_info. destruct detailed; [|intros H; injection H as <-; reflexivity].
  destruct (stat P s entry) as [[size mtime]|];
    [|intros H; injection H as <-; reflexivity].
  destruct (format_mtime P mtime) as [m|e].
  - destruct (Os.path_is_dir C s entry) as [d|e].
    + intros H; injection H as <-; reflexivity.
    + destruct (is_OSError e); [|discriminate].
      intros H; injection H as <-; reflexivity.
  - destruct (is_OSError e); [|discriminate].
    intros H; injection H as <-; reflexivity.
Qed.

(** An entry is made where [is_dir()] answers and the time can be put into
    it. *)
Lemma entry_info_returns P C s detailed entry :
  (exists d, Os.path_is_dir C s entry = Ok d) ->
  (detailed = true ->
   forall size mtime, stat P s entry = Some (size, mtime) ->
                      renders P mtime = true) ->
  exists i, entry_info P C s detailed entry = Ok i.
Proof.
  intros [d Hd] Hr. unfold entry_info. destruct detailed; [|eauto].
  destruct (stat P s entry) as [[size mtime]|] eqn:Es; [|eauto].
  specialize (Hr eq_refl size mtime eq_refl). unfold renders in Hr.
  rewrite Hd. destruct (format_mtime P mtime) as [m|e]; [eauto|].
  rewrite Hr. eauto.
Qed.

Lemma listing_loop_names P C s show_hidden detailed entries l :
  listing_loop P C s show_hidden detailed entries = Ok l ->
  List.map info_name l
  = List.map name (List.filter (visible show_hidden) entries).
Proof.
  revert l. induction entries as [|e entries IH]; intros l E;
    cbn [listing_loop] in E.
  - injection E as <-. reflexivity.
  - cbn [List.filter]. unfold visible at 1.
    destruct show_hidden, (PyStr.startswith (name e) ".");
      cbn [negb andb orb] in *; try (apply IH, E);
      destruct (entry_info P C s detailed e) as [i|x] eqn:Ei; try discriminate;
      destruct (listing_loop P C s _ detailed entries) as [rest|x];
      try discriminate; injection E as <-; cbn [List.map];
      rewrite (entry_info_name _ _ _ _ _ _ Ei), (IH rest eq_refl); reflexivity.
Qed.

Lemma listing_loop_returns P C s show_hidden detailed entries :
  (forall q, In q entries -> exists i, entry_info P C s detailed q = Ok i) ->
  exists l, listing_loop P C s show_hidden detailed entries = Ok l.
Proof.
  induction entries as [|e entries IH]; intros H; cbn [listing_loop]; [eauto|].
  destruct IH as [rest Er]; [intros q Hq; apply H; right; exact Hq|].
  destruct (negb show_hidden && PyStr.startswith (name e) "."); [eauto|].
  destruct (H e (or_introl eq_refl)) as [i ->]. rewrite Er. eauto.
Qed.

(** Where the calls on the directory and on its children answer as the tree
    has it and the times can be put into the entries, [list_directory]
    returns the children that are to be shown, sorted. *)
Lemma list_directory_sees P C s p show_hidden detailed :
  is_dir s p = true ->
  Os.sees C s p ->
  may_list P p = true ->
  (forall q, In q (FS.iterdir s p) -> Os.sees C s q) ->
  (detailed = true ->
   forall q size mtime,
     In q (FS.iterdir s p) -> stat P s q = Some (size, mtime) ->
     renders P mtime = true) ->
  exists infos,
    list_directory P C s p show_hidden detailed = Ok infos /\
    List.map info_name infos
    = List.map name
        (List.filter (visible show_hidden)
                     (sorted_by (sort_key s) key_ltb (FS.iterdir s p))).
Proof.
  intros Hd [Hpe [Hpd _]] Hm Hq Hr.
  assert (He : exists_ s p = true).
  { unfold is_dir in Hd. unfold exists_.
    destruct (lookup s p); [reflexivity|discriminate]. }
  unfold list_directory. rewrite Hpe, He, Hpd, Hd.
  rewrite (sorted_entries_sees P C s p Hd Hm)
    by (intros q H; apply (Hq q H)).
  destruct (listing_loop_returns P C s show_hidden detailed
              (sorted_by (sort_key s) key_ltb (FS.iterdir s p))) as [l El].
  { intros q H.
    apply (Permutation_in _ (sorted_by_perm (sort_key s) key_ltb _)) in H.
    apply entry_info_returns.
    - destruct (Hq q H) as [_ [H' _]]. eauto.
    - intros Edet size mtime. apply (Hr Edet q size mtime H). }
  exists l. split; [exact El|]. apply (listing_loop_names _ _ _ _ _ _ _ El).
Qed.

Lemma sorted_split {A} (f : A -> bool) (l : list A) :
  StronglySorted (fun a b => f a = true -> f b = true) l ->
  exists l1 l2, l = l1 ++ l2 /\
                Forall (fun x => f x = false) l1 /\
                Forall (fun x => f x = true) l2.
Proof.
  induction 1 as [|x l Hs IH Hx].
  - exists [], []. repeat split; constructor.
  - destruct (f x) eqn:E.
    + exists [], (x :: l). repeat split; [constructor|].
      constructor; [exact E|].
      rewrite Forall_forall in *. intros y Hy. apply Hx; [exact Hy|reflexivity].
    + destruct IH as [l1 [l2 [-> [H1 H2]]]].
      exists (x :: l1), l2. repeat split; [constructor; assumption|exact H2].
Qed.

Lemma StronglySorted_weaken {A} (R R' : A -> A -> Prop) l :
  (forall a b, R a b -> R' a b) -> StronglySorted R l -> StronglySorted R' l.
Proof.
  intros HR. induction 1 as [|x l Hs IH Hx]; constructor; [exact IH|].
  rewrite Forall_forall in *. intros y Hy. apply HR, Hx, Hy.
Qed.

(** C9 (as stated, refuted).  A directory that exists but may not be listed
    gives the empty list, also when hidden entries are asked for: the hidden
    child [.profile] is left out although [show_hidden] is set. *)
Lemma list_directory_unreadable :
  is_dir Samples.home_tree ["home"] = true /\
  In ["home"; ".profile"] (FS.iterdir Samples.home_tree ["home"]) /\
  list_directory Samples.locked_platform Os.open_calls
                 Samples.home_tree ["home"] true false
  = Ok [].
Proof.
  split; [reflexivity|]. split; [|reflexivity].
  vm_compute. auto.
Qed.

(** C9 (amended).  For every existing directory that may be listed, whose
    children have names of ASCII characters and can be examined ([exists()],
    [is_dir()] and [is_file()] answer for the directory and for each child)
    and, with [detailed], have times that [datetime.fromtimestamp] renders
    or refuses with an [OSError], [list_directory] returns one entry for
    each immediate child that is to be shown and for nothing else; a child
    whose name starts with a dot is shown exactly when [show_hidden] is
    set.  The entries are sorted by the key [(is_file, name.lower())]: no
    entry is followed by one with a smaller key, so that all directories
    come before all files and each group is ordered by lower-cased name. *)
Theorem list_directory_spec (P : Platform) (C : Os.Calls) (s : fs) (p : path)
        (show_hidden detailed : bool) :
  is_dir s p = true ->
  Os.sees C s p ->
  may_list P p = true ->
  (forall q, In q (FS.iterdir s p) ->
             Os.sees C s q /\ PyStr.is_ascii (name q) = true) ->
  (detailed = true ->
   forall q size mtime,
     In q (FS.iterdir s p) -> stat P s q = Some (size, mtime) ->
     renders P mtime = true) ->
  exists entries infos,
    list_directory P C s p show_hidden detailed = Ok infos /\
    List.map info_name infos = List.map name entries /\
    Permutation entries (List.filter (visible show_hidden) (FS.iterdir s p)) /\
    (forall q, In q entries <->
               (exists n node, q = p ++ [n] /\ In (q, node) s) /\
               (show_hidden = true \/ PyStr.startswith (name q) "." = false)) /\
    StronglySorted (not_after (sort_key s) key_ltb) entries /\
    (exists dirs files,
        entries = dirs ++ files /\
        Forall (fun q => is_file s q = false) dirs /\
        Forall (fun q => is_file s q = true) files) /\
    StronglySorted
      (fun a b => is_file s a = is_file s b ->
                  PyStr.ltb (PyStr.lower (name b)) (PyStr.lower (name a)) = false)
      entries.
Proof.
  intros Hd Hsees Hperm_ok Hq Hr.
  set (sorted := sorted_by (sort_key s) key_ltb (FS.iterdir s p)).
  exists (List.filter (visible show_hidden) sorted).
  destruct (list_directory_sees P C s p show_hidden detailed Hd Hsees Hperm_ok)
    as [infos [E Enames]];
    [intros q H; apply (Hq q H)|exact Hr|].
  exists infos.
  assert (Hperm : Permutation (List.filter (visible show_hidden) sorted)
                    (List.filter (visible show_hidden) (FS.iterdir s p))).
  { apply Permutation_filter_compat, sorted_by_perm. }
  assert (Hsort : StronglySorted (not_after (sort_key s) key_ltb)
                    (List.filter (visible show_hidden) sorted)).
  { apply StronglySorted_filter, sorted_by_sorted.
    - exact OrderFacts.key_ltb_asym.
    - exact OrderFacts.key_ltb_negtrans. }
  split; [exact E|]. split; [exact Enames|].
  split; [exact Hperm|]. split.
  { intros q. split.
    - intros Hin. apply (Permutation_in _ Hperm) in Hin.
      apply filter_In in Hin. destruct Hin as [Hin Hv].
      split; [apply iterdir_spec, Hin|].
      unfold visible in Hv. apply orb_true_iff in Hv.
      destruct Hv as [Hv|Hv]; [left; exact Hv|right].
      apply negb_true_iff, Hv.
    - intros [Hin Hv].
      apply (Permutation_in _ (Permutation_sym Hperm)).
      apply filter_In. split; [apply iterdir_spec, Hin|].
      unfold visible. destruct Hv as [Hv|Hv]; rewrite Hv; [reflexivity|].
      apply orb_true_r. }
  split; [exact Hsort|]. split.
  - apply (sorted_split (is_file s)).
    eapply StronglySorted_weaken; [|exact Hsort].
    intros a b. unfold not_after, key_ltb, sort_key. cbn [fst snd].
    destruct (is_file s a), (is_file s b); auto; discriminate.
  - eapply StronglySorted_weaken; [|exact Hsort].
    intros a b. unfold not_after, key_ltb, sort_key. cbn [fst snd].
    destruct (is_file s a), (is_file s b); auto; discriminate.
Qed.

Lemma list_directory_spec_witness :
  exists entries infos,
    list_directory Samples.dated_platform Os.open_calls
                   Samples.home_tree ["home"] false true = Ok infos /\
    List.map info_name infos = List.map name entries /\
    StronglySorted (not_after (sort_key Samples.home_tree) key_ltb) entries.
Proof.
  destruct (list_directory_spec Samples.dated_platform Os.open_calls
              Samples.home_tree ["home"] false true)
    as [entries [infos [H1 [H2 [_ [_ [H3 _]]]]]]].
  - reflexivity.
  - repeat split.
  - reflexivity.
  - intros q Hq. split; [repeat split|].
    vm_compute in Hq.
    repeat (destruct Hq as [<-|Hq]; [reflexivity|]). contradiction.
  - intros _ q size mtime Hq Hs.
    vm_compute in Hq.
    repeat (destruct Hq as [<-|Hq];
            [vm_compute in Hs; injection Hs as <- <-; reflexivity|]).
    contradiction.
  - exists entries, infos. auto.
Defined.

(** The listing of the sample directory, without and with hidden entries,
    and with the details: the time of [notes.txt] is refused with an
    [OSError], which gives the two dashes. *)
Example list_directory_home :
  list_directory Samples.bare_platform Os.open_calls
                 Samples.home_tree ["home"] false false
  = Ok [[("name", "archive")]; [("name", "Work")];
        [("name", "notes.txt")]; [("name", "Zebra.txt")]] /\
  list_directory Samples.bare_platform Os.open_calls
                 Samples.home_tree ["home"] true false
  = Ok [[("name", "archive")]; [("name", "Work")]; [("name", ".profile")];
        [("name", "notes.txt")]; [("name", "Zebra.txt")]] /\
  List.map info_name
    match list_directory Samples.dated_platform Os.open_calls
                         Samples.home_tree ["home"] false true with
    | Ok infos => infos
    | Raise _ => []
    end
  = ["archive"; "Work"; "notes.txt"; "Zebra.txt"].
Proof. repeat split; vm_compute; reflexivity. Qed.

(** A time past the year 9999: [datetime.fromtimestamp] raises
    [ValueError], which the [except (OSError, IOError)] of the loop does not
    catch, and [list_directory] raises with it when [detailed] is set. *)
Example list_directory_year_out_of_range :
  list_directory Samples.far_platform Os.open_calls
                 Samples.home_tree ["home"] false true
  = Raise ValueError /\
  list_directory Samples.far_platform Os.open_calls
                 Samples.home_tree ["home"] false false
  = Ok [[("name", "archive")]; [("name", "Work")];
        [("name", "notes.txt")]; [("name", "Zebra.txt")]].
Proof. split; vm_compute; reflexivity. Qed.

End ListingFacts.

(** ** dir_ops.py: the synchronisation *)

Module SyncFacts.
Import FS PathLib DirOps FSFacts.

(** *** Extending a state by directories *)

Lemma lookup_nonempty s q : q <> [] -> lookup s q = assoc q s.
Proof. destruct q; [contradiction|reflexivity]. Qed.

Lemma lookup_app_some s t p n :
  lookup s p = Some n -> lookup (s ++ t) p = Some n.
Proof. intros H. rewrite lookup_app, H. reflexivity. Qed.

Lemma lookup_app_none s t p :
  lookup (s ++ t) p = None -> lookup s p = None.
Proof. rewrite lookup_app. destruct (lookup s p); [discriminate|reflexivity]. Qed.

Lemma dirs_only_lookup ds p n : dirs_only ds -> lookup ds p = Some n -> n = Dir.
Proof.
  intros Hd. destruct p as [|a p]; cbn [lookup].
  - intros H. inversion H. reflexivity.
  - intros H. apply assoc_In in H. unfold dirs_only in Hd.
    rewrite Forall_forall in Hd. apply (Hd _ H).
Qed.

Lemma dirs_only_app a b : dirs_only a -> dirs_only b -> dirs_only (a ++ b).
Proof. intros Ha Hb. apply Forall_app. split; assumption. Qed.

Lemma file_at_ext s ds p : dirs_only ds -> file_at (s ++ ds) p = file_at s p.
Proof.
  intros Hd. unfold file_at. rewrite lookup_app.
  destruct (lookup s p) as [n|] eqn:E; [reflexivity|].
  destruct (lookup ds p) as [n|] eqn:E'; [|reflexivity].
  rewrite (dirs_only_lookup _ _ _ Hd E'). reflexivity.
Qed.

Lemma is_file_file_at s p : is_file s p = match file_at s p with Some _ => true | None => false end.
Proof. unfold is_file, file_at. destruct (lookup s p) as [[]|]; reflexivity. Qed.

Lemma is_file_ext s ds p : dirs_only ds -> is_file (s ++ ds) p = is_file s p.
Proof. intros Hd. rewrite !is_file_file_at, file_at_ext by exact Hd. reflexivity. Qed.

Lemma is_dir_mono s t p : is_dir s p = true -> is_dir (s ++ t) p = true.
Proof.
  unfold is_dir. destruct (lookup s p) as [[]|] eqn:E; try discriminate.
  rewrite (lookup_app_some _ t _ _ E). reflexivity.
Qed.

Lemma exists_mono s t p : exists_ s p = true -> exists_ (s ++ t) p = true.
Proof.
  unfold exists_. destruct (lookup s p) as [n|] eqn:E; [|discriminate].
  rewrite (lookup_app_some _ t _ _ E). reflexivity.
Qed.

Lemma lookup_key_in s p : p <> [] -> lookup s p <> None -> In p (List.map fst s).
Proof.
  intros Hp H. rewrite (lookup_nonempty _ _ Hp) in H.
  destruct (assoc p s) as [n|] eqn:E; [|contradiction].
  apply assoc_In in E. apply in_map_iff. exists (p, n). auto.
Qed.

(** Whether a path exists after an extension that leaves it out. *)
Lemma exists_ext_other s ds p :
  p <> [] -> ~ In p (List.map fst ds) -> exists_ (s ++ ds) p = exists_ s p.
Proof.
  intros Hp Hn. unfold exists_. rewrite lookup_app.
  destruct (lookup s p) as [n|]; [reflexivity|].
  destruct (lookup ds p) as [n|] eqn:E; [|reflexivity].
  exfalso. apply Hn. apply lookup_key_in; [exact Hp|]. rewrite E. discriminate.
Qed.

Lemma rglob_all_app s t root :
  rglob_all (s ++ t) root = rglob_all s root ++ rglob_all t root.
Proof. unfold rglob_all. rewrite filter_app, map_app. reflexivity. Qed.

Lemma rglob_all_keys s root q : In q (rglob_all s root) -> In q (List.map fst s).
Proof.
  unfold rglob_all. rewrite !in_map_iff. intros [e [E H]].
  apply filter_In in H. exists e. tauto.
Qed.

Lemma rglob_all_under s root q :
  In q (rglob_all s root) -> strictly_under root q = true.
Proof.
  unfold rglob_all. rewrite in_map_iff. intros [e [E H]].
  apply filter_In in H. subst q. apply H.
Qed.

(** *** [mkdir(parents=True, exist_ok=True)] *)

Lemma mkdirs_spec rest :
  forall pre s,
  exists out ds,
    mkdirs pre rest s = (out, s ++ ds) /\ dirs_only ds /\
    (forall q, In q (List.map fst ds) ->
               lookup s q = None /\
               exists a b, rest = a ++ b /\ a <> [] /\ q = pre ++ a) /\
    (out = Ok tt ->
     forall a b, rest = a ++ b -> a <> [] -> is_dir (s ++ ds) (pre ++ a) = true) /\
    (forall e, out = Raise e ->
               (e = FileExistsError \/ e = NotADirectoryError) /\
               exists a b, rest = a ++ b /\ a <> [] /\ is_file s (pre ++ a) = true).
Proof.
  induction rest as [|c rest IH]; intros pre s.
  - exists (Ok tt), []. rewrite app_nil_r.
    refine (conj eq_refl (conj _ (conj _ (conj _ _)))).
    + constructor.
    + intros q [].
    + intros _ a b E Ha. destruct a; [contradiction|discriminate].
    + discriminate.
  - assert (Hq : pre ++ [c] <> []) by (destruct pre; discriminate).
    cbn [mkdirs]. unfold bind at 1. unfold get_fs.
    destruct (lookup s (pre ++ [c])) as [[content|]|] eqn:El.
    + (* a regular file is in the way *)
      exists (Raise (match rest with [] => FileExistsError | _ => NotADirectoryError end)), [].
      rewrite app_nil_r.
      refine (conj eq_refl (conj _ (conj _ (conj _ _)))).
      * constructor.
      * intros q [].
      * discriminate.
      * intros e H. inversion H. split; [destruct rest; auto|].
        exists [c], rest. split; [reflexivity|]. split; [discriminate|].
        unfold is_file. rewrite El. reflexivity.
    + (* the directory is there *)
      destruct (IH (pre ++ [c]) s) as [out [ds [E [Hd [Hk [Hok Hr]]]]]].
      exists out, ds.
      refine (conj E (conj Hd (conj _ (conj _ _)))).
      * intros q H. split; [apply Hk, H|].
        destruct (Hk q H) as [_ [a [b [-> [Ha ->]]]]].
        exists (c :: a), b. rewrite <- app_assoc.
        split; [reflexivity|]. split; [discriminate|reflexivity].
      * intros Ho a b Eab Ha. destruct a as [|x a]; [contradiction|].
        inversion Eab. subst x rest.
        destruct a as [|y a].
        -- apply is_dir_mono. unfold is_dir. rewrite El. reflexivity.
        -- replace (pre ++ c :: y :: a) with ((pre ++ [c]) ++ y :: a)
             by (rewrite <- app_assoc; reflexivity).
           eapply Hok; eauto. discriminate.
      * intros e H. split; [apply (Hr e H)|].
        destruct (Hr e H) as [_ [a [b [-> [Ha Hf]]]]].
        exists (c :: a), b. rewrite <- app_assoc in Hf.
        split; [reflexivity|]. split; [discriminate|exact Hf].
    + (* the directory is created *)
      unfold bind, modify_fs.
      destruct (IH (pre ++ [c]) (s ++ [(pre ++ [c], Dir)]))
        as [out [ds [E [Hd [Hk [Hok Hr]]]]]].
      exists out, ((pre ++ [c], Dir) :: ds).
      assert (Eapp : s ++ (pre ++ [c], Dir) :: ds = (s ++ [(pre ++ [c], Dir)]) ++ ds)
        by (rewrite <- app_assoc; reflexivity).
      rewrite Eapp.
      assert (Hnew : is_dir (s ++ [(pre ++ [c], Dir)]) (pre ++ [c]) = true).
      { unfold is_dir. rewrite lookup_app, El, (lookup_nonempty _ _ Hq).
        cbn [assoc]. rewrite path_eqb_refl. reflexivity. }
      refine (conj E (conj _ (conj _ (conj _ _)))).
      * constructor; [reflexivity|exact Hd].
      * intros q H. cbn [List.map fst In] in H. destruct H as [<-|H].
        -- split; [exact El|].
           exists [c], rest. split; [reflexivity|]. split; [discriminate|reflexivity].
        -- split; [eapply lookup_app_none; apply (Hk q H)|].
           destruct (Hk q H) as [_ [a [b [-> [Ha ->]]]]].
           exists (c :: a), b. rewrite <- app_assoc.
           split; [reflexivity|]. split; [discriminate|reflexivity].
      * intros Ho a b Eab Ha. destruct a as [|x a]; [contradiction|].
        inversion Eab. subst x rest.
        destruct a as [|y a].
        -- apply is_dir_mono. exact Hnew.
        -- replace (pre ++ c :: y :: a) with ((pre ++ [c]) ++ y :: a)
             by (rewrite <- app_assoc; reflexivity).
           eapply Hok; eauto. discriminate.
      * intros e H. split; [apply (Hr e H)|].
        destruct (Hr e H) as [_ [a [b [-> [Ha Hf]]]]].
        exists (c :: a), b. rewrite <- app_assoc in Hf.
        rewrite is_file_ext in Hf by (constructor; [reflexivity|constructor]).
        split; [reflexivity|]. split; [discriminate|exact Hf].
Qed.

(** *** The loops of [sync], one entry at a time *)

Lemma load_global_shutil s :
  load_global "shutil" s = (Raise (NameError "shutil"), s).
Proof. reflexivity. Qed.

Lemma copy_loop_cons src dst dry_run f entries result s :
  copy_loop src dst dry_run (f :: entries) result s =
  if is_file s f then
    match mkdir_parents_exist_ok (parent (counterpart src dst f)) s with
    | (Ok _, s1) =>
        if exists_ s1 (counterpart src dst f)
        then copy_loop src dst dry_run entries (incr_skipped result) s1
        else if dry_run
             then copy_loop src dst dry_run entries (incr_copied result) s1
             else (Raise (NameError "shutil"), s1)
    | (Raise e, s1) => (Raise e, s1)
    end
  else copy_loop src dst dry_run entries result s.
Proof.
  cbn [copy_loop]. unfold bind at 1. unfold get_fs at 1.
  destruct (is_file s f); [|reflexivity].
  unfold bind at 1. fold (counterpart src dst f).
  destruct (mkdir_parents_exist_ok (parent (counterpart src dst f)) s)
    as [[u|e] s1]; [|reflexivity].
  unfold bind at 1. unfold get_fs at 1.
  destruct (exists_ s1 (counterpart src dst f)); [reflexivity|].
  destruct dry_run; reflexivity.
Qed.

Lemma delete_loop_cons src dst dry_run g entries result s :
  delete_loop src dst dry_run (g :: entries) result s =
  if is_file s g then
    if exists_ s (counterpart dst src g)
    then delete_loop src dst dry_run entries result s
    else if dry_run
         then delete_loop src dst dry_run entries (incr_deleted result) s
         else delete_loop src dst dry_run entries (incr_deleted result)
                          (remove_entry g s)
  else delete_loop src dst dry_run entries result s.
Proof.
  cbn [delete_loop]. unfold bind at 1. unfold get_fs at 1.
  destruct (is_file s g) eqn:Ef; [|reflexivity].
  unfold bind at 1. unfold get_fs at 1. fold (counterpart dst src g).
  destruct (exists_ s (counterpart dst src g)); [reflexivity|].
  cbn [negb]. destruct dry_run; cbn [negb]; [reflexivity|].
  unfold bind at 1. unfold unlink.
  unfold is_file in Ef. destruct (lookup s g) as [[c|]|]; try discriminate.
  reflexivity.
Qed.

Lemma filter_none {A} (f : A -> bool) l :
  (forall x, In x l -> f x = false) -> List.filter f l = [].
Proof.
  induction l as [|x l IH]; cbn [List.filter]; intros H; [reflexivity|].
  rewrite (H x) by (left; reflexivity). apply IH.
  intros y Hy. apply H. right. exact Hy.
Qed.

(** *** Paths *)

Lemma is_prefix_app a b : is_prefix a (a ++ b) = true.
Proof.
  induction a as [|x a IH]; cbn [is_prefix app]; [reflexivity|].
  rewrite String.eqb_refl, IH. reflexivity.
Qed.

Lemma is_prefix_inv p q : is_prefix p q = true -> exists t, q = p ++ t.
Proof.
  revert q. induction p as [|x p IH]; intros q H; cbn [is_prefix] in H.
  - exists q. reflexivity.
  - destruct q as [|y q]; [discriminate|].
    apply andb_true_iff in H. destruct H as [H1 H2].
    apply String.eqb_eq in H1. subst y.
    destruct (IH _ H2) as [t ->]. exists t. reflexivity.
Qed.

Lemma strictly_under_inv root q :
  strictly_under root q = true ->
  q = root ++ relative_to q root /\ relative_to q root <> [].
Proof.
  unfold strictly_under, relative_to. intros H.
  apply andb_true_iff in H. destruct H as [H1 H2].
  apply Nat.ltb_lt in H2.
  destruct (is_prefix_inv _ _ H1) as [t ->].
  rewrite skipn_app, skipn_all, Nat.sub_diag. cbn [skipn app].
  split; [reflexivity|].
  intros ->. rewrite app_nil_r in H2. lia.
Qed.

Lemma ancestors_from_In a : forall pre b,
  a <> [] -> b <> [] -> In (pre ++ a) (ancestors_from pre (a ++ b)).
Proof.
  induction a as [|c a IH]; intros pre b Ha Hb; [contradiction|].
  cbn [app ancestors_from].
  destruct (a ++ b) as [|y r] eqn:E.
  - destruct a; [destruct b; [contradiction|discriminate]|discriminate].
  - destruct a as [|x a'].
    + left. reflexivity.
    + right. rewrite <- E.
      replace (pre ++ c :: x :: a') with ((pre ++ [c]) ++ x :: a')
        by (rewrite <- app_assoc; reflexivity).
      apply IH; [discriminate|exact Hb].
Qed.

(** In a tree, what lies above an entry is a directory. *)
Lemma wf_above s q n a b :
  wf s -> In (q, n) s -> q = a ++ b -> a <> [] -> b <> [] -> is_dir s a = true.
Proof.
  unfold wf, wfb. intros Hwf Hin -> Ha Hb.
  rewrite forallb_forall in Hwf. specialize (Hwf _ Hin). cbn [fst] in Hwf.
  rewrite forallb_forall in Hwf. apply Hwf.
  apply (ancestors_from_In a [] b Ha Hb).
Qed.

Lemma is_file_In s f : f <> [] -> is_file s f = true -> exists c, In (f, File c) s.
Proof.
  intros Hf H. unfold is_file in H. rewrite (lookup_nonempty _ _ Hf) in H.
  destruct (assoc f s) as [[c|]|] eqn:E; try discriminate.
  exists c. apply assoc_In, E.
Qed.

Lemma is_file_not_dir s p : is_file s p = true -> is_dir s p = false.
Proof. unfold is_file, is_dir. destruct (lookup s p) as [[]|]; auto; discriminate. Qed.


(** *** The states of a run *)

Section Run.
Variables (s0 : fs) (src dst : path).

Lemma reached_start : reached s0 src dst s0.
Proof.
  exists []. rewrite app_nil_r. split; [reflexivity|].
  split; [constructor|]. intros q [].
Qed.

Lemma reached_file_at s p : reached s0 src dst s -> file_at s p = file_at s0 p.
Proof. intros [D [-> [Hd _]]]. apply file_at_ext, Hd. Qed.

Lemma reached_is_file s p : reached s0 src dst s -> is_file s p = is_file s0 p.
Proof. intros [D [-> [Hd _]]]. apply is_file_ext, Hd. Qed.

Lemma reached_is_dir s p : reached s0 src dst s -> is_dir s0 p = true -> is_dir s p = true.
Proof. intros [D [-> _]]. apply is_dir_mono. Qed.

Lemma reached_exists s p : reached s0 src dst s -> exists_ s0 p = true -> exists_ s p = true.
Proof. intros [D [-> _]]. apply exists_mono. Qed.

(** The walk of a reached s0 src dst state meets the regular files of [s0]. *)
Lemma reached_files_under s root :
  reached s0 src dst s -> files_under s root = files_under s0 root.
Proof.
  intros Hr. pose proof Hr as [D [-> [Hd Hk]]].
  unfold files_under. rewrite rglob_all_app, filter_app.
  assert (E : List.filter (is_file (s0 ++ D)) (rglob_all D root) = []).
  { apply filter_none. intros q Hq.
    rewrite (reached_is_file _ _ Hr).
    apply rglob_all_keys in Hq. destruct (Hk q Hq) as [Hn _].
    unfold is_file. rewrite Hn. reflexivity. }
  rewrite E, app_nil_r. apply filter_ext. intros q.
  apply (reached_is_file _ _ Hr).
Qed.

Lemma created_above_dst a b : dst = a ++ b -> a <> [] -> created s0 src dst a.
Proof.
  intros E Ha. split; [exact Ha|]. left. rewrite E. apply is_prefix_app.
Qed.

Lemma created_above_counterpart f a b :
  is_file s0 f = true -> strictly_under src f = true ->
  parent (counterpart src dst f) = a ++ b -> a <> [] ->
  created s0 src dst a.
Proof.
  intros Hf Hu E Ha. split; [exact Ha|]. right. exists f.
  rewrite E. auto using is_prefix_app.
Qed.

Lemma reached_mkdirs s p out s' :
  reached s0 src dst s ->
  (forall a b, p = a ++ b -> a <> [] -> created s0 src dst a) ->
  mkdir_parents_exist_ok p s = (out, s') ->
  reached s0 src dst s' /\
  (out = Ok tt -> forall a b, p = a ++ b -> a <> [] -> is_dir s' a = true) /\
  (forall e, out = Raise e ->
             (e = FileExistsError \/ e = NotADirectoryError) /\
             exists q, created s0 src dst q /\ is_file s0 q = true).
Proof.
  intros Hr Hc E. unfold mkdir_parents_exist_ok in E.
  destruct (mkdirs_spec p [] s) as [out' [ds [E' [Hd [Hk [Hok Hraise]]]]]].
  rewrite E in E'. inversion E'. subst out' s'.
  destruct Hr as [D [-> [HD HkD]]].
  split; [|split].
  - exists (D ++ ds). rewrite app_assoc. split; [reflexivity|].
    split; [apply dirs_only_app; assumption|].
    intros q Hq. rewrite map_app in Hq. apply in_app_or in Hq.
    destruct Hq as [Hq|Hq]; [apply HkD, Hq|].
    destruct (Hk q Hq) as [Hn [a [b [Ep [Ha ->]]]]]. cbn [app].
    split; [eapply lookup_app_none, Hn|eapply Hc; eauto].
  - intros Ho a b Ep Ha. apply (Hok Ho a b Ep Ha).
  - intros e He. destruct (Hraise e He) as [H1 [a [b [Ep [Ha Hf]]]]].
    split; [exact H1|]. exists a. cbn [app] in Hf.
    split; [eapply Hc; eauto|].
    rewrite is_file_ext in Hf by exact HD. exact Hf.
Qed.

(** In a tree, no created directory is the counterpart of a file. *)
Lemma created_not_counterpart f q :
  wf s0 -> is_file s0 f = true -> strictly_under src f = true ->
  created s0 src dst q -> q <> counterpart src dst f.
Proof.
  intros Hwf Hf Hu [Hq Hc] ->.
  destruct (strictly_under_inv _ _ Hu) as [Ef Hrel].
  unfold counterpart in *.
  destruct Hc as [Hc|[f' [Hf' [Hu' Hc]]]].
  - apply is_prefix_inv in Hc. destruct Hc as [t Ht].
    apply (f_equal (@List.length string)) in Ht.
    rewrite !length_app in Ht.
    destruct (relative_to f src); [contradiction|]. cbn [List.length] in Ht. lia.
  - destruct (strictly_under_inv _ _ Hu') as [Ef' Hrel'].
    unfold parent in Hc. rewrite removelast_app in Hc by exact Hrel'.
    apply is_prefix_inv in Hc. destruct Hc as [t Ht].
    rewrite <- app_assoc in Ht. apply app_inv_head in Ht.
    assert (Ef2 : f' = f ++ (t ++ [last (relative_to f' src) EmptyString])).
    { rewrite Ef' at 1. rewrite Ef at 1.
      rewrite (app_removelast_last EmptyString Hrel') at 1.
      rewrite Ht, <- !app_assoc. reflexivity. }
    assert (Hne : f' <> []).
    { rewrite Ef'. destruct src; [cbn; exact Hrel'|discriminate]. }
    destruct (is_file_In _ _ Hne Hf') as [c Hin].
    assert (Hd : is_dir s0 f = true).
    { apply (wf_above s0 f' (File c) f _ Hwf Hin Ef2).
      - rewrite Ef. destruct src; [cbn; exact Hrel|discriminate].
      - destruct t; discriminate. }
    rewrite (is_file_not_dir _ _ Hf) in Hd. discriminate.
Qed.

Lemma reached_exists_counterpart s f :
  wf s0 -> reached s0 src dst s -> is_file s0 f = true -> strictly_under src f = true ->
  exists_ s (counterpart src dst f) = exists_ s0 (counterpart src dst f).
Proof.
  intros Hwf [D [-> [Hd Hk]]] Hf Hu.
  destruct (strictly_under_inv _ _ Hu) as [_ Hrel].
  apply exists_ext_other.
  - unfold counterpart. destruct dst; [cbn; exact Hrel|discriminate].
  - intros Hin. destruct (Hk _ Hin) as [_ Hc].
    apply (created_not_counterpart f _ Hwf Hf Hu Hc). reflexivity.
Qed.

(** *** The copy loop *)

Lemma settled_mono s X entries :
  dirs_only X -> settled src dst s entries -> settled src dst (s ++ X) entries.
Proof.
  intros HX. unfold settled. apply Forall_impl. intros f H Hf.
  rewrite is_file_ext in Hf by exact HX.
  destruct (H Hf) as [H1 H2]. split.
  - intros a b E Ha. apply is_dir_mono. eapply H1; eauto.
  - apply exists_mono, H2.
Qed.

Lemma copy_loop_reached dry_run entries :
  forall result s out s',
    reached s0 src dst s -> under_src src entries ->
    copy_loop src dst dry_run entries result s = (out, s') ->
    reached s0 src dst s' /\
    (exists X, s' = s ++ X /\ dirs_only X) /\
    (forall r, out = Ok r -> deleted r = deleted result) /\
    (forall e, out = Raise e ->
               (dry_run = false /\ e = NameError "shutil") \/
               ((e = FileExistsError \/ e = NotADirectoryError) /\
                exists q, created s0 src dst q /\ is_file s0 q = true)).
Proof.
  induction entries as [|f entries IH]; intros result s out s' Hr Hu E.
  - cbn in E. inversion E. subst.
    split; [exact Hr|]. split; [exists []; rewrite app_nil_r; split; [reflexivity|constructor]|].
    split; [intros r H; inversion H; reflexivity|discriminate].
  - inversion Hu as [|? ? Hf Hu']. subst.
    rewrite copy_loop_cons in E.
    rewrite (reached_is_file _ f Hr) in E.
    destruct (is_file s0 f) eqn:Ef; [|eapply IH; eauto].
    destruct (mkdir_parents_exist_ok (parent (counterpart src dst f)) s)
      as [[u|e] s1] eqn:Em.
    + destruct (reached_mkdirs s _ _ _ Hr
                  (fun a b => created_above_counterpart f a b Ef Hf) Em) as [Hr1 _].
      assert (HX1 : exists X, s1 = s ++ X /\ dirs_only X).
      { unfold mkdir_parents_exist_ok in Em.
        destruct (mkdirs_spec (parent (counterpart src dst f)) [] s)
          as [o [ds [E' [Hd _]]]].
        rewrite Em in E'. inversion E'. eauto. }
      destruct HX1 as [X1 [-> HX1]].
      assert (Hstep : forall result1,
                 copy_loop src dst dry_run entries result1 (s ++ X1) = (out, s') ->
                 deleted result1 = deleted result ->
                 reached s0 src dst s' /\
                 (exists X, s' = s ++ X /\ dirs_only X) /\
                 (forall r, out = Ok r -> deleted r = deleted result) /\
                 (forall e, out = Raise e ->
                    (dry_run = false /\ e = NameError "shutil") \/
                    ((e = FileExistsError \/ e = NotADirectoryError) /\
                     exists q, created s0 src dst q /\ is_file s0 q = true))).
      { intros result1 E1 Hdel.
        destruct (IH _ _ _ _ Hr1 Hu' E1) as [H1 [[X [-> HX]] [H3 H4]]].
        split; [exact H1|]. split.
        - exists (X1 ++ X). rewrite app_assoc. split; [reflexivity|].
          apply dirs_only_app; assumption.
        - split; [|exact H4]. intros r Hok. rewrite (H3 r Hok). exact Hdel. }
      destruct (exists_ (s ++ X1) (counterpart src dst f)).
      * apply (Hstep _ E). reflexivity.
      * destruct dry_run.
        -- apply (Hstep _ E). reflexivity.
        -- inversion E. subst.
           split; [exact Hr1|]. split; [eauto|].
           split; [discriminate|]. intros e He. inversion He. left. auto.
    + destruct (reached_mkdirs s _ _ _ Hr
                  (fun a b => created_above_counterpart f a b Ef Hf) Em) as [Hr1 [_ Hraise]].
      inversion E. subst.
      split; [exact Hr1|]. split.
      * unfold mkdir_parents_exist_ok in Em.
        destruct (mkdirs_spec (parent (counterpart src dst f)) [] s)
          as [o [ds [E' [Hd _]]]].
        rewrite Em in E'. inversion E'. eauto.
      * split; [discriminate|]. intros e' He. inversion He. subst e'.
        right. apply (Hraise e eq_refl).
Qed.
Lemma count_cons p x l :
  count p (x :: l) = (if p x then 1 else 0) + count p l.
Proof.
  unfold count. cbn [List.filter]. destruct (p x); cbn [List.length]; lia.
Qed.

(** In a tree the counters of the copy loop are those of the files with
    and without a counterpart at the start. *)
Lemma copy_loop_count dry_run entries :
  forall result s r s',
    wf s0 -> reached s0 src dst s -> under_src src entries ->
    copy_loop src dst dry_run entries result s = (Ok r, s') ->
    copied r = copied result
               + count (fun f => is_file s0 f &&
                                 negb (exists_ s0 (counterpart src dst f))) entries /\
    skipped r = skipped result
                + count (fun f => is_file s0 f &&
                                  exists_ s0 (counterpart src dst f)) entries.
Proof.
  intros result s r s' Hwf. revert result s.
  induction entries as [|f entries IH]; intros result s Hr Hu E.
  - cbn in E. inversion E. unfold count. cbn. lia.
  - inversion Hu as [|? ? Hf Hu']. subst.
    rewrite copy_loop_cons in E. rewrite !count_cons.
    rewrite (reached_is_file _ f Hr) in E.
    destruct (is_file s0 f) eqn:Ef; cbn [andb];
      [|destruct (IH _ _ Hr Hu' E); lia].
    destruct (mkdir_parents_exist_ok (parent (counterpart src dst f)) s)
      as [[u|e] s1] eqn:Em; [|discriminate].
    destruct (reached_mkdirs s _ _ _ Hr
                (fun a b => created_above_counterpart f a b Ef Hf) Em)
      as [Hr1 _].
    rewrite (reached_exists_counterpart s1 f Hwf Hr1 Ef Hf) in E.
    destruct (exists_ s0 (counterpart src dst f)); cbn [negb].
    + destruct (IH _ _ Hr1 Hu' E) as [H1 H2]. cbn in H1, H2. lia.
    + destruct dry_run; [|discriminate].
      destruct (IH _ _ Hr1 Hu' E) as [H1 H2]. cbn in H1, H2. lia.
Qed.

(** A run that copies for real and returns has skipped every file. *)
Lemma copy_loop_real entries :
  forall result s r s',
    reached s0 src dst s -> under_src src entries ->
    copy_loop src dst false entries result s = (Ok r, s') ->
    copied r = copied result /\
    skipped r = skipped result + count (is_file s0) entries /\
    settled src dst s' entries.
Proof.
  induction entries as [|f entries IH]; intros result s r s' Hr Hu E.
  - cbn in E. inversion E. unfold count. cbn.
    split; [reflexivity|]. split; [lia|constructor].
  - inversion Hu as [|? ? Hf Hu']. subst.
    rewrite copy_loop_cons in E. rewrite count_cons.
    destruct (copy_loop_reached false _ _ _ _ _ Hr Hu
                ltac:(rewrite copy_loop_cons; exact E)) as [Hr' _].
    rewrite (reached_is_file _ f Hr) in E.
    destruct (is_file s0 f) eqn:Ef.
    2:{ destruct (IH _ _ _ _ Hr Hu' E) as [H1 [H2 H3]].
        split; [exact H1|]. split; [lia|].
        constructor; [|exact H3]. intros Hf'.
        rewrite (reached_is_file _ f Hr'), Ef in Hf'. discriminate. }
    destruct (mkdir_parents_exist_ok (parent (counterpart src dst f)) s)
      as [[u|e] s1] eqn:Em; [|discriminate].
    destruct (reached_mkdirs s _ _ _ Hr
                (fun a b => created_above_counterpart f a b Ef Hf) Em)
      as [Hr1 [Hdirs _]].
    destruct (exists_ s1 (counterpart src dst f)) eqn:Ee; [|discriminate].
    destruct (IH _ _ _ _ Hr1 Hu' E) as [H1 [H2 H3]].
    destruct (copy_loop_reached false _ _ _ _ _ Hr1 Hu' E)
      as [_ [[X [-> HX]] _]].
    cbn in H1, H2.
    split; [exact H1|]. split; [lia|].
    constructor; [|exact H3]. intros _. split.
    + intros a b Ep Ha. apply is_dir_mono.
      destruct u. eapply Hdirs; eauto.
    + apply exists_mono, Ee.
Qed.
End Run.

(** Where every directory is there, nothing is made. *)
Lemma mkdirs_settled p s :
  (forall a b, p = a ++ b -> a <> [] -> is_dir s a = true) ->
  mkdir_parents_exist_ok p s = (Ok tt, s).
Proof.
  intros H. unfold mkdir_parents_exist_ok.
  destruct (mkdirs_spec p [] s) as [out [ds [E [Hd [Hk [_ Hraise]]]]]].
  assert (Hds : ds = []).
  { destruct ds as [|[q n] ds]; [reflexivity|]. exfalso.
    destruct (Hk q) as [Hn [a [b [Ep [Ha ->]]]]]; [left; reflexivity|].
    cbn [app] in Hn. specialize (H a b Ep Ha).
    unfold is_dir in H. rewrite Hn in H. discriminate. }
  subst ds. rewrite app_nil_r in E. rewrite E. f_equal.
  destruct out as [[]|e]; [reflexivity|]. exfalso.
  destruct (Hraise e eq_refl) as [_ [a [b [Ep [Ha Hf]]]]].
  cbn [app] in Hf. specialize (H a b Ep Ha).
  rewrite (is_file_not_dir _ _ Hf) in H. discriminate.
Qed.

(** On a settled state the copy loop skips every file and changes
    nothing. *)
Lemma copy_loop_settled src dst dry_run entries :
  forall result s,
    settled src dst s entries ->
    exists r,
      copy_loop src dst dry_run entries result s = (Ok r, s) /\
      copied r = copied result /\
      skipped r = skipped result + count (is_file s) entries /\
      deleted r = deleted result.
Proof.
  induction entries as [|f entries IH]; intros result s Hs.
  - exists result. unfold count. cbn. repeat split; lia.
  - inversion Hs as [|? ? Hf Hs']. subst.
    rewrite copy_loop_cons, count_cons.
    destruct (is_file s f) eqn:Ef.
    + destruct (Hf eq_refl) as [Hd He].
      rewrite (mkdirs_settled _ _ Hd), He.
      destruct (IH (incr_skipped result) s Hs') as [r [E [H1 [H2 H3]]]].
      exists r. cbn in H1, H2, H3. repeat split; [exact E|lia|lia|lia].
    + destruct (IH result s Hs') as [r [E [H1 [H2 H3]]]].
      exists r. repeat split; [exact E|lia|lia|lia].
Qed.

(** The delete loop of a dry run. *)
Lemma delete_loop_dry src dst entries :
  forall result s,
    exists r,
      delete_loop src dst true entries result s = (Ok r, s) /\
      copied r = copied result /\ skipped r = skipped result /\
      deleted r = deleted result
                  + count (fun g => is_file s g &&
                                    negb (exists_ s (counterpart dst src g))) entries.
Proof.
  induction entries as [|g entries IH]; intros result s.
  - exists result. unfold count. cbn. repeat split; lia.
  - rewrite delete_loop_cons, count_cons.
    destruct (is_file s g); cbn [andb].
    + destruct (exists_ s (counterpart dst src g)); cbn [negb].
      * destruct (IH result s) as [r [E [H1 [H2 H3]]]].
        exists r. repeat split; [exact E|lia|lia|lia].
      * destruct (IH (incr_deleted result) s) as [r [E [H1 [H2 H3]]]].
        exists r. cbn in H1, H2, H3. repeat split; [exact E|lia|lia|lia].
    + destruct (IH result s) as [r [E [H1 [H2 H3]]]].
      exists r. repeat split; [exact E|lia|lia|lia].
Qed.


(** *** The whole of [sync] *)

Lemma sync_unfold src dst delete dry_run s :
  sync src dst delete dry_run s =
  if negb (exists_ s src) || negb (is_dir s src)
  then (Ok (mkSyncResult 0 0 0), s)
  else
    match mkdir_parents_exist_ok dst s with
    | (Ok _, s1) =>
        match copy_loop src dst dry_run (rglob_all s1 src) (mkSyncResult 0 0 0) s1 with
        | (Ok r, s2) =>
            if delete
            then delete_loop src dst dry_run (rglob_all s2 dst) r s2
            else (Ok r, s2)
        | (Raise e, s2) => (Raise e, s2)
        end
    | (Raise e, s1) => (Raise e, s1)
    end.
Proof.
  unfold sync. unfold bind at 1. unfold get_fs at 1.
  destruct (negb (exists_ s src) || negb (is_dir s src)); [reflexivity|].
  unfold bind at 1.
  destruct (mkdir_parents_exist_ok dst s) as [[u|e] s1]; [|reflexivity].
  unfold bind at 1. unfold get_fs at 1.
  unfold bind at 1.
  destruct (copy_loop src dst dry_run (rglob_all s1 src) _ s1) as [[r|e] s2];
    [|reflexivity].
  destruct delete; reflexivity.
Qed.

Lemma under_src_rglob s src : under_src src (rglob_all s src).
Proof.
  unfold under_src. rewrite Forall_forall. intros q. apply rglob_all_under.
Qed.

Lemma filter_andb {A} (f g : A -> bool) l :
  List.filter (fun x => f x && g x) l = List.filter g (List.filter f l).
Proof.
  induction l as [|x l IH]; cbn [List.filter]; [reflexivity|].
  destruct (f x); cbn [andb List.filter]; [|exact IH].
  destruct (g x); rewrite IH; reflexivity.
Qed.

(** Counting over the walk of a reached state is counting over the files of
    the start. *)
Lemma count_reached s0 src dst s root (p : path -> bool) :
  reached s0 src dst s ->
  count (fun f => is_file s0 f && p f) (rglob_all s root)
  = Z.of_nat (List.length (List.filter p (files_under s0 root))).
Proof.
  intros Hr. unfold count. rewrite filter_andb.
  rewrite <- (reached_files_under s0 src dst s root Hr). unfold files_under.
  rewrite (filter_ext _ _ (fun q => reached_is_file s0 src dst s q Hr)).
  reflexivity.
Qed.

Lemma is_dir_exists s p : is_dir s p = true -> exists_ s p = true.
Proof. unfold is_dir, exists_. destruct (lookup s p) as [[]|]; auto. Qed.

(** C2.  For every run of [sync] with [dry_run] set, whether it returns or
    raises, the regular files and their contents are afterwards what they
    were before: none is created, overwritten or removed.  When the source is
    a directory of a tree and the run returns, [copied] is the number of
    source files without a counterpart in the destination and [skipped] the
    number of those with one, and with [delete] set [deleted] is the number
    of destination files whose counterpart in the source is missing (it is
    looked for after the directories of the run were made); the files
    counted as copied are still absent and those counted as deleted are still
    there. *)
Theorem sync_dry_run (s : fs) (src dst : path) (delete : bool)
        (out : result SyncResult) (s' : fs) :
  sync src dst delete true s = (out, s') ->
  (forall p, file_at s' p = file_at s p) /\
  (is_dir s src = false -> out = Ok (mkSyncResult 0 0 0) /\ s' = s) /\
  (forall r,
      out = Ok r -> wf s -> is_dir s src = true ->
      copied r = Z.of_nat (List.length (to_copy s src dst)) /\
      skipped r = Z.of_nat (List.length (already_there s src dst)) /\
      deleted r = (if delete
                   then Z.of_nat (List.length (to_delete s s' src dst))
                   else 0) /\
      Forall (fun f => exists_ s' (counterpart src dst f) = false)
             (to_copy s src dst) /\
      Forall (fun g => is_file s' g = true) (to_delete s s' src dst)).
Proof.
  rewrite sync_unfold. intros E.
  destruct (is_dir s src) eqn:Ed.
  2:{ rewrite orb_true_r in E. inversion E. subst.
      split; [reflexivity|]. split; [auto|]. discriminate. }
  rewrite (is_dir_exists _ _ Ed) in E. cbn [negb orb] in E.
  destruct (mkdir_parents_exist_ok dst s) as [[u|e] s1] eqn:Em.
  2:{ inversion E. subst.
      destruct (reached_mkdirs s src dst s dst _ _ (reached_start s src dst)
                  (created_above_dst s src dst) Em) as [Hr1 _].
      split; [intros p; apply (reached_file_at _ _ _ _ p Hr1)|].
      split; discriminate. }
  destruct (reached_mkdirs s src dst s dst _ _ (reached_start s src dst)
              (created_above_dst s src dst) Em) as [Hr1 _].
  destruct (copy_loop src dst true (rglob_all s1 src) (mkSyncResult 0 0 0) s1)
    as [[r2|e] s2] eqn:Ec.
  2:{ inversion E. subst.
      destruct (copy_loop_reached s src dst true _ _ _ _ _ Hr1
                  (under_src_rglob s1 src) Ec) as [Hr2 _].
      split; [intros p; apply (reached_file_at _ _ _ _ p Hr2)|].
      split; discriminate. }
  destruct (copy_loop_reached s src dst true _ _ _ _ _ Hr1
              (under_src_rglob s1 src) Ec) as [Hr2 [_ [Hdel _]]].
  specialize (Hdel r2 eq_refl). cbn in Hdel.
  assert (Hfinal : s' = s2 /\
                   exists r, out = Ok r /\ copied r = copied r2 /\
                             skipped r = skipped r2 /\
                             deleted r = if delete
                                         then count (fun g => is_file s2 g &&
                                                negb (exists_ s2 (counterpart dst src g)))
                                                (rglob_all s2 dst)
                                         else 0).
  { destruct delete.
    - destruct (delete_loop_dry src dst (rglob_all s2 dst) r2 s2)
        as [r [Edl [H1 [H2 H3]]]].
      rewrite Edl in E. inversion E. subst.
      split; [reflexivity|]. exists r. repeat split; auto. lia.
    - inversion E. subst. split; [reflexivity|]. exists r2. auto. }
  destruct Hfinal as [-> [r [-> [Hc [Hs Hdl]]]]].
  split; [intros p; apply (reached_file_at _ _ _ _ p Hr2)|].
  split; [discriminate|].
  intros r' Hr' Hwf _. inversion Hr'. subst r'.
  destruct (copy_loop_count s src dst true _ _ _ _ _ Hwf Hr1
              (under_src_rglob s1 src) Ec) as [Hcop Hski].
  rewrite (count_reached s src dst s1 src _ Hr1) in Hcop.
  rewrite (count_reached s src dst s1 src _ Hr1) in Hski.
  cbn in Hcop, Hski.
  split; [unfold to_copy; lia|]. split; [unfold already_there; lia|].
  split; [|split].
  - rewrite Hdl. destruct delete; [|reflexivity].
    unfold count. rewrite filter_andb. fold (files_under s2 dst).
    rewrite (reached_files_under s src dst s2 dst Hr2). reflexivity.
  - unfold to_copy. rewrite Forall_forall. intros f Hf.
    apply filter_In in Hf. destruct Hf as [Hf Hn].
    unfold files_under in Hf. apply filter_In in Hf. destruct Hf as [Hf1 Hf2].
    rewrite (reached_exists_counterpart s src dst s2 f Hwf Hr2 Hf2
               (rglob_all_under _ _ _ Hf1)).
    apply negb_true_iff, Hn.
  - unfold to_delete. rewrite Forall_forall. intros g Hg.
    apply filter_In in Hg. destruct Hg as [Hg _].
    unfold files_under in Hg. apply filter_In in Hg.
    rewrite (reached_is_file s src dst s2 g Hr2). apply Hg.
Qed.

Lemma sync_dry_run_witness :
  copied (mkSyncResult 1 1 1)
  = Z.of_nat (List.length (to_copy Samples.sync_tree ["src"] ["dst"])) /\
  deleted (mkSyncResult 1 1 1)
  = Z.of_nat (List.length
                (to_delete Samples.sync_tree
                           (Samples.sync_tree ++ [(["dst"; "sub"], Dir)])
                           ["src"] ["dst"])).
Proof.
  destruct (sync_dry_run Samples.sync_tree ["src"] ["dst"] true
              (Ok (mkSyncResult 1 1 1))
              (Samples.sync_tree ++ [(["dst"; "sub"], Dir)]))
    as [_ [_ H]]; [vm_compute; reflexivity|].
  destruct (H (mkSyncResult 1 1 1)) as [H1 [_ [H3 _]]];
    [reflexivity|vm_compute; reflexivity|reflexivity|].
  split; [exact H1|exact H3].
Defined.




(** C1.  A first run of [sync] that has a file to copy does not return:
    [sync] calls [shutil.copy2], and the module does not import [shutil].
    For a source with one file and no destination the run makes the
    destination directory and raises [NameError] at the copy; the file is
    not copied, and a second run on the resulting state raises in the same
    way: neither run returns a result.  A run returns where nothing has to
    be copied: with the file already in the destination it reports
    [copied = 0] and [skipped = 1]. *)
Theorem sync_first_run_raises :
  to_copy Samples.fresh_tree ["s"] ["d"] = [["s"; "a"]] /\
  sync ["s"] ["d"] false false Samples.fresh_tree
  = (Raise (NameError "shutil"), Samples.fresh_tree ++ [(["d"], Dir)]) /\
  file_at (Samples.fresh_tree ++ [(["d"], Dir)]) ["d"; "a"] = None /\
  sync ["s"] ["d"] false false (Samples.fresh_tree ++ [(["d"], Dir)])
  = (Raise (NameError "shutil"), Samples.fresh_tree ++ [(["d"], Dir)]) /\
  sync ["s"] ["d"] false false Samples.mirrored_tree
  = (Ok (mkSyncResult 0 1 0), Samples.mirrored_tree).
Proof.
  split; [vm_compute; reflexivity|].
  split; [vm_compute; reflexivity|].
  split; [vm_compute; reflexivity|].
  split; vm_compute; reflexivity.
Qed.

End SyncFacts.

(** ** search.py: the text search *)

Module TextSearchFacts.
Import FS TextSearch.

Lemma In_scan_lines found fp lines :
  forall n m,
    In m (scan_lines found fp n lines) <->
    file m = fp /\
    exists i, nth_error lines i = Some (content m) /\
              line m = n + Z.of_nat i /\ found (content m) = true.
Proof.
  induction lines as [|l lines IH]; intros n m; cbn [scan_lines].
  - split; [contradiction|]. intros [_ [i [H _]]]. destruct i; discriminate.
  - rewrite in_app_iff, IH. split.
    + intros [H|[Hf [i [Hn [Hl Hm]]]]].
      * destruct (found l) eqn:Efound; [|contradiction].
        destruct H as [<-|[]]. cbn [file content line].
        split; [reflexivity|]. exists 0%nat. cbn [nth_error].
        repeat split; [lia|exact Efound].
      * split; [exact Hf|]. exists (S i). cbn [nth_error].
        repeat split; [exact Hn|lia|exact Hm].
    + intros [Hf [[|i] [Hn [Hl Hm]]]]; cbn [nth_error] in Hn.
      * left. injection Hn as ->. rewrite Hm. left.
        destruct m as [f ln c]. cbn [file content line] in *. subst.
        f_equal. lia.
      * right. split; [exact Hf|]. exists i.
        repeat split; [exact Hn|lia|exact Hm].
Qed.

(** The loop over the files returns when [is_file()] answers for each. *)
Lemma scan_files_returns L found s exclude files :
  examinable L s files ->
  exists ms, scan_files L found s exclude files = Ok ms.
Proof.
  induction 1 as [|fp files [b Hb] _ [rest IH]]; cbn [scan_files]; [eauto|].
  rewrite Hb, IH. destruct b; [|eauto].
  destruct (excluded L exclude fp); eauto.
Qed.

(** What the loop over the files returns: the lines tested in which the
    pattern is found. *)
Lemma In_scan_files L found s exclude files :
  forall ms m,
    scan_files L found s exclude files = Ok ms ->
    (In m ms <->
     scanned L s exclude files m /\ found (content m) = true).
Proof.
  unfold scanned.
  induction files as [|fp files IH]; intros ms m E; cbn [scan_files In] in *.
  - injection E as <-. split; [contradiction|]. intros [[[] _] _].
  - destruct (path_is_file L s fp) as [[]|e] eqn:Ef; [| |discriminate].
    + destruct (excluded L exclude fp) eqn:Ex.
      * rewrite (IH ms m E). split; [tauto|].
        intros [[[H|H] [H1 [H2 H3]]] H4]; [|tauto].
        rewrite <- H, Ex in H2. discriminate.
      * destruct (scan_files L found s exclude files) as [rest|e];
          [|discriminate].
        injection E as <-. rewrite in_app_iff, In_scan_lines, (IH rest m eq_refl).
        split.
        -- intros [[H [i [Hn [Hl Hm]]]]|H]; [|tauto].
           rewrite H. split; [|exact Hm].
           split; [left; reflexivity|]. split; [exact Ef|].
           split; [exact Ex|]. exists i. auto.
        -- intros [[[H|H] [H1 [H2 [i [H3 H4]]]]] H5].
           ++ left. split; [symmetry; exact H|]. exists i.
              rewrite H. auto.
           ++ right. split; [|exact H5]. split; [exact H|].
              split; [exact H1|]. split; [exact H2|]. exists i. auto.
    + rewrite (IH ms m E). split; [tauto|].
      intros [[[H|H] [H1 H2]] H4]; [|tauto].
      rewrite <- H, Ef in H1. discriminate.
Qed.




Lemma literal_examinable s files : examinable LiteralRe.libs s files.
Proof.
  unfold examinable. apply Forall_forall. intros f _. cbn. eauto.
Qed.


(** The search for the text of an unclosed bracket finds the line that
    holds it, in whatever case. *)
Example search_text_bracket :
  search_text LiteralRe.libs Samples.notes_tree "[need" ["docs"] "notes.txt" None
  = Ok [mkMatch ["docs"; "notes.txt"] 1
                ("see [Need] here" ++ String "010"%char EmptyString)].
Proof. vm_compute. reflexivity. Qed.

End TextSearchFacts.

(** * Further properties of the code *)

(** ** search.py: more on the size filter *)

Module SizeFilterMore.
Import PyStr PyStrFacts PyNum PyNumFacts Search SearchFacts.

Lemma digit_plain c : isdigit c = true -> plain_char c = true.
Proof.
  intros H. destruct (digit_facts c H) as [_ [_ [Hu [_ [_ [_ Hn]]]]]].
  rewrite <- Hu. apply numeral_char_plain, Hn.
Qed.

Lemma int_digits_digits ds :
  all_chars isdigit ds = true -> ds <> EmptyString -> int_digits ds = Some ds.
Proof.
  induction ds as [|c ds IH]; intros H Hne; [contradiction|].
  cbn [all_chars] in H. apply andb_true_iff in H. destruct H as [Hc Hs].
  cbn [int_digits]. rewrite Hc.
  destruct ds as [|d ds']; [reflexivity|].
  assert (Hd : isdigit d = true).
  { cbn [all_chars] in Hs. apply andb_true_iff in Hs. apply Hs. }
  assert (E : int_digits (String d ds') = Some (String d ds'))
    by (apply IH; [exact Hs|discriminate]).
  destruct (digit_facts d Hd) as [_ [Hu _]].
  destruct d as [[] [] [] [] [] [] [] []];
    try (vm_compute in Hu; discriminate); rewrite E; reflexivity.
Qed.

Lemma int_of_digits ds :
  all_chars isdigit ds = true -> ds <> EmptyString ->
  (String.length ds <= int_max_str_digits)%nat ->
  int_of_str ds = Some (digits_val ds).
Proof.
  intros H Hne Hlen. unfold int_of_str.
  rewrite strip_by_none.
  2:{ eapply all_chars_impl; [|exact H]. intros c Hc.
      destruct (digit_facts c Hc) as [-> _]. reflexivity. }
  destruct ds as [|c ds]; [contradiction|].
  pose proof H as H'. cbn [all_chars] in H'. apply andb_true_iff in H'.
  destruct H' as [Hc _].
  destruct (digit_facts c Hc) as [_ [_ [_ [_ [_ [Hts _]]]]]].
  rewrite Hts, (int_digits_digits _ H) by discriminate.
  apply Nat.leb_le in Hlen. rewrite Nat.ltb_antisym, Hlen. reflexivity.
Qed.

Lemma no_unit_on_digits ds :
  all_chars isdigit ds = true -> decisive_unit ds = None.
Proof.
  intros H. unfold decisive_unit.
  destruct (List.find _ units_by_length) as [[u m]|] eqn:E; [|reflexivity].
  exfalso. apply find_some in E. destruct E as [Hin He]. cbn [fst] in He.
  apply endswith_inv in He. destruct He as [a ->].
  rewrite all_chars_app in H.
  assert (Hu : all_chars isdigit u = false).
  { rewrite units_by_length_eq in Hin. simpl in Hin.
    destruct Hin as [E|[E|[E|[E|[E|[]]]]]]; inversion E; reflexivity. }
  rewrite Hu, andb_false_r in H. discriminate.
Qed.

(** X1.  Without a unit the number is read by [int]: a decimal integer of up to
    4300 digits is the threshold as it stands, with no rounding. *)
Theorem parse_size_filter_plain_integer (op ds : string) :
  written_operator op ->
  all_chars isdigit ds = true -> ds <> EmptyString ->
  (String.length ds <= int_max_str_digits)%nat ->
  _parse_size_filter (op ++ ds) = Ok (operator_of op, digits_val ds).
Proof.
  intros Hop Hd Hne Hlen. unfold _parse_size_filter.
  assert (Hnorm : upper (strip (op ++ ds)) = (op ++ ds)%string).
  { assert (Hop' : all_chars (fun c => negb (isspace c)) op = true /\ upper op = op).
    { unfold written_operator in Hop. simpl in Hop.
      destruct Hop as [<-|[<-|[<-|[<-|[<-|[]]]]]]; split; reflexivity. }
    destruct Hop' as [Ho1 Ho2].
    unfold strip. rewrite strip_by_none.
    - unfold upper in *. rewrite map_app, Ho2. fold (upper ds).
      rewrite (upper_digits _ Hd). reflexivity.
    - rewrite all_chars_app, Ho1. cbn [andb].
      eapply all_chars_impl; [|exact Hd]. intros c Hc.
      apply numeral_char_not_space. apply (digit_facts c Hc). }
  rewrite Hnorm.
  destruct ds as [|c r]; [contradiction|].
  assert (Hc : plain_char c = true).
  { apply digit_plain. cbn [all_chars] in Hd. apply andb_true_iff in Hd. apply Hd. }
  rewrite (split_operator_written op c r Hop Hc), unit_loop_find.
  fold (decisive_unit (String c r)).
  rewrite (no_unit_on_digits _ Hd), (int_of_digits _ Hd Hne Hlen). reflexivity.
Qed.

Lemma parse_size_filter_plain_integer_witness :
  _parse_size_filter ("<" ++ "9007199254740993") = Ok ("<", 9007199254740993).
Proof.
  apply (parse_size_filter_plain_integer "<" "9007199254740993").
  - unfold written_operator. simpl. auto.
  - reflexivity.
  - discriminate.
  - unfold int_max_str_digits. simpl. lia.
Defined.

Lemma size_filter_exception (s : string) (e : exn) :
  _parse_size_filter s = Raise e -> e = OverflowError.
Proof.
  unfold _parse_size_filter.
  destruct (split_operator (upper (strip s))) as [op val_str].
  rewrite unit_loop_find.
  destruct (List.find _ units_by_length) as [[u m]|].
  - destruct (float_of_str _) as [v|].
    + destruct (int_of_float (float_mul_int v m)) as [n|e'] eqn:E.
      * discriminate.
      * destruct (float_mul_int v m); cbn [int_of_float] in E;
          try discriminate E; injection E as <-.
        -- intros H. injection H as <-. reflexivity.
        -- destruct (int_of_str val_str); discriminate.
    + destruct (int_of_str val_str); discriminate.
  - destruct (int_of_str val_str); discriminate.
Qed.

(** X2.  On a size string of ASCII characters [_parse_size_filter] raises
    exactly when a unit ends the string, [float] reads what precedes the
    unit, and the product with the multiplier is infinite; the exception is
    [OverflowError], raised by [int].  Every [ValueError] is caught. *)
Theorem parse_size_filter_raises_overflow_only (s : string) (e : exn) :
  is_ascii s = true ->
  _parse_size_filter s = Raise e <->
  e = OverflowError /\
  exists u m v b,
    decisive_unit (snd (split_operator (upper (strip s)))) = Some (u, m) /\
    float_of_str (drop_end (String.length u)
                           (snd (split_operator (upper (strip s))))) = Some v /\
    float_mul_int v m = S754_infinity b.
Proof.
  intros _.
  unfold _parse_size_filter, decisive_unit.
  destruct (split_operator (upper (strip s))) as [op val_str]. cbn [snd].
  rewrite unit_loop_find.
  destruct (List.find _ units_by_length) as [[u m]|].
  - destruct (float_of_str (drop_end (String.length u) val_str)) as [v|] eqn:Ev.
    + destruct (float_mul_int v m) as [b|b| |b mant ex] eqn:Em;
        cbn [int_of_float].
      * split; [discriminate|].
        intros [_ [u' [m' [v' [b' [H1 [H2 H3]]]]]]].
        injection H1 as <- <-. rewrite Ev in H2. injection H2 as <-.
        rewrite Em in H3. discriminate.
      * split.
        -- intros H. injection H as <-. split; [reflexivity|].
           exists u, m, v, b. auto.
        -- intros [-> _]. reflexivity.
      * split; [destruct (int_of_str val_str); discriminate|].
        intros [_ [u' [m' [v' [b' [H1 [H2 H3]]]]]]].
        injection H1 as <- <-. rewrite Ev in H2. injection H2 as <-.
        rewrite Em in H3. discriminate.
      * split; [discriminate|].
        intros [_ [u' [m' [v' [b' [H1 [H2 H3]]]]]]].
        injection H1 as <- <-. rewrite Ev in H2. injection H2 as <-.
        rewrite Em in H3. discriminate.
    + split; [destruct (int_of_str val_str); discriminate|].
      intros [_ [u' [m' [v' [b' [H1 [H2 H3]]]]]]].
      injection H1 as <- <-. rewrite Ev in H2. discriminate.
  - split; [destruct (int_of_str val_str); discriminate|].
    intros [_ [u' [m' [v' [b' [H1 _]]]]]]. discriminate.
Qed.

Lemma parse_size_filter_raises_overflow_only_witness :
  _parse_size_filter ">1e999B" = Raise OverflowError.
Proof.
  apply (parse_size_filter_raises_overflow_only ">1e999B" OverflowError);
    [reflexivity|].
  split; [reflexivity|].
  exists "B", 1, (S754_infinity false), false.
  split; [vm_compute; reflexivity|]. split; vm_compute; reflexivity.
Defined.

Lemma lstrip_map sp f s :
  (forall c, sp (f c) = sp c) ->
  lstrip_by sp (map f s) = map f (lstrip_by sp s).
Proof.
  intros H. induction s as [|c s IH]; cbn [map lstrip_by]; [reflexivity|].
  rewrite H. destruct (sp c); [exact IH|reflexivity].
Qed.

Lemma rstrip_map sp f s :
  (forall c, sp (f c) = sp c) ->
  rstrip_by sp (map f s) = map f (rstrip_by sp s).
Proof.
  intros H. induction s as [|c s IH]; cbn [map rstrip_by]; [reflexivity|].
  rewrite IH, H. destruct (rstrip_by sp s); cbn [map]; [|reflexivity].
  destruct (sp c); reflexivity.
Qed.

Lemma strip_map sp f s :
  (forall c, sp (f c) = sp c) ->
  strip_by sp (map f s) = map f (strip_by sp s).
Proof.
  intros H. unfold strip_by. rewrite lstrip_map, rstrip_map by exact H.
  reflexivity.
Qed.

Lemma map_map f g s : map f (map g s) = map (fun c => f (g c)) s.
Proof.
  induction s as [|c s IH]; cbn [map]; [reflexivity|]. rewrite IH. reflexivity.
Qed.

Lemma map_ext f g s : (forall c, f c = g c) -> map f s = map g s.
Proof.
  intros H. induction s as [|c s IH]; cbn [map]; [reflexivity|].
  rewrite H, IH. reflexivity.
Qed.

Lemma case_facts c :
  isspace (upper_char c) = isspace c /\ isspace (lower_char c) = isspace c /\
  upper_char (upper_char c) = upper_char c /\
  upper_char (lower_char c) = upper_char c.
Proof. destruct c as [[] [] [] [] [] [] [] []]; repeat split; reflexivity. Qed.

Lemma lstrip_blank_prefix sp pre s :
  all_chars sp pre = true -> lstrip_by sp (pre ++ s) = lstrip_by sp s.
Proof.
  induction pre as [|c pre IH]; cbn [all_chars append lstrip_by]; [reflexivity|].
  intros H. apply andb_true_iff in H. destruct H as [-> H]. apply IH, H.
Qed.

Lemma rstrip_blank sp post : all_chars sp post = true -> rstrip_by sp post = "".
Proof.
  induction post as [|c post IH]; cbn [all_chars rstrip_by]; [reflexivity|].
  intros H. apply andb_true_iff in H. destruct H as [Hc H].
  rewrite (IH H), Hc. reflexivity.
Qed.

Lemma rstrip_blank_suffix sp post s :
  all_chars sp post = true -> rstrip_by sp (s ++ post) = rstrip_by sp s.
Proof.
  intros H. induction s as [|c s IH]; cbn [append rstrip_by].
  - apply rstrip_blank, H.
  - rewrite IH. reflexivity.
Qed.

Lemma strip_blank_around sp pre post s :
  all_chars sp pre = true -> all_chars sp post = true ->
  strip_by sp (pre ++ s ++ post) = strip_by sp s.
Proof.
  intros Hpre Hpost. unfold strip_by. rewrite (lstrip_blank_prefix _ _ _ Hpre).
  induction s as [|c s IH]; cbn [append lstrip_by].
  - rewrite (rstrip_blank sp (lstrip_by sp post)); [reflexivity|].
    apply all_chars_lstrip, Hpost.
  - destruct (sp c); [exact IH|].
    apply (rstrip_blank_suffix sp post (String c s) Hpost).
Qed.

(** X3.  A size string of ASCII characters is read without regard to the
    case of its letters and to blanks around it. *)
Theorem parse_size_filter_case_and_blanks (s pre post : string) :
  is_ascii s = true ->
  all_chars isspace pre = true -> all_chars isspace post = true ->
  _parse_size_filter (pre ++ lower s ++ post) = _parse_size_filter s /\
  _parse_size_filter (pre ++ upper s ++ post) = _parse_size_filter s.
Proof.
  intros _ Hpre Hpost.
  assert (Hl : upper (strip (pre ++ lower s ++ post)) = upper (strip s)).
  { unfold strip. rewrite (strip_blank_around _ _ _ _ Hpre Hpost).
    unfold lower, upper. rewrite strip_map by (intros c; apply case_facts).
    rewrite map_map. apply map_ext. intros c. apply case_facts. }
  assert (Hu : upper (strip (pre ++ upper s ++ post)) = upper (strip s)).
  { unfold strip. rewrite (strip_blank_around _ _ _ _ Hpre Hpost).
    unfold upper. rewrite strip_map by (intros c; apply case_facts).
    rewrite map_map. apply map_ext. intros c. apply case_facts. }
  unfold _parse_size_filter. rewrite Hl, Hu. split; reflexivity.
Qed.

Lemma parse_size_filter_case_and_blanks_witness :
  _parse_size_filter ("  " ++ lower ">1.5Mb" ++ " ") = _parse_size_filter ">1.5Mb".
Proof.
  apply (parse_size_filter_case_and_blanks ">1.5Mb" "  " " "); reflexivity.
Defined.

End SizeFilterMore.

(** ** Trees *)

Module TreeFacts.
Import FS PathLib DirOps FSFacts SyncFacts.

Lemma ancestors_from_inv rest :
  forall pre q,
    In q (ancestors_from pre rest) ->
    exists a b, rest = a ++ b /\ a <> [] /\ b <> [] /\ q = pre ++ a.
Proof.
  induction rest as [|c rest IH]; intros pre q Hin; [contradiction|].
  cbn [ancestors_from] in Hin. destruct rest as [|y rest]; [contradiction|].
  destruct Hin as [<-|Hin].
  - exists [c], (y :: rest). repeat split; discriminate.
  - destruct (IH _ _ Hin) as [a [b [E [Ha [Hb ->]]]]].
    exists (c :: a), b. rewrite E, <- app_assoc.
    repeat split; [discriminate|exact Hb].
Qed.

Lemma wf_intro s :
  (forall q n a b, In (q, n) s -> q = a ++ b -> a <> [] -> b <> [] ->
                   is_dir s a = true) ->
  wf s.
Proof.
  intros H. unfold wf, wfb. apply forallb_forall. intros [q n] Hin.
  apply forallb_forall. intros a Ha. cbn [fst] in Ha.
  destruct (ancestors_from_inv _ _ _ Ha) as [a' [b [E [Ha' [Hb ->]]]]].
  cbn [app]. apply (H q n a' b Hin E Ha' Hb).
Qed.

(** New entries whose ancestors are directories keep a tree a tree. *)
Lemma wf_app s t :
  wf s ->
  (forall q n a b, In (q, n) t -> q = a ++ b -> a <> [] -> b <> [] ->
                   is_dir (s ++ t) a = true) ->
  wf (s ++ t).
Proof.
  intros Hwf Ht. apply wf_intro. intros q n a b Hin E Ha Hb.
  apply in_app_or in Hin. destruct Hin as [Hin|Hin].
  - apply is_dir_mono. apply (wf_above s q n a b Hwf Hin E Ha Hb).
  - apply (Ht q n a b Hin E Ha Hb).
Qed.

Lemma lookup_In s p n : p <> [] -> lookup s p = Some n -> In (p, n) s.
Proof.
  intros Hp H. rewrite (lookup_nonempty _ _ Hp) in H. apply assoc_In, H.
Qed.

(** In a tree, all above something that is there are directories. *)
Lemma wf_above_lookup s q a b :
  wf s -> exists_ s q = true -> q = a ++ b -> a <> [] -> b <> [] ->
  is_dir s a = true.
Proof.
  intros Hwf He E Ha Hb. unfold exists_ in He.
  destruct (lookup s q) as [n|] eqn:El; [|discriminate].
  apply (wf_above s q n a b Hwf); [|exact E|exact Ha|exact Hb].
  apply lookup_In; [|exact El]. subst q. destruct a; [contradiction|discriminate].
Qed.

Lemma wf_prefixes s q :
  wf s -> is_dir s q = true ->
  forall a b, q = a ++ b -> a <> [] -> is_dir s a = true.
Proof.
  intros Hwf Hd a b E Ha. destruct b as [|x b].
  - rewrite app_nil_r in E. subst a. exact Hd.
  - apply (wf_above_lookup s q a (x :: b) Hwf (is_dir_exists _ _ Hd) E Ha).
    discriminate.
Qed.

Lemma parent_app a x t : parent (a ++ x :: t) = a ++ parent (x :: t).
Proof. unfold parent. apply removelast_app. discriminate. Qed.

Lemma parent_name p : p <> [] -> p = parent p ++ [name p].
Proof. intros Hp. unfold parent, name. apply app_removelast_last, Hp. Qed.

(** The prefixes of a path are those of its parent, and the path. *)
Lemma prefix_of_parent p a b :
  p = a ++ b -> b <> [] -> exists b', parent p = a ++ b'.
Proof.
  intros -> Hb. destruct b as [|x t]; [contradiction|].
  rewrite parent_app. eauto.
Qed.

Lemma key_exists s q : In q (List.map fst s) -> exists_ s q = true.
Proof.
  intros H. unfold exists_. destruct q as [|c q]; [reflexivity|].
  cbn [lookup]. apply in_map_iff in H. destruct H as [[q' n] [E H]].
  cbn [fst] in E. subst q'. destruct (In_assoc _ _ _ H) as [m ->]. reflexivity.
Qed.

Lemma is_prefix_below p a b : is_prefix p a = true -> is_prefix p (a ++ b) = true.
Proof.
  intros H. destruct (is_prefix_inv _ _ H) as [t ->].
  rewrite <- app_assoc. apply is_prefix_app.
Qed.

(** What is left of a tree when all at and below a path has gone is a
    tree. *)
Lemma wf_without s s' p :
  wf s ->
  (forall e, In e s' -> In e s) ->
  (forall q, is_prefix p q = true -> exists_ s' q = false) ->
  (forall q, is_prefix p q = false -> lookup s' q = lookup s q) ->
  wf s'.
Proof.
  intros Hwf Hsub Hgone Hkept. apply wf_intro. intros q n a b Hin E Ha Hb.
  pose proof (wf_above s q n a b Hwf (Hsub _ Hin) E Ha Hb) as Hd.
  destruct (is_prefix p a) eqn:Ep.
  - exfalso. assert (Hq : is_prefix p q = true)
      by (rewrite E; apply is_prefix_below, Ep).
    specialize (Hgone q Hq). rewrite (key_exists s' q) in Hgone;
      [discriminate|].
    apply in_map_iff. exists (q, n). auto.
  - unfold is_dir. rewrite (Hkept a Ep). exact Hd.
Qed.

(** When [mkdir(parents=True, exist_ok=True)] raises, a regular file lies on
    the way, and what was made before lies above that file. *)
Lemma mkdirs_raise rest :
  forall pre s e s',
    mkdirs pre rest s = (Raise e, s') ->
    exists a b ds,
      rest = a ++ b /\ a <> [] /\ is_file s (pre ++ a) = true /\
      s' = s ++ ds /\
      forall q, In q (List.map fst ds) ->
                lookup s q = None /\
                exists a1 a2, a = a1 ++ a2 /\ a1 <> [] /\ a2 <> [] /\ q = pre ++ a1.
Proof.
  induction rest as [|c rest IH]; intros pre s e s' E.
  - cbn in E. discriminate.
  - assert (Hq : pre ++ [c] <> []) by (destruct pre; discriminate).
    cbn [mkdirs] in E. unfold bind at 1 in E. unfold get_fs in E.
    destruct (lookup s (pre ++ [c])) as [[content|]|] eqn:El.
    + unfold raise in E. injection E as _ <-.
      exists [c], rest, []. rewrite app_nil_r.
      split; [reflexivity|]. split; [discriminate|].
      split; [unfold is_file; rewrite El; reflexivity|].
      split; [reflexivity|]. intros q [].
    + destruct (IH _ _ _ _ E) as [a [b [ds [-> [Ha [Hf [-> Hk]]]]]]].
      exists (c :: a), b, ds. rewrite <- app_assoc in Hf.
      split; [reflexivity|]. split; [discriminate|].
      split; [exact Hf|]. split; [reflexivity|].
      intros q Hin. destruct (Hk q Hin) as [Hn [a1 [a2 [-> [H1 [H2 ->]]]]]].
      split; [exact Hn|]. exists (c :: a1), a2. rewrite <- app_assoc.
      split; [reflexivity|]. split; [discriminate|]. split; [exact H2|reflexivity].
    + unfold bind, modify_fs in E.
      destruct (IH _ _ _ _ E) as [a [b [ds [-> [Ha [Hf [-> Hk]]]]]]].
      exists (c :: a), b, ((pre ++ [c], Dir) :: ds).
      rewrite <- app_assoc in Hf.
      rewrite is_file_ext in Hf by (constructor; [reflexivity|constructor]).
      split; [reflexivity|]. split; [discriminate|].
      split; [exact Hf|]. split; [rewrite <- app_assoc; reflexivity|].
      intros q Hin. cbn [List.map fst In] in Hin. destruct Hin as [<-|Hin].
      * split; [exact El|]. destruct a as [|x a]; [contradiction|].
        exists [c], (x :: a). split; [reflexivity|].
        split; [discriminate|]. split; [discriminate|reflexivity].
      * destruct (Hk q Hin) as [Hn [a1 [a2 [-> [H1 [H2 ->]]]]]].
        split; [eapply lookup_app_none, Hn|].
        exists (c :: a1), a2. rewrite <- app_assoc.
        split; [reflexivity|]. split; [discriminate|].
        split; [exact H2|reflexivity].
Qed.

(** In a tree a failing [mkdir(parents=True, exist_ok=True)] makes
    nothing. *)
Lemma mkdirs_raise_unchanged p s e s' :
  wf s -> mkdir_parents_exist_ok p s = (Raise e, s') -> s' = s.
Proof.
  intros Hwf E. unfold mkdir_parents_exist_ok in E.
  destruct (mkdirs_raise _ _ _ _ _ E) as [a [b [ds [-> [Ha [Hf [-> Hk]]]]]]].
  cbn [app] in Hf.
  destruct ds as [|[q n] ds]; [apply app_nil_r|]. exfalso.
  destruct (Hk q) as [Hn [a1 [a2 [-> [H1 [H2 ->]]]]]]; [left; reflexivity|].
  cbn [app] in Hn.
  destruct (is_file_In s (a1 ++ a2)) as [c Hin]; [|exact Hf|].
  { destruct a1; [contradiction|discriminate]. }
  pose proof (wf_above s (a1 ++ a2) (File c) a1 a2 Hwf Hin eq_refl H1 H2) as Hd.
  unfold is_dir in Hd. rewrite Hn in Hd. discriminate.
Qed.

(** [mkdir(parents=True, exist_ok=True)] keeps a tree a tree when it
    returns. *)
Lemma mkdirs_wf p s s' :
  wf s -> mkdir_parents_exist_ok p s = (Ok tt, s') -> wf s'.
Proof.
  intros Hwf E.
  destruct (mkdirs_spec p [] s) as [out [ds [E' [Hd [Hk [Hok _]]]]]].
  fold (mkdir_parents_exist_ok p s) in E'. rewrite E in E'.
  injection E' as <- ->. specialize (Hok eq_refl).
  apply wf_app; [exact Hwf|].
  intros q n a b Hin Eq Ha Hb.
  destruct (Hk q) as [_ [a' [b' [Ep [_ Eq']]]]];
    [apply in_map_iff; exists (q, n); split; [reflexivity|exact Hin]|].
  cbn [app] in Eq'. rewrite Eq in Eq'. apply (Hok a (b ++ b')); [|exact Ha].
  rewrite Ep, <- Eq', <- app_assoc. reflexivity.
Qed.

End TreeFacts.

(** ** file_ops.py: more on [remove] *)

Module RemoveFacts.
Import FS PathLib FileOps FSFacts SyncFacts TreeFacts.

Lemma assoc_remove_entry_same p s : assoc p (remove_entry p s) = None.
Proof.
  induction s as [|[q n] s IH]; cbn [remove_entry List.filter assoc fst];
    [reflexivity|].
  destruct (path_eqb p q) eqn:E; cbn [negb]; [exact IH|].
  cbn [assoc]. rewrite E. exact IH.
Qed.

Lemma assoc_filter_keep (keep : path -> bool) q s :
  keep q = true ->
  assoc q (List.filter (fun e => keep (fst e)) s) = assoc q s.
Proof.
  intros Hq. induction s as [|[r n] s IH]; cbn [List.filter assoc fst];
    [reflexivity|].
  destruct (path_eqb q r) eqn:E.
  - apply path_eqb_eq in E. subst r. rewrite Hq. cbn [assoc].
    rewrite path_eqb_refl. reflexivity.
  - destruct (keep r); [cbn [assoc]; rewrite E|]; exact IH.
Qed.

Lemma assoc_filter_drop (keep : path -> bool) q s :
  keep q = false ->
  assoc q (List.filter (fun e => keep (fst e)) s) = None.
Proof.
  intros Hq. induction s as [|[r n] s IH]; cbn [List.filter assoc fst];
    [reflexivity|].
  destruct (keep r) eqn:Er; [|exact IH].
  cbn [assoc]. destruct (path_eqb q r) eqn:E; [|exact IH].
  apply path_eqb_eq in E. subst r. congruence.
Qed.

Lemma path_eqb_neq p q : p <> q -> path_eqb p q = false.
Proof.
  intros H. destruct (path_eqb p q) eqn:E; [|reflexivity].
  apply path_eqb_eq in E. contradiction.
Qed.

Lemma is_prefix_refl p : is_prefix p p = true.
Proof.
  induction p as [|a p IH]; cbn [is_prefix]; [reflexivity|].
  rewrite String.eqb_refl, IH. reflexivity.
Qed.

(** Below a path that holds no directory a tree has nothing. *)
Lemma wf_nothing_below s p q :
  wf s -> p <> [] -> is_dir s p = false -> is_prefix p q = true -> q <> p ->
  lookup s q = None.
Proof.
  intros Hwf Hp Hd Hpre Hne.
  destruct (is_prefix_inv _ _ Hpre) as [t ->].
  assert (Ht : t <> []) by (intros ->; rewrite app_nil_r in Hne; contradiction).
  assert (Hq : p ++ t <> []) by (destruct p; [contradiction|discriminate]).
  rewrite (lookup_nonempty _ _ Hq).
  destruct (assoc (p ++ t) s) as [n|] eqn:E; [|reflexivity].
  apply assoc_In in E.
  rewrite (wf_above s (p ++ t) n p t Hwf E eq_refl Hp Ht) in Hd. discriminate.
Qed.

Lemma rglob_empty_nothing_below s p q :
  rglob_all s p = [] -> is_prefix p q = true -> q <> p -> lookup s q = None.
Proof.
  intros Hr Hpre Hne.
  destruct (is_prefix_inv _ _ Hpre) as [t ->].
  assert (Ht : t <> []) by (intros ->; rewrite app_nil_r in Hne; contradiction).
  assert (Hq : p ++ t <> []) by (destruct p; [exact Ht|discriminate]).
  rewrite (lookup_nonempty _ _ Hq).
  destruct (assoc (p ++ t) s) as [n|] eqn:E; [|reflexivity].
  apply assoc_In in E. exfalso.
  assert (Hin : In (p ++ t) (rglob_all s p)).
  { unfold rglob_all. apply in_map_iff. exists (p ++ t, n). split; [reflexivity|].
    apply filter_In. split; [exact E|]. cbn [fst]. unfold strictly_under.
    rewrite is_prefix_app, length_app. cbn [andb]. apply Nat.ltb_lt.
    destruct t; [contradiction|cbn [List.length]; lia]. }
  rewrite Hr in Hin. destruct Hin.
Qed.

Lemma rmdir_raise_unchanged q t e t' : rmdir q t = (Raise e, t') -> t' = t.
Proof.
  unfold rmdir. destruct q as [|a q].
  - destruct (lookup t []) as [[]|]; intros H; injection H as _ <-; reflexivity.
  - destruct (lookup t (a :: q)) as [[]|];
      try (intros H; injection H as _ <-; reflexivity).
    destruct (rglob_all t (a :: q)); [discriminate|].
    intros H; injection H as _ <-; reflexivity.
Qed.

Lemma unlink_raise_unchanged q t e t' : unlink q t = (Raise e, t') -> t' = t.
Proof.
  unfold unlink. destruct (lookup t q) as [[]|]; [discriminate| |];
    intros H; injection H as _ <-; reflexivity.
Qed.

(** X4.  [remove] turns the errors of the operating system into the result
    [False]: an exception that it raises is that of [exists()], which is
    asked before the [try], or is none of [OSError].  Where [rmdir] and
    [unlink] change nothing when they fail, a removal without [recursive],
    or of what is not seen to be a directory, that gives [False] has changed
    nothing.  (A recursive removal can fail midway.) *)
Theorem remove_fails_softly (C : Os.Calls)
        (run_rmtree run_rmdir run_unlink : path -> M unit)
        (s s' : fs) (p : path) (recursive force : bool) (out : result bool) :
  (forall q t e t', run_rmdir q t = (Raise e, t') -> t' = t) ->
  (forall q t e t', run_unlink q t = (Raise e, t') -> t' = t) ->
  remove_on C run_rmtree run_rmdir run_unlink p recursive force s = (out, s') ->
  (forall e, out = Raise e ->
             Os.path_exists C s p = Raise e \/ is_OSError e = false) /\
  (out = Ok false ->
   recursive = false \/ Os.path_is_dir C s p <> Ok true ->
   s' = s).
Proof.
  intros Hrmdir Hunlink.
  unfold remove_on, bind, Os.ask, try_except_OSError, ret.
  destruct (Os.path_exists C s p) as [[]|e0]; cbn [negb].
  - destruct (Os.path_is_dir C s p) as [d|e1].
    + assert (Hop : forall (op : path -> M unit),
                 (recursive = false \/ Ok d <> Ok true ->
                  forall e t', op p s = (Raise e, t') -> t' = s) ->
                 (match
                    match op p s with
                    | (Ok _, s1) => (Ok true, s1)
                    | (Raise e, s1) => (Raise e, s1)
                    end
                  with
                  | (Raise e, s1) =>
                      if is_OSError e then (Ok false, s1) else (Raise e, s1)
                  | r => r
                  end) = (out, s') ->
                 (forall e, out = Raise e ->
                            Ok true = Raise e \/ is_OSError e = false) /\
                 (out = Ok false ->
                  recursive = false \/ Ok d <> Ok true -> s' = s)).
      { intros op Hatomic. destruct (op p s) as [[[]|e] s1] eqn:Eop.
        - intros H. injection H as <- <-. split; intros; discriminate.
        - destruct (is_OSError e) eqn:Eos; intros H; injection H as <- <-.
          + split; [intros; discriminate|].
            intros _ Hc. apply (Hatomic Hc e s1 eq_refl).
          + split; [|discriminate]. intros e' He'. injection He' as <-.
            right. exact Eos. }
      destruct d; [destruct recursive|]; apply Hop.
      * intros [H|H]; [discriminate|contradiction].
      * intros _ e t'. apply Hrmdir.
      * intros _ e t'. apply Hunlink.
    + destruct (is_OSError e1) eqn:Eos; intros H; injection H as <- <-.
      * split; [intros; discriminate|reflexivity].
      * split; [|discriminate]. intros e' He'. injection He' as <-.
        right. exact Eos.
  - intros H. injection H as <- <-. split; [intros; discriminate|reflexivity].
  - intros H. injection H as <- <-. split; [|discriminate].
    intros e He. left. exact He.
Qed.

Lemma remove_fails_softly_witness :
  (forall e, Ok false = Raise e ->
             Os.path_exists Os.open_calls Samples.home_tree ["home"; "Work"]
             = Raise e \/ is_OSError e = false) /\
  (@Ok bool false = Ok false ->
   false = false \/
   Os.path_is_dir Os.open_calls Samples.home_tree ["home"; "Work"] <> Ok true ->
   Samples.home_tree = Samples.home_tree).
Proof.
  apply (remove_fails_softly Os.open_calls rmtree rmdir unlink
           Samples.home_tree Samples.home_tree ["home"; "Work"] false false
           (Ok false)).
  - exact rmdir_raise_unchanged.
  - exact unlink_raise_unchanged.
  - vm_compute. reflexivity.
Defined.

(** X5.  What it takes for [remove] to succeed on an existing path: the path
    is a regular file, an empty directory, or any directory when
    [recursive] is set, and it is not the root.  In particular a directory
    that is not empty is not removed without [recursive]. *)
Theorem remove_success_needs (s s' : fs) (p : path) (recursive force : bool) :
  exists_ s p = true ->
  remove p recursive force s = (Ok true, s') ->
  p <> [] /\
  (is_file s p = true \/
   (is_dir s p = true /\ (recursive = true \/ rglob_all s p = []))).
Proof.
  intros Ee.
  unfold remove, bind, get_fs, try_except_OSError, ret. rewrite Ee. cbn [negb].
  destruct (is_dir s p) eqn:Ed.
  - destruct recursive.
    + unfold rmtree. destruct p as [|a p]; cbn [is_OSError]; [discriminate|].
      intros _. split; [discriminate|auto].
    + unfold rmdir. destruct p as [|a p]; cbn [is_OSError].
      * destruct (lookup s []) as [[]|]; discriminate.
      * unfold is_dir in Ed.
        destruct (lookup s (a :: p)) as [[c|]|]; try discriminate.
        destruct (rglob_all s (a :: p)) eqn:Er; cbn [is_OSError];
          [|discriminate].
        intros _. split; [discriminate|auto].
  - unfold unlink. unfold exists_ in Ee. unfold is_dir in Ed. unfold is_file.
    destruct (lookup s p) as [[c|]|] eqn:El; try discriminate.
    intros _. split; [|auto].
    intros ->. discriminate.
Qed.

Lemma lookup_remove_entry_other p q s :
  q <> p -> lookup (remove_entry p s) q = lookup s q.
Proof.
  intros H. destruct q as [|a q]; [reflexivity|]. cbn [lookup].
  apply (assoc_filter_keep (fun r => negb (path_eqb p r))).
  rewrite (path_eqb_neq p (a :: q)) by congruence. reflexivity.
Qed.

Lemma lookup_remove_entry_same p s : p <> [] -> lookup (remove_entry p s) p = None.
Proof.
  intros H. rewrite (lookup_nonempty _ _ H). apply assoc_remove_entry_same.
Qed.

Lemma prefix_nonempty p q : p <> [] -> is_prefix p q = true -> q <> [].
Proof. intros Hp H ->. destruct p; [contradiction|discriminate]. Qed.

Lemma not_prefix_neq p q : is_prefix p q = false -> q <> p.
Proof. intros H ->. rewrite is_prefix_refl in H. discriminate. Qed.

(** Removal of one entry below which there is nothing. *)
Lemma remove_entry_spec s p :
  p <> [] ->
  (forall q, is_prefix p q = true -> q <> p -> lookup s q = None) ->
  (forall q, is_prefix p q = true -> exists_ (remove_entry p s) q = false) /\
  (forall q, is_prefix p q = false ->
             lookup (remove_entry p s) q = lookup s q).
Proof.
  intros Hp Hbelow. split.
  - intros q Hq. unfold exists_.
    destruct (list_eq_dec string_dec q p) as [->|Hne].
    + rewrite (lookup_remove_entry_same _ _ Hp). reflexivity.
    + rewrite (lookup_remove_entry_other _ _ _ Hne), (Hbelow q Hq Hne).
      reflexivity.
  - intros q Hq. apply lookup_remove_entry_other, not_prefix_neq, Hq.
Qed.

(** X6.  When [remove] returns [True] for an existing path of a tree, nothing is
    left at the path or below it, every other entry is as it was, and what
    is left is a tree. *)
Theorem remove_removes (s s' : fs) (p : path) (recursive force : bool) :
  wf s -> exists_ s p = true ->
  remove p recursive force s = (Ok true, s') ->
  (forall q, is_prefix p q = true -> exists_ s' q = false) /\
  (forall q, is_prefix p q = false -> lookup s' q = lookup s q) /\
  wf s'.
Proof.
  intros Hwf Ee E.
  assert (H : (forall e, In e s' -> In e s) /\
              (forall q, is_prefix p q = true -> exists_ s' q = false) /\
              (forall q, is_prefix p q = false -> lookup s' q = lookup s q)).
  { revert E.
    unfold remove, bind, get_fs, try_except_OSError, ret. rewrite Ee. cbn [negb].
    destruct (is_dir s p) eqn:Ed.
    - destruct recursive.
      + unfold rmtree. destruct p as [|a p]; cbn [is_OSError]; [discriminate|].
        intros E. injection E as <-.
        split; [intros e He; apply filter_In in He; apply He|]. split.
        * intros q Hq. unfold exists_.
          assert (Hqn : q <> [])
            by (apply (prefix_nonempty (a :: p)); [discriminate|exact Hq]).
          rewrite (lookup_nonempty _ _ Hqn).
          unfold remove_tree.
          rewrite (assoc_filter_drop (fun r => negb (is_prefix (a :: p) r)));
            [reflexivity|rewrite Hq; reflexivity].
        * intros q Hq. destruct q as [|b q]; [reflexivity|]. cbn [lookup].
          unfold remove_tree.
          apply (assoc_filter_keep (fun r => negb (is_prefix (a :: p) r))).
          rewrite Hq. reflexivity.
      + unfold rmdir. destruct p as [|a p]; cbn [is_OSError]; [discriminate|].
        unfold is_dir in Ed.
        destruct (lookup s (a :: p)) as [[c|]|]; try discriminate.
        destruct (rglob_all s (a :: p)) eqn:Er; cbn [is_OSError]; [|discriminate].
        intros E. injection E as <-.
        split; [intros e He; apply filter_In in He; apply He|].
        apply remove_entry_spec; [discriminate|].
        intros q Hq Hne. apply (rglob_empty_nothing_below s (a :: p) q Er Hq Hne).
    - unfold unlink. pose proof Ee as Ee'. unfold exists_ in Ee'.
      pose proof Ed as Ed'. unfold is_dir in Ed'.
      destruct (lookup s p) as [[c|]|] eqn:El; try discriminate.
      intros E. injection E as <-.
      split; [intros e He; apply filter_In in He; apply He|].
      assert (Hp : p <> []) by (intros ->; discriminate).
      apply remove_entry_spec; [exact Hp|].
      intros q Hq Hne. apply (wf_nothing_below s p q Hwf Hp Ed Hq Hne). }
  destruct H as [Hsub [Hgone Hkept]].
  split; [exact Hgone|]. split; [exact Hkept|].
  apply (wf_without s s' p Hwf Hsub Hgone Hkept).
Qed.

Lemma remove_removes_witness :
  (forall q, is_prefix ["home"; "Work"] q = true ->
             exists_ (remove_tree ["home"; "Work"] Samples.home_tree) q = false) /\
  (forall q, is_prefix ["home"; "Work"] q = false ->
             lookup (remove_tree ["home"; "Work"] Samples.home_tree) q
             = lookup Samples.home_tree q) /\
  wf (remove_tree ["home"; "Work"] Samples.home_tree).
Proof.
  apply (remove_removes Samples.home_tree
           (remove_tree ["home"; "Work"] Samples.home_tree)
           ["home"; "Work"] true false); reflexivity.
Defined.

Lemma remove_success_needs_witness :
  ["home"; "notes.txt"] <> [] /\
  (is_file Samples.home_tree ["home"; "notes.txt"] = true \/
   (is_dir Samples.home_tree ["home"; "notes.txt"] = true /\
    (false = true \/ rglob_all Samples.home_tree ["home"; "notes.txt"] = []))).
Proof.
  apply (remove_success_needs Samples.home_tree
           (remove_entry ["home"; "notes.txt"] Samples.home_tree)
           ["home"; "notes.txt"] false false); reflexivity.
Defined.

End RemoveFacts.

(** ** dir_ops.py: [create_directory] *)

Module DirCreateFacts.
Import FS PathLib DirOps DirCreate FSFacts SyncFacts TreeFacts.

(** X7.  When [create_directory] returns from a call with [parents] set, it
    has touched no regular file and removed nothing, and a tree is still a
    tree.  When it returns [True], the path and all above it are
    directories, and none of them was a regular file before. *)
Theorem create_directory_parents (s s' : fs) (p : path) (b : bool) :
  create_directory p true s = (Ok b, s') ->
  (forall q, file_at s' q = file_at s q) /\
  (forall q, exists_ s q = true -> exists_ s' q = true) /\
  (wf s -> wf s') /\
  (b = true ->
   forall a t, p = a ++ t -> a <> [] ->
               is_dir s' a = true /\ is_file s a = false).
Proof.
  unfold create_directory, mkdir, try_except_OSError, bind, ret.
  destruct (mkdirs_spec p [] s) as [out [ds [E [Hd [Hk [Hok Hraise]]]]]].
  fold (mkdir_parents_exist_ok p s) in E. rewrite E.
  destruct out as [[]|e].
  - intros H. injection H as <- <-.
    split; [intros q; apply file_at_ext, Hd|].
    split; [intros q; apply exists_mono|].
    split; [intros Hwf; apply (mkdirs_wf p s _ Hwf E)|].
    intros _ a t Ep Ha.
    specialize (Hok eq_refl a t Ep Ha). cbn [app] in Hok.
    split; [exact Hok|].
    destruct (is_file s a) eqn:Ef; [|reflexivity].
    rewrite <- (is_file_ext s ds a Hd) in Ef.
    rewrite (is_file_not_dir _ _ Ef) in Hok. discriminate.
  - destruct (is_OSError e); intros H; [|discriminate].
    injection H as <- <-.
    split; [intros q; apply file_at_ext, Hd|].
    split; [intros q; apply exists_mono|].
    split; [|discriminate].
    intros Hwf. rewrite (mkdirs_raise_unchanged p s e _ Hwf E). exact Hwf.
Qed.

Lemma create_directory_parents_witness :
  (forall q, file_at (Samples.home_tree ++ [(["home"; "new"], Dir);
                                            (["home"; "new"; "deep"], Dir)]) q
             = file_at Samples.home_tree q) /\
  (forall q, exists_ Samples.home_tree q = true ->
             exists_ (Samples.home_tree ++ [(["home"; "new"], Dir);
                                            (["home"; "new"; "deep"], Dir)]) q
             = true) /\
  (wf Samples.home_tree ->
   wf (Samples.home_tree ++ [(["home"; "new"], Dir);
                             (["home"; "new"; "deep"], Dir)])) /\
  (true = true ->
   forall a t, ["home"; "new"; "deep"] = a ++ t -> a <> [] ->
               is_dir (Samples.home_tree ++ [(["home"; "new"], Dir);
                                             (["home"; "new"; "deep"], Dir)]) a
               = true /\
               is_file Samples.home_tree a = false).
Proof.
  apply (create_directory_parents Samples.home_tree
           (Samples.home_tree ++ [(["home"; "new"], Dir);
                                  (["home"; "new"; "deep"], Dir)])
           ["home"; "new"; "deep"] true).
  vm_compute. reflexivity.
Defined.

(** X8.  In a tree, when [create_directory] without [parents] returns [True],
    the path was new and its parent a directory; the call has added that
    one directory, and the result is a tree again, in which a second call
    gives [False] when it returns and a call with [parents] gives [True]
    when it returns, either without a change.  When the call returns
    [False], it has changed nothing. *)
Theorem create_directory_plain (s s' : fs) (p : path) (b : bool) :
  wf s ->
  create_directory p false s = (Ok b, s') ->
  (b = true ->
   p <> [] /\ exists_ s p = false /\ is_dir s (parent p) = true /\
   s' = s ++ [(p, Dir)] /\ wf s' /\
   (forall parents b' s'',
       create_directory p parents s' = (Ok b', s'') ->
       b' = parents /\ s'' = s')) /\
  (b = false -> s' = s).
Proof.
  intros Hwf.
  unfold create_directory at 1.
  unfold mkdir, try_except_OSError, bind, ret, mkdir_plain.
  destruct p as [|c p].
  { cbn. intros H. injection H as <- <-. split; [discriminate|reflexivity]. }
  unfold exists_, is_dir.
  destruct (lookup s (c :: p)) as [n|] eqn:El.
  { cbn [is_OSError]. intros H. injection H as <- <-.
    split; [discriminate|reflexivity]. }
  destruct (lookup s (parent (c :: p))) as [[content|]|] eqn:Ep;
    cbn [is_OSError]; intros H; injection H as <- <-;
    try (split; [discriminate|reflexivity]).
  split; [|discriminate]. intros _.
  split; [discriminate|]. split; [reflexivity|]. split; [reflexivity|].
  split; [reflexivity|].
  assert (Hnew : lookup (s ++ [(c :: p, Dir)]) (c :: p) = Some Dir).
  { rewrite lookup_app, El. cbn [lookup assoc]. rewrite path_eqb_refl.
    reflexivity. }
  assert (Hpar : is_dir s (parent (c :: p)) = true)
    by (unfold is_dir; rewrite Ep; reflexivity).
  assert (Habove : forall a t, c :: p = a ++ t -> a <> [] -> t <> [] ->
                               is_dir s a = true).
  { intros a t Eat Ha Ht.
    destruct (prefix_of_parent _ _ _ Eat Ht) as [b' Eb].
    apply (wf_prefixes s _ Hwf Hpar a b' Eb Ha). }
  split.
  - apply wf_app; [exact Hwf|]. intros q n a b [Hq|[]] Eq Ha Hb.
    injection Hq as <- <-. apply is_dir_mono.
    apply (Habove a b Eq Ha Hb).
  - intros parents b' s''. destruct parents.
    + unfold create_directory, mkdir, try_except_OSError, bind, ret.
      rewrite mkdirs_settled.
      * intros H. injection H as <- <-. auto.
      * intros a t Eat Ha.
        destruct t as [|x t].
        -- rewrite app_nil_r in Eat. subst a. unfold is_dir, path in *.
           rewrite Hnew. reflexivity.
        -- apply is_dir_mono. apply (Habove a (x :: t) Eat Ha). discriminate.
    + unfold create_directory, mkdir, try_except_OSError, bind, ret, mkdir_plain.
      unfold path in *. rewrite Hnew. cbn [is_OSError]. intros H. injection H as <- <-. auto.
Qed.

Lemma create_directory_plain_witness :
  (true = true ->
   ["home"; "Work"; "new"] <> [] /\
   exists_ Samples.home_tree ["home"; "Work"; "new"] = false /\
   is_dir Samples.home_tree (parent ["home"; "Work"; "new"]) = true /\
   Samples.home_tree ++ [(["home"; "Work"; "new"], Dir)]
   = Samples.home_tree ++ [(["home"; "Work"; "new"], Dir)] /\
   wf (Samples.home_tree ++ [(["home"; "Work"; "new"], Dir)]) /\
   (forall parents b' s'',
       create_directory ["home"; "Work"; "new"] parents
                        (Samples.home_tree ++ [(["home"; "Work"; "new"], Dir)])
       = (Ok b', s'') ->
       b' = parents /\
       s'' = Samples.home_tree ++ [(["home"; "Work"; "new"], Dir)])) /\
  (true = false ->
   Samples.home_tree ++ [(["home"; "Work"; "new"], Dir)] = Samples.home_tree).
Proof.
  apply (create_directory_plain Samples.home_tree
           (Samples.home_tree ++ [(["home"; "Work"; "new"], Dir)])
           ["home"; "Work"; "new"] true); vm_compute; reflexivity.
Defined.

End DirCreateFacts.

(** ** search.py: [find] *)

Module FindFacts.
Import FS Search Find FSFacts SyncFacts TreeFacts.

Section FindProps.
Variable fnmatch : string -> string -> bool.

(** What the loop keeps. *)
Lemma find_loop_filter s name size_filter file_type items :
  find_loop fnmatch s name size_filter file_type items
  = List.map (found s)
      (List.filter (fun q => negb (name_skips fnmatch name q) &&
                             negb (type_skips s file_type q) &&
                             negb (size_skips s size_filter q)) items).
Proof.
  induction items as [|q items IH]; cbn [find_loop List.filter List.map];
    [reflexivity|].
  destruct (name_skips fnmatch name q); cbn [negb andb]; [exact IH|].
  destruct (type_skips s file_type q); cbn [negb andb]; [exact IH|].
  destruct (size_skips s size_filter q); cbn [negb andb List.map];
    [exact IH|].
  rewrite IH. reflexivity.
Qed.

Lemma In_find_loop s name size_filter file_type items r :
  In r (find_loop fnmatch s name size_filter file_type items) <->
  r = found s (item_path r) /\ In (item_path r) items /\
  name_skips fnmatch name (item_path r) = false /\
  type_skips s file_type (item_path r) = false /\
  size_skips s size_filter (item_path r) = false.
Proof.
  rewrite find_loop_filter, in_map_iff. split.
  - intros [q [<- Hq]]. apply filter_In in Hq. destruct Hq as [Hq Hk].
    apply andb_true_iff in Hk. destruct Hk as [Hk H3].
    apply andb_true_iff in Hk. destruct Hk as [H1 H2].
    cbn [found item_path]. rewrite negb_true_iff in H1, H2, H3. auto.
  - intros [E [Hq [H1 [H2 H3]]]]. exists (item_path r).
    split; [symmetry; exact E|]. apply filter_In. split; [exact Hq|].
    rewrite H1, H2, H3. reflexivity.
Qed.

Lemma In_rglob_all s root q :
  In q (rglob_all s root) <-> In q (List.map fst s) /\ strictly_under root q = true.
Proof.
  unfold rglob_all. rewrite !in_map_iff. split.
  - intros [e [<- H]]. apply filter_In in H. destruct H as [H1 H2].
    split; [exists e; auto|exact H2].
  - intros [[e [<- H]] Hu]. exists e. split; [reflexivity|].
    apply filter_In. auto.
Qed.

(** X9.  Without criteria [find] lists exactly what lies below the root, hidden
    entries and directories included and the root itself excluded, each with
    its last component as name and with type ["dir"] for a directory and
    ["file"] for anything else; with criteria it lists some of these.  A
    root that is missing or not a directory gives the empty list. *)
Theorem find_lists_what_is_below (s : fs) (root : path)
        (name size file_type : option string) :
  (exists all,
      find fnmatch s root None None None = Ok all /\
      (forall r, In r all <->
                 r = found s (item_path r) /\
                 is_dir s root = true /\
                 In (item_path r) (List.map fst s) /\
                 strictly_under root (item_path r) = true) /\
      (forall rs r, find fnmatch s root name size file_type = Ok rs ->
                    In r rs -> In r all)) /\
  (is_dir s root = false ->
   forall rs, find fnmatch s root name size file_type = Ok rs -> rs = []).
Proof.
  unfold find, rglob_star, size_filter_of. split.
  - destruct (negb (exists_ s root)) eqn:Ee.
    { exists []. split; [reflexivity|]. split.
      - intros r. split; [contradiction|]. intros [_ [Hd _]].
        rewrite (is_dir_exists _ _ Hd) in Ee. discriminate.
      - intros rs r E. injection E as <-. auto. }
    eexists. split; [reflexivity|]. split.
    + intros r. rewrite In_find_loop. cbn [name_skips type_skips size_skips].
      destruct (is_dir s root).
      * rewrite In_rglob_all. tauto.
      * cbn [In]. split; [tauto|]. intros [_ [H _]]. discriminate.
    + intros rs r E Hr.
      destruct (match size with Some (String _ _ as z) => _ | _ => _ end)
        as [f|e]; [|discriminate].
      injection E as <-. apply In_find_loop in Hr. apply In_find_loop.
      cbn [name_skips type_skips size_skips]. tauto.
  - intros Hd rs. rewrite Hd.
    destruct (negb (exists_ s root)); [intros E; injection E as <-; reflexivity|].
    destruct (match size with Some (String _ _ as z) => _ | _ => _ end)
      as [f|e]; [|discriminate].
    intros E. injection E as <-. reflexivity.
Qed.

(** X10.  The criteria are independent: what [find] gives for a name, a size and
    a type together is what the three searches for the name, for the size
    and for the type alone have in common. *)
Theorem find_criteria_intersect (s : fs) (root : path)
        (name size file_type : option string) (rs : list Found) :
  find fnmatch s root name size file_type = Ok rs ->
  exists by_name by_size by_type,
    find fnmatch s root name None None = Ok by_name /\
    find fnmatch s root None size None = Ok by_size /\
    find fnmatch s root None None file_type = Ok by_type /\
    forall r, In r rs <-> In r by_name /\ In r by_size /\ In r by_type.
Proof.
  unfold find. destruct (negb (exists_ s root)).
  { intros E. injection E as <-. exists [], [], [].
    repeat split; try reflexivity; try contradiction. intros [[] _]. }
  cbn [size_filter_of].
  destruct (size_filter_of size) as [f|e]; [|discriminate].
  intros E. injection E as <-.
  eexists. eexists. eexists.
  split; [reflexivity|]. split; [reflexivity|]. split; [reflexivity|].
  intros r. rewrite !In_find_loop. cbn [name_skips type_skips size_skips].
  tauto.
Qed.

(** X11.  A size criterion removes regular files only: every directory that the
    search without the size lists is listed with it. *)
Theorem find_size_spares_directories (s : fs) (root : path)
        (name size file_type : option string) (rs : list Found) :
  find fnmatch s root name size file_type = Ok rs ->
  exists rs0,
    find fnmatch s root name None file_type = Ok rs0 /\
    (forall r, In r rs -> In r rs0) /\
    (forall r, In r rs0 -> is_file s (item_path r) = false -> In r rs).
Proof.
  unfold find. destruct (negb (exists_ s root)).
  { intros E. injection E as <-. exists []. auto. }
  cbn [size_filter_of].
  destruct (size_filter_of size) as [f|e]; [|discriminate].
  intros E. injection E as <-. eexists. split; [reflexivity|].
  split; intros r; rewrite !In_find_loop; cbn [size_skips]; [tauto|].
  intros H Hf. destruct H as [H1 [H2 [H3 [H4 _]]]].
  repeat (split; [assumption|]).
  unfold size_skips. destruct f; [|reflexivity]. rewrite Hf. reflexivity.
Qed.

Lemma type_skips_unknown s t q :
  t <> "file" -> t <> "dir" -> t <> "link" ->
  type_skips s (Some t) q = false.
Proof.
  intros H1 H2 H3. unfold type_skips. destruct t as [|c t]; [reflexivity|].
  apply String.eqb_neq in H1, H2, H3. rewrite H1, H2, H3. reflexivity.
Qed.

(** X12.  A type other than ["file"], ["dir"] and ["link"] is no criterion at
    all: the search is the one without a type. *)
Theorem find_unknown_type (s : fs) (root : path) (name size : option string)
        (t : string) :
  t <> "file" -> t <> "dir" -> t <> "link" ->
  find fnmatch s root name size (Some t) = find fnmatch s root name size None.
Proof.
  intros H1 H2 H3. unfold find. destruct (negb (exists_ s root)); [reflexivity|].
  destruct (size_filter_of size) as [f|e]; [|reflexivity]. f_equal.
  rewrite !find_loop_filter. f_equal. apply filter_ext. intros q.
  rewrite (type_skips_unknown s t q H1 H2 H3). reflexivity.
Qed.

Lemma find_on_open (s : fs) (root : path) (name size file_type : option string) :
  find_on fnmatch Os.open_calls s root name size file_type
  = find fnmatch s root name size file_type.
Proof.
  unfold find_on, find. cbn [Os.path_exists Os.open_calls].
  destruct (exists_ s root); reflexivity.
Qed.

(** X13.  How [find] ends before its loop.  A root of which [exists()] says
    that it is not there gives the empty list, whatever the size string is,
    and an exception of [exists()] is raised by [find].  For a root that is
    seen to exist and a nonempty size string of ASCII characters on which
    [_parse_size_filter] raises, [find] raises with it, and the exception is
    [OverflowError]. *)
Theorem find_raises (C : Os.Calls) (s : fs) (root : path)
        (name size file_type : option string) :
  (Os.path_exists C s root = Ok false ->
   find_on fnmatch C s root name size file_type = Ok []) /\
  (forall e, Os.path_exists C s root = Raise e ->
             find_on fnmatch C s root name size file_type = Raise e) /\
  (forall z e,
      Os.path_exists C s root = Ok true ->
      size = Some z -> z <> EmptyString -> PyStr.is_ascii z = true ->
      _parse_size_filter z = Raise e ->
      find_on fnmatch C s root name size file_type = Raise e /\
      e = OverflowError).
Proof.
  unfold find_on. split; [|split].
  - intros ->. reflexivity.
  - intros e ->. reflexivity.
  - intros z e -> -> Hz _ Hr. unfold size_filter_of.
    destruct z as [|c z]; [contradiction|]. rewrite Hr.
    split; [reflexivity|].
    apply (SizeFilterMore.size_filter_exception _ e Hr).
Qed.

End FindProps.

Lemma find_criteria_intersect_witness :
  exists by_name by_size by_type,
    find String.eqb Samples.home_tree ["home"] (Some "notes.txt") None None
    = Ok by_name /\
    find String.eqb Samples.home_tree ["home"] None (Some ">0") None
    = Ok by_size /\
    find String.eqb Samples.home_tree ["home"] None None (Some "file")
    = Ok by_type /\
    forall r, In r [mkFound ["home"; "notes.txt"] "notes.txt" "file"] <->
              In r by_name /\ In r by_size /\ In r by_type.
Proof.
  apply (find_criteria_intersect String.eqb Samples.home_tree ["home"]
           (Some "notes.txt") (Some ">0") (Some "file")).
  vm_compute. reflexivity.
Defined.

Lemma find_size_spares_directories_witness :
  exists rs0,
    find String.eqb Samples.home_tree ["home"] None None None = Ok rs0 /\
    (forall r, In r [mkFound ["home"; "Work"] "Work" "dir";
                     mkFound ["home"; "archive"] "archive" "dir"] ->
               In r rs0) /\
    (forall r, In r rs0 -> is_file Samples.home_tree (item_path r) = false ->
               In r [mkFound ["home"; "Work"] "Work" "dir";
                     mkFound ["home"; "archive"] "archive" "dir"]).
Proof.
  apply (find_size_spares_directories String.eqb Samples.home_tree ["home"]
           None (Some ">10MB") None).
  vm_compute. reflexivity.
Defined.

Lemma find_unknown_type_witness :
  find String.eqb Samples.home_tree ["home"] None None (Some "directory")
  = find String.eqb Samples.home_tree ["home"] None None None.
Proof.
  apply (find_unknown_type String.eqb Samples.home_tree ["home"] None None
           "directory"); discriminate.
Defined.

Lemma find_raises_witness :
  find_on String.eqb Os.open_calls Samples.home_tree ["home"] None
          (Some ">1e999B") None = Raise OverflowError /\
  OverflowError = OverflowError.
Proof.
  destruct (find_raises String.eqb Os.open_calls Samples.home_tree ["home"]
              None (Some ">1e999B") None) as [_ [_ H]].
  apply (H ">1e999B" OverflowError);
    try reflexivity; try discriminate.
Defined.

Lemma find_lists_what_is_below_witness :
  (exists all,
      find String.eqb Samples.home_tree ["home"] None None None = Ok all /\
      In (found Samples.home_tree ["home"; ".profile"]) all /\
      ~ In (found Samples.home_tree ["home"]) all) /\
  find String.eqb Samples.home_tree ["home"; "notes.txt"] None None None = Ok [].
Proof.
  split.
  - destruct (find_lists_what_is_below String.eqb Samples.home_tree ["home"]
                None None None) as [[all [E [H _]]] _].
    exists all. split; [exact E|]. split.
    + apply H. cbn [item_path found]. split; [reflexivity|].
      split; [reflexivity|]. split; [|reflexivity]. vm_compute. auto.
    + intros Hin. apply H in Hin. destruct Hin as [_ [_ [_ Hu]]].
      vm_compute in Hu. discriminate.
  - destruct (find_lists_what_is_below String.eqb Samples.home_tree
                ["home"; "notes.txt"] None None None) as [_ H].
    destruct (find String.eqb Samples.home_tree ["home"; "notes.txt"]
                None None None) as [rs|e] eqn:E; [|vm_compute in E; discriminate].
    rewrite (H eq_refl rs eq_refl). reflexivity.
Defined.

End FindFacts.

(** ** search.py: the matches of the text search *)

Module TextSearchMore.
Import FS TextSearch TextSearchFacts.

(** X14.  A root that is seen to be missing gives no match, whatever the
    pattern is.  When the root is seen to exist, the pattern compiles, the
    walk of the files returns and [is_file()] answers for each of the
    files, the search returns, and the matches are exactly these: the file
    is a regular file that the walk gave and whose name the nonempty
    [exclude] pattern does not match, [line] is the number of one of the
    lines read from it, counted from 1, [content] is that whole line, and
    the compiled pattern is found in it. *)
Theorem search_text_matches (L : Libs) (s : fs) (pattern : string)
        (root : path) (include : string) (exclude : option string)
        (r : regex L) (files : list path) :
  (path_exists L s root = Ok false ->
   search_text L s pattern root include exclude = Ok []) /\
  (path_exists L s root = Ok true ->
   re_compile L pattern = Ok r ->
   rglob L s root include = Ok files ->
   examinable L s files ->
   exists ms,
     search_text L s pattern root include exclude = Ok ms /\
     forall m,
       In m ms <->
       In (file m) files /\ path_is_file L s (file m) = Ok true /\
       match exclude with
       | Some (String _ _ as pat) => fnmatch L (name (file m)) pat
       | _ => false
       end = false /\
       exists i,
         nth_error (read_lines L s (file m)) i = Some (content m) /\
         line m = 1 + Z.of_nat i /\
         re_search L r (content m) = true).
Proof.
  unfold search_text. split.
  - intros ->. reflexivity.
  - intros -> Hc Hg Hfiles. rewrite Hc. unfold search_with. rewrite Hg.
    destruct (scan_files_returns L (re_search L r) s exclude files Hfiles)
      as [ms Ems].
    exists ms. split; [exact Ems|]. intros m.
    rewrite (In_scan_files L _ s exclude files ms m Ems).
    unfold scanned, excluded. split.
    + intros [[H1 [H2 [H3 [i [H4 H5]]]]] H6]. eauto 10.
    + intros [H1 [H2 [H3 [i [H4 [H5 H6]]]]]]. eauto 10.
Qed.

Lemma search_text_matches_witness :
  exists ms,
    search_text LiteralRe.libs Samples.home_tree "NEED" ["home"] "notes.txt" None
    = Ok ms /\
    forall m,
      In m ms <->
      In (file m) [["home"; "notes.txt"]] /\
      path_is_file LiteralRe.libs Samples.home_tree (file m) = Ok true /\
      false = false /\
      exists i,
        nth_error (read_lines LiteralRe.libs Samples.home_tree (file m)) i
        = Some (content m) /\
        line m = 1 + Z.of_nat i /\
        re_search LiteralRe.libs "NEED" (content m) = true.
Proof.
  destruct (search_text_matches LiteralRe.libs Samples.home_tree "NEED"
              ["home"] "notes.txt" None "NEED" [["home"; "notes.txt"]])
    as [_ H].
  apply H; [reflexivity|reflexivity|reflexivity|apply literal_examinable].
Defined.

End TextSearchMore.

(** ** file_ops.py: [copy_file] *)

Module FileCopyFacts.
Import FS PathLib FileOps DirOps FileCopy FSFacts SyncFacts TreeFacts RemoveFacts.

Lemma lookup_ext_other s ds p :
  ~ In p (List.map fst ds) -> lookup (s ++ ds) p = lookup s p.
Proof.
  intros Hn. rewrite lookup_app. destruct (lookup s p) as [n|] eqn:E; [reflexivity|].
  destruct p as [|c p]; [discriminate|].
  destruct (lookup ds (c :: p)) as [n|] eqn:E'; [|reflexivity].
  exfalso. apply Hn. apply lookup_key_in; [discriminate|congruence].
Qed.

Lemma parent_length p : p <> [] -> S (List.length (parent p)) = List.length p.
Proof.
  intros Hp. rewrite (parent_name p Hp) at 2. rewrite length_app.
  cbn [List.length]. lia.
Qed.

Lemma copy_file_unfold src dst overwrite s :
  copy_file src dst overwrite s =
  if negb (exists_ s src) then (Ok false, s)
  else if exists_ s dst && negb overwrite then (Ok false, s)
  else
    match mkdir_parents_exist_ok (parent dst) s with
    | (Ok _, s1) =>
        match copy2 src dst s1 with
        | (Ok _, s2) => (Ok true, s2)
        | (Raise e, s2) => if is_OSError e then (Ok false, s2) else (Raise e, s2)
        end
    | (Raise e, s1) => if is_OSError e then (Ok false, s1) else (Raise e, s1)
    end.
Proof.
  unfold copy_file, bind, get_fs, try_except_OSError, ret.
  destruct (negb (exists_ s src)); [reflexivity|].
  destruct (exists_ s dst && negb overwrite); [reflexivity|].
  destruct (mkdir_parents_exist_ok (parent dst) s) as [[u|e] s1]; [|reflexivity].
  destruct (copy2 src dst s1) as [[u'|e] s2]; reflexivity.
Qed.

(** What making the directory of the destination adds lies above the
    destination and above the target of the copy. *)
Lemma made_above s src dst (ds : fs) q :
  (forall q, In q (List.map fst ds) ->
             lookup s q = None /\
             exists a b, parent dst = a ++ b /\ a <> [] /\ q = [] ++ a) ->
  In q (List.map fst ds) ->
  q <> dst /\ q <> target_of s src dst /\ q <> dst ++ [name src].
Proof.
  intros Hk Hin. destruct (Hk q Hin) as [_ [a [b [Ep [Ha Eq]]]]].
  cbn [app] in Eq. subst q.
  assert (Hd : dst <> []).
  { intros ->. cbn in Ep. destruct a; [contradiction|discriminate]. }
  pose proof (parent_length dst Hd) as Hl.
  assert (Hla : (List.length a <= List.length (parent dst))%nat)
    by (rewrite Ep, length_app; lia).
  assert (H1 : a <> dst) by (intros ->; lia).
  assert (H2 : a <> dst ++ [name src])
    by (intros ->; rewrite length_app in Hla; cbn [List.length] in Hla; lia).
  split; [exact H1|]. split; [|exact H2].
  unfold target_of. destruct (is_dir s dst); assumption.
Qed.

(** The run of [copy_file] once the source is there and the destination
    may be written: [ds] are the directories made on the way. *)
Lemma copy_file_run s src dst overwrite :
  exists_ s src = true ->
  exists_ s dst && negb overwrite = false ->
  exists out ds,
    mkdir_parents_exist_ok (parent dst) s = (out, s ++ ds) /\
    dirs_only ds /\
    (forall q, In q (List.map fst ds) ->
               lookup s q = None /\
               exists a b, parent dst = a ++ b /\ a <> [] /\ q = [] ++ a) /\
    match out with
    | Raise e =>
        copy_file src dst overwrite s = (Ok false, s ++ ds) /\
        exists a t, parent dst = a ++ t /\ a <> [] /\ is_file s a = true
    | Ok _ =>
        (forall a t, parent dst = a ++ t -> a <> [] -> is_dir (s ++ ds) a = true) /\
        copy_file src dst overwrite s =
        let target := target_of s src dst in
        if path_eqb src target then (Ok false, s ++ ds)
        else
          match lookup s src with
          | Some (File content) =>
              match lookup s target with
              | Some Dir => (Ok false, s ++ ds)
              | Some (File _) => (Ok true, write_over target content (s ++ ds))
              | None => (Ok true, (s ++ ds) ++ [(target, File content)])
              end
          | _ => (Ok false, s ++ ds)
          end
    end.
Proof.
  intros He Hd. rewrite copy_file_unfold, He, Hd. cbn [negb].
  destruct (mkdirs_spec (parent dst) [] s) as [out [ds [E [Hds [Hk [Hok Hraise]]]]]].
  fold (mkdir_parents_exist_ok (parent dst) s) in E.
  exists out, ds. split; [exact E|]. split; [exact Hds|]. split; [exact Hk|].
  rewrite E. destruct out as [[]|e].
  2:{ destruct (Hraise e eq_refl) as [Hos [a [t [Ep [Ha Hf]]]]].
      assert (Hose : is_OSError e = true) by (destruct Hos as [-> | ->]; reflexivity).
      rewrite Hose. split; [reflexivity|]. exists a, t. auto. }
  specialize (Hok eq_refl). split; [exact Hok|].
  assert (Hdir : is_dir (s ++ ds) dst = is_dir s dst).
  { unfold is_dir. rewrite lookup_ext_other; [reflexivity|].
    intros Hin. destruct (made_above s src dst ds dst Hk Hin) as [H _].
    apply H. reflexivity. }
  assert (Ht : target_of (s ++ ds) src dst = target_of s src dst)
    by (unfold target_of; rewrite Hdir; reflexivity).
  assert (Hlt : lookup (s ++ ds) (target_of s src dst) = lookup s (target_of s src dst)).
  { apply lookup_ext_other. intros Hin.
    destruct (made_above s src dst ds _ Hk Hin) as [_ [H _]].
    apply H. reflexivity. }
  assert (Hls : lookup (s ++ ds) src = lookup s src).
  { unfold exists_ in He. destruct (lookup s src) as [n|] eqn:El; [|discriminate].
    apply lookup_app_some, El. }
  unfold copy2. rewrite Ht, (exists_mono _ _ _ He), Hls, Hlt. cbn [andb].
  cbv zeta.
  destruct (path_eqb src (target_of s src dst)); [reflexivity|].
  destruct (lookup s src) as [[c|]|]; try reflexivity.
  destruct (lookup s (target_of s src dst)) as [[c'|]|] eqn:Etg; try reflexivity.
  assert (Hpar : is_dir (s ++ ds) (parent (target_of s src dst)) = true).
  { unfold target_of. destruct (is_dir s dst) eqn:Edd.
    - unfold parent. rewrite removelast_last. congruence.
    - destruct (parent dst) as [|x r] eqn:Ep; [reflexivity|].
      apply (Hok (x :: r) []); [rewrite app_nil_r; reflexivity|discriminate]. }
  unfold is_dir in Hpar.
  destruct (lookup (s ++ ds) (parent (target_of s src dst))) as [[c'|]|];
    try discriminate.
  reflexivity.
Qed.

Lemma assoc_write_over p c s q :
  assoc q (write_over p c s) =
  if path_eqb p q
  then match assoc q s with Some _ => Some (File c) | None => None end
  else assoc q s.
Proof.
  induction s as [|[r n] s IH]; cbn [write_over List.map assoc fst].
  - destruct (path_eqb p q); reflexivity.
  - fold (write_over p c s).
    destruct (path_eqb p r) eqn:Epr; cbn [assoc fst].
    + apply path_eqb_eq in Epr. subst r.
      destruct (path_eqb q p) eqn:Eqp.
      * apply path_eqb_eq in Eqp. subst q. rewrite path_eqb_refl. reflexivity.
      * exact IH.
    + destruct (path_eqb q r) eqn:Eqr; [|exact IH].
      apply path_eqb_eq in Eqr. subst r. rewrite Epr. reflexivity.
Qed.

Lemma lookup_write_over_other p c s q :
  q <> p -> lookup (write_over p c s) q = lookup s q.
Proof.
  intros H. destruct q as [|a q]; [reflexivity|]. cbn [lookup].
  rewrite assoc_write_over, (path_eqb_neq p (a :: q)) by congruence.
  reflexivity.
Qed.

Lemma lookup_write_over_same p c s :
  is_file s p = true -> lookup (write_over p c s) p = Some (File c).
Proof.
  unfold is_file. destruct p as [|a p]; [discriminate|]. cbn [lookup].
  rewrite assoc_write_over, path_eqb_refl.
  destruct (assoc (a :: p) s) as [[]|]; try discriminate. reflexivity.
Qed.

Lemma write_over_keys p c s : List.map fst (write_over p c s) = List.map fst s.
Proof.
  unfold write_over. rewrite map_map. apply map_ext. intros [q n]. cbn [fst].
  destruct (path_eqb p q); reflexivity.
Qed.

(** Writing what is written changes nothing. *)
Lemma write_over_same p c s :
  (forall n, In (p, n) s -> n = File c) -> write_over p c s = s.
Proof.
  intros H. unfold write_over. rewrite <- (map_id s) at 2.
  apply map_ext_in. intros [q n] Hin. cbn [fst].
  destruct (path_eqb p q) eqn:E; [|reflexivity].
  apply path_eqb_eq in E. subst q. rewrite (H n Hin). reflexivity.
Qed.

Lemma In_write_over p c s q n :
  In (q, n) (write_over p c s) ->
  (q = p /\ n = File c \/ q <> p /\ In (q, n) s) /\ In q (List.map fst s).
Proof.
  intros H. split.
  - unfold write_over in H. apply in_map_iff in H. destruct H as [[r m] [E H]].
    cbn [fst] in E. destruct (path_eqb p r) eqn:Epr.
    + apply path_eqb_eq in Epr. subst r. injection E as <- <-. left. auto.
    + injection E as <- <-. right. split; [|exact H].
      intros ->. rewrite path_eqb_refl in Epr. discriminate.
  - rewrite <- (write_over_keys p c s). apply in_map_iff. exists (q, n). auto.
Qed.

Lemma lookup_none_not_key s p : lookup s p = None -> ~ In p (List.map fst s).
Proof.
  intros H Hin. apply key_exists in Hin. unfold exists_ in Hin.
  rewrite H in Hin. discriminate.
Qed.

(** The outcome of [copy_file]: it never raises; [ds] are the directories
    made on the way. *)
Lemma copy_file_result s src dst overwrite :
  exists b s' ds,
    copy_file src dst overwrite s = (Ok b, s') /\
    dirs_only ds /\
    (forall q, In q (List.map fst ds) ->
               lookup s q = None /\
               exists a b, parent dst = a ++ b /\ a <> [] /\ q = a) /\
    (b = false -> s' = s ++ ds) /\
    (b = true ->
     (forall a t, parent dst = a ++ t -> a <> [] -> is_dir (s ++ ds) a = true) /\
     exists c,
       file_at s src = Some c /\
       (is_file s (target_of s src dst) = true /\
        s' = write_over (target_of s src dst) c (s ++ ds) \/
        lookup s (target_of s src dst) = None /\
        s' = (s ++ ds) ++ [(target_of s src dst, File c)])) /\
    (b = true <->
     is_file s src = true /\
     (exists_ s dst = true -> overwrite = true) /\
     (forall a t, parent dst = a ++ t -> a <> [] -> is_file s a = false) /\
     src <> target_of s src dst /\
     is_dir s (target_of s src dst) = false).
Proof.
  destruct (exists_ s src) eqn:He.
  2:{ exists false, s, []. rewrite copy_file_unfold, He, app_nil_r. cbn [negb].
      split; [reflexivity|]. split; [constructor|]. split; [intros q []|].
      split; [reflexivity|]. split; [discriminate|].
      split; [discriminate|]. intros [Hf _]. unfold is_file in Hf.
      unfold exists_ in He. destruct (lookup s src); discriminate. }
  destruct (exists_ s dst && negb overwrite) eqn:Hd.
  { exists false, s, []. rewrite copy_file_unfold, He, Hd, app_nil_r. cbn [negb].
    split; [reflexivity|]. split; [constructor|]. split; [intros q []|].
    split; [reflexivity|]. split; [discriminate|].
    split; [discriminate|]. intros [_ [Ho _]].
    apply andb_true_iff in Hd. destruct Hd as [Hd1 Hd2].
    rewrite (Ho Hd1) in Hd2. discriminate. }
  assert (Hov : exists_ s dst = true -> overwrite = true).
  { intros H. rewrite H in Hd. destruct overwrite; [reflexivity|discriminate]. }
  destruct (copy_file_run s src dst overwrite He Hd)
    as [out [ds [Em [Hds [Hk Hrun]]]]].
  assert (Hk' : forall q, In q (List.map fst ds) ->
                          lookup s q = None /\
                          exists a b, parent dst = a ++ b /\ a <> [] /\ q = a).
  { intros q Hq. destruct (Hk q Hq) as [H1 [a [b [H2 [H3 H4]]]]]. eauto 10. }
  destruct out as [[]|e].
  2:{ destruct Hrun as [E [a [t [Ep [Ha Hf]]]]].
      exists false, (s ++ ds), ds. split; [exact E|]. split; [exact Hds|].
      split; [exact Hk'|]. split; [reflexivity|]. split; [discriminate|].
      split; [discriminate|]. intros [_ [_ [Hno _]]].
      rewrite (Hno a t Ep Ha) in Hf. discriminate. }
  destruct Hrun as [Hok E]. cbv zeta in E.
  assert (Hnof : forall a t, parent dst = a ++ t -> a <> [] -> is_file s a = false).
  { intros a t Ep Ha. specialize (Hok a t Ep Ha).
    destruct (is_file s a) eqn:Ef; [|reflexivity].
    rewrite <- (is_file_ext s ds a Hds) in Ef.
    rewrite (is_file_not_dir _ _ Ef) in Hok. discriminate. }
  destruct (path_eqb src (target_of s src dst)) eqn:Esame.
  { apply path_eqb_eq in Esame.
    exists false, (s ++ ds), ds. split; [exact E|]. split; [exact Hds|].
    split; [exact Hk'|]. split; [reflexivity|]. split; [discriminate|].
    split; [discriminate|]. intros [_ [_ [_ [H _]]]]. contradiction. }
  assert (Hne : src <> target_of s src dst).
  { intros H. rewrite <- H, path_eqb_refl in Esame. discriminate. }
  unfold is_file, is_dir, file_at.
  destruct (lookup s src) as [[c|]|] eqn:Els.
  - destruct (lookup s (target_of s src dst)) as [[c'|]|] eqn:Elt.
    + exists true, (write_over (target_of s src dst) c (s ++ ds)), ds.
      split; [exact E|]. split; [exact Hds|]. split; [exact Hk'|].
      split; [discriminate|]. split; [intros _; split; [exact Hok|]; eauto|].
      split; [intros _|reflexivity]. auto.
    + exists false, (s ++ ds), ds. split; [exact E|]. split; [exact Hds|].
      split; [exact Hk'|]. split; [reflexivity|]. split; [discriminate|].
      split; [discriminate|]. intros [_ [_ [_ [_ H]]]]. discriminate.
    + exists true, ((s ++ ds) ++ [(target_of s src dst, File c)]), ds.
      split; [exact E|]. split; [exact Hds|]. split; [exact Hk'|].
      split; [discriminate|]. split; [intros _; split; [exact Hok|]; eauto|].
      split; [intros _|reflexivity]. auto.
  - exists false, (s ++ ds), ds. split; [exact E|]. split; [exact Hds|].
    split; [exact Hk'|]. split; [reflexivity|]. split; [discriminate|].
    split; [discriminate|]. intros [H _]. discriminate.
  - unfold exists_ in He. rewrite Els in He. discriminate.
Qed.

Lemma lookup_app_other s t n q :
  q <> t -> lookup (s ++ [(t, n)]) q = lookup s q.
Proof.
  intros H. rewrite lookup_app. destruct (lookup s q) eqn:E; [reflexivity|].
  destruct q as [|x q]; [discriminate|]. cbn [lookup assoc].
  rewrite (path_eqb_neq (x :: q) t H). reflexivity.
Qed.

Lemma wf_made s dst (ds : fs) :
  wf s ->
  (forall q, In q (List.map fst ds) ->
             lookup s q = None /\
             exists a b, parent dst = a ++ b /\ a <> [] /\ q = a) ->
  (forall a t, parent dst = a ++ t -> a <> [] -> is_dir (s ++ ds) a = true) ->
  wf (s ++ ds).
Proof.
  intros Hwf Hk Hok. apply wf_app; [exact Hwf|].
  intros q n a b Hin Eq Ha Hb.
  destruct (Hk q) as [_ [a' [b' [Ep [_ Eq']]]]];
    [apply in_map_iff; exists (q, n); split; [reflexivity|exact Hin]|].
  apply (Hok a (b ++ b')); [|exact Ha].
  rewrite Ep, <- Eq', Eq, <- app_assoc. reflexivity.
Qed.

(** In a tree on which the copy succeeds, all above the target are
    directories once the directory of the destination is made. *)
Lemma above_target s src dst (ds : fs) a b :
  wf s ->
  (forall a t, parent dst = a ++ t -> a <> [] -> is_dir (s ++ ds) a = true) ->
  target_of s src dst = a ++ b -> a <> [] -> b <> [] ->
  is_dir (s ++ ds) a = true.
Proof.
  intros Hwf Hok E Ha Hb. unfold target_of in E.
  destruct (is_dir s dst) eqn:Ed.
  - destruct (prefix_of_parent _ _ _ E Hb) as [b' Eb].
    unfold parent in Eb. rewrite removelast_last in Eb.
    apply is_dir_mono. apply (wf_prefixes s dst Hwf Ed a b' Eb Ha).
  - destruct (prefix_of_parent _ _ _ E Hb) as [b' Eb].
    apply (Hok a b' Eb Ha).
Qed.

(** X15.  A copy that succeeds: the target, which is [dst / src.name] for a
    directory [dst] and [dst] otherwise, holds the content of the source
    afterwards; every other regular file, the source among them, is what it
    was, no directory has gone, and a tree is still a tree. *)
Theorem copy_file_copies (s s' : fs) (src dst : path) (overwrite : bool) :
  copy_file src dst overwrite s = (Ok true, s') ->
  (exists c, file_at s src = Some c /\
             file_at s' (target_of s src dst) = Some c /\
             file_at s' src = Some c) /\
  (forall q, q <> target_of s src dst -> file_at s' q = file_at s q) /\
  (forall q, is_dir s q = true -> is_dir s' q = true) /\
  (wf s -> wf s').
Proof.
  intros H.
  destruct (copy_file_result s src dst overwrite)
    as [b [s'' [ds [E [Hds [Hk [_ [Ht Hiff]]]]]]]].
  rewrite E in H. injection H as -> ->.
  destruct (Ht eq_refl) as [Hok [c [Hc Hcase]]].
  destruct Hiff as [Hiff _]. destruct (Hiff eq_refl) as [_ [_ [_ [Hne Hnd]]]].
  set (t := target_of s src dst) in *.
  assert (Hother : forall q, q <> t -> file_at s' q = file_at s q).
  { intros q Hq. destruct Hcase as [[Hft ->]|[Hnone ->]]; unfold file_at.
    - rewrite (lookup_write_over_other _ _ _ _ Hq). apply (file_at_ext s ds q Hds).
    - rewrite (lookup_app_other _ _ _ _ Hq). apply (file_at_ext s ds q Hds). }
  split; [|split; [exact Hother|split]].
  - exists c. split; [exact Hc|]. split.
    + destruct Hcase as [[Hft ->]|[Hnone ->]]; unfold file_at.
      * rewrite lookup_write_over_same; [reflexivity|].
        rewrite is_file_ext by exact Hds. exact Hft.
      * assert (Htn : t <> []) by (intros Ht0; rewrite Ht0 in Hnone; discriminate).
        rewrite lookup_app, lookup_ext_other, Hnone.
        -- destruct t as [|x t']; [contradiction|]. cbn [lookup assoc].
           rewrite path_eqb_refl. reflexivity.
        -- intros Hin. destruct (made_above s src dst ds t Hk Hin) as [_ [Hx _]].
           apply Hx. reflexivity.
    + rewrite (Hother src Hne). exact Hc.
  - intros q Hq.
    assert (Hqt : q <> t) by (intros ->; rewrite Hq in Hnd; discriminate).
    destruct Hcase as [[Hft ->]|[Hnone ->]]; unfold is_dir.
    + rewrite (lookup_write_over_other _ _ _ _ Hqt). apply is_dir_mono, Hq.
    + apply is_dir_mono, is_dir_mono, Hq.
  - intros Hwf. pose proof (wf_made s dst ds Hwf Hk Hok) as Hwf1.
    destruct Hcase as [[Hft ->]|[Hnone ->]].
    + apply wf_intro. intros q n a b Hin Eq Ha Hb.
      destruct (In_write_over _ _ _ _ _ Hin) as [_ Hkey].
      apply in_map_iff in Hkey. destruct Hkey as [[q' n'] [Eq' Hin']].
      cbn [fst] in Eq'. subst q'.
      pose proof (wf_above (s ++ ds) q n' a b Hwf1 Hin' Eq Ha Hb) as Hd.
      assert (Hat : a <> t).
      { intros ->. rewrite <- (is_file_ext s ds t Hds) in Hft.
        rewrite (is_file_not_dir _ _ Hft) in Hd. discriminate. }
      unfold is_dir. rewrite (lookup_write_over_other _ _ _ _ Hat). exact Hd.
    + apply wf_app; [exact Hwf1|]. intros q n a b [Hin|[]] Eq Ha Hb.
      injection Hin as <- <-. apply is_dir_mono.
      apply (above_target s src dst ds a b Hwf Hok Eq Ha Hb).
Qed.

Lemma copy_file_copies_witness :
  exists c,
    file_at Samples.home_tree ["home"; "notes.txt"] = Some c /\
    file_at (Samples.home_tree ++ [(["home"; "Work"; "notes.txt"], File "needle")])
            (target_of Samples.home_tree ["home"; "notes.txt"] ["home"; "Work"])
    = Some c /\
    file_at (Samples.home_tree ++ [(["home"; "Work"; "notes.txt"], File "needle")])
            ["home"; "notes.txt"] = Some c.
Proof.
  destruct (copy_file_copies Samples.home_tree
              (Samples.home_tree ++ [(["home"; "Work"; "notes.txt"], File "needle")])
              ["home"; "notes.txt"] ["home"; "Work"] true) as [H _].
  - vm_compute. reflexivity.
  - exact H.
Defined.

(** X16.  What it takes for [copy_file] to succeed: when it returns [True],
    the source was a regular file, the destination was missing or
    [overwrite] set, no regular file lay above the destination, and the
    target of the copy was neither the source itself nor a directory.  When
    it returns for a source that is missing, or without [overwrite] for a
    destination that is there, it returns [False] and has changed
    nothing. *)
Theorem copy_file_success_needs (s s' : fs) (src dst : path)
        (overwrite b : bool) :
  copy_file src dst overwrite s = (Ok b, s') ->
  (b = true ->
   is_file s src = true /\
   (exists_ s dst = true -> overwrite = true) /\
   (forall a t, parent dst = a ++ t -> a <> [] -> is_file s a = false) /\
   src <> target_of s src dst /\
   is_dir s (target_of s src dst) = false) /\
  (exists_ s src = false \/ (exists_ s dst = true /\ overwrite = false) ->
   b = false /\ s' = s).
Proof.
  intros H. split.
  - destruct (copy_file_result s src dst overwrite)
      as [b0 [s0 [ds [E [_ [_ [_ [_ Hiff]]]]]]]].
    rewrite E in H. injection H as <- <-. apply Hiff.
  - rewrite copy_file_unfold in H. intros [He|[Hd Ho]].
    + rewrite He in H. cbn [negb] in H. injection H as <- <-. auto.
    + rewrite Hd, Ho in H. cbn [negb andb] in H.
      destruct (negb (exists_ s src)); injection H as <- <-; auto.
Qed.

Lemma copy_file_success_needs_witness :
  (true = true ->
   is_file Samples.home_tree ["home"; "notes.txt"] = true /\
   (exists_ Samples.home_tree ["home"; "Work"] = true -> true = true) /\
   (forall a t, parent ["home"; "Work"] = a ++ t -> a <> [] ->
                is_file Samples.home_tree a = false) /\
   ["home"; "notes.txt"]
   <> target_of Samples.home_tree ["home"; "notes.txt"] ["home"; "Work"] /\
   is_dir Samples.home_tree
          (target_of Samples.home_tree ["home"; "notes.txt"] ["home"; "Work"])
   = false) /\
  (exists_ Samples.home_tree ["home"; "notes.txt"] = false \/
   (exists_ Samples.home_tree ["home"; "Work"] = true /\ true = false) ->
   true = false /\
   Samples.home_tree ++ [(["home"; "Work"; "notes.txt"], File "needle")]
   = Samples.home_tree).
Proof.
  apply (copy_file_success_needs Samples.home_tree
           (Samples.home_tree ++ [(["home"; "Work"; "notes.txt"], File "needle")])
           ["home"; "notes.txt"] ["home"; "Work"] true true).
  vm_compute. reflexivity.
Defined.

(** In a tree nothing has to be made above what is there. *)
Lemma nothing_made s dst (ds : fs) :
  wf s -> exists_ s dst = true \/ is_dir s (parent dst) = true ->
  (forall q, In q (List.map fst ds) ->
             lookup s q = None /\
             exists a b, parent dst = a ++ b /\ a <> [] /\ q = a) ->
  ds = [].
Proof.
  intros Hwf He Hk. destruct ds as [|[q n] ds]; [reflexivity|]. exfalso.
  destruct (Hk q) as [Hn [a [b [Ep [Ha ->]]]]]; [left; reflexivity|].
  assert (Hd : is_dir s a = true).
  { destruct He as [He|He].
    - assert (Hdst : dst <> []).
      { intros ->. cbn in Ep. destruct a; [contradiction|discriminate]. }
      apply (wf_above_lookup s dst a (b ++ [name dst]) Hwf He); [|exact Ha|].
      + rewrite app_assoc, <- Ep. apply parent_name, Hdst.
      + destruct b; discriminate.
    - apply (wf_prefixes s (parent dst) Hwf He a b Ep Ha). }
  unfold is_dir in Hd. rewrite Hn in Hd. discriminate.
Qed.

(** What a copy that fails leaves: the state before it and the
    directories made for the destination. *)
Lemma copy_file_failed s s' src dst overwrite :
  copy_file src dst overwrite s = (Ok false, s') ->
  exists ds, s' = s ++ ds /\ dirs_only ds /\ (wf s -> wf s').
Proof.
  intros H.
  destruct (copy_file_result s src dst overwrite)
    as [b [s0 [ds [E [Hds [Hk [Hf _]]]]]]].
  rewrite E in H. injection H as -> ->. specialize (Hf eq_refl). subst s'.
  exists ds. split; [reflexivity|]. split; [exact Hds|]. intros Hwf.
  rewrite copy_file_unfold in E.
  destruct (exists_ s src) eqn:He; cbn [negb] in E.
  2:{ injection E as E. rewrite <- E. exact Hwf. }
  destruct (exists_ s dst && negb overwrite) eqn:Hd.
  { injection E as E. rewrite <- E. exact Hwf. }
  destruct (copy_file_run s src dst overwrite He Hd)
    as [out [ds' [Em [Hds' [Hk' Hrun]]]]].
  assert (Hk'' : forall q, In q (List.map fst ds') ->
                           lookup s q = None /\
                           exists a b, parent dst = a ++ b /\ a <> [] /\ q = a).
  { intros q Hq. destruct (Hk' q Hq) as [H1 [a [b [H2 [H3 H4]]]]]. eauto 10. }
  destruct out as [[]|e].
  - destruct Hrun as [Hok _].
    rewrite Em in E.
    assert (Es : s ++ ds = s ++ ds').
    { destruct (copy2 src dst (s ++ ds')) as [[[]|e] s2] eqn:Ec;
        [discriminate|].
      assert (s2 = s ++ ds').
      { revert Ec. unfold copy2. cbv zeta.
        destruct (exists_ (s ++ ds') src && _);
          [intros X; injection X as _ <-; reflexivity|].
        destruct (lookup (s ++ ds') src) as [[c|]|];
          try (intros X; injection X as _ <-; reflexivity).
        destruct (lookup (s ++ ds') (target_of (s ++ ds') src dst)) as [[c'|]|];
          try discriminate;
          try (intros X; injection X as _ <-; reflexivity).
        destruct (lookup (s ++ ds') (parent (target_of (s ++ ds') src dst)))
          as [[c'|]|];
          try discriminate;
          intros X; injection X as _ <-; reflexivity. }
      subst s2. destruct (is_OSError e); [|discriminate].
      injection E as E. symmetry. exact E. }
    rewrite Es. apply (wf_made s dst ds' Hwf Hk'' Hok).
  - rewrite Em in E. destruct (is_OSError e); [|discriminate].
    injection E as E. rewrite <- E.
    rewrite (mkdirs_raise_unchanged _ _ _ _ Hwf Em). exact Hwf.
Qed.

(** X17.  A copy that fails: when [copy_file] returns [False], every regular
    file other than the destination and the file of the name of the source
    in it is what it was, nothing has gone, and a tree is still a tree. *)
Theorem copy_file_failure (s s' : fs) (src dst : path) (overwrite : bool) :
  copy_file src dst overwrite s = (Ok false, s') ->
  (forall q, q <> dst -> q <> dst ++ [name src] ->
             file_at s' q = file_at s q) /\
  (forall q, exists_ s q = true -> exists_ s' q = true) /\
  (forall q, is_dir s q = true -> is_dir s' q = true) /\
  (wf s -> wf s').
Proof.
  intros H. destruct (copy_file_failed s s' src dst overwrite H)
    as [ds [-> [Hds Hwf]]].
  split; [intros q _ _; apply file_at_ext, Hds|].
  split; [intros q; apply exists_mono|].
  split; [intros q; apply is_dir_mono|exact Hwf].
Qed.

Lemma copy_file_failure_witness :
  (forall q, q <> ["new"; "deep"; "Work"] ->
             q <> ["new"; "deep"; "Work"] ++ [name ["home"; "Work"]] ->
             file_at (Samples.home_tree
                      ++ [(["new"], Dir); (["new"; "deep"], Dir)]) q
             = file_at Samples.home_tree q) /\
  (forall q, exists_ Samples.home_tree q = true ->
             exists_ (Samples.home_tree
                      ++ [(["new"], Dir); (["new"; "deep"], Dir)]) q = true) /\
  (forall q, is_dir Samples.home_tree q = true ->
             is_dir (Samples.home_tree
                     ++ [(["new"], Dir); (["new"; "deep"], Dir)]) q = true) /\
  (wf Samples.home_tree ->
   wf (Samples.home_tree ++ [(["new"], Dir); (["new"; "deep"], Dir)])).
Proof.
  apply (copy_file_failure Samples.home_tree
           (Samples.home_tree ++ [(["new"], Dir); (["new"; "deep"], Dir)])
           ["home"; "Work"] ["new"; "deep"; "Work"] false).
  vm_compute. reflexivity.
Defined.

Lemma remove_entry_absent p s :
  ~ In p (List.map fst s) -> remove_entry p s = s.
Proof.
  intros H. unfold remove_entry. induction s as [|[q n] s IH];
    cbn [List.filter fst]; [reflexivity|].
  cbn [List.map fst In] in H.
  rewrite (path_eqb_neq p q) by (intros ->; apply H; left; reflexivity).
  cbn [negb]. rewrite IH; [reflexivity|]. intros Hin. apply H. right. exact Hin.
Qed.

(** The state after a copy that succeeded, [X] being the state once the
    directory of the destination is made. *)
Lemma copied_state X t c s' :
  is_file X t = true /\ s' = write_over t c X \/
  lookup X t = None /\ s' = X ++ [(t, File c)] ->
  lookup s' t = Some (File c) /\
  (forall q, q <> t -> lookup s' q = lookup X q) /\
  write_over t c s' = s'.
Proof.
  intros [[Hf ->]|[Hn ->]].
  - split; [apply lookup_write_over_same, Hf|].
    split; [intros q Hq; apply lookup_write_over_other, Hq|].
    apply write_over_same. intros n Hin.
    destruct (In_write_over _ _ _ _ _ Hin) as [[[_ ->]|[H _]] _];
      [reflexivity|contradiction].
  - assert (Ht : t <> []) by (intros ->; discriminate).
    split.
    + rewrite lookup_app, Hn. destruct t as [|x t]; [contradiction|].
      cbn [lookup assoc]. rewrite path_eqb_refl. reflexivity.
    + split; [intros q Hq; apply lookup_app_other, Hq|].
      apply write_over_same. intros n Hin. apply in_app_or in Hin.
      destruct Hin as [Hin|[Hin|[]]]; [|congruence].
      exfalso. apply (lookup_none_not_key X t Hn).
      apply in_map_iff. exists (t, n). auto.
Qed.

(** X18.  [remove] undoes a successful [copy_file] to a new path in an existing
    directory of a tree: the state is again what it was before the copy. *)
Theorem copy_file_then_remove (s s' : fs) (src dst : path) (overwrite : bool) :
  wf s -> exists_ s dst = false -> is_dir s (parent dst) = true ->
  copy_file src dst overwrite s = (Ok true, s') ->
  remove dst false false s' = (Ok true, s).
Proof.
  intros Hwf Hnew Hpar H.
  destruct (copy_file_result s src dst overwrite)
    as [b [s'' [ds [E [Hds [Hk [_ [Ht _]]]]]]]].
  rewrite E in H. injection H as -> ->.
  destruct (Ht eq_refl) as [_ [c [_ Hcase]]].
  assert (Hd : is_dir s dst = false).
  { destruct (is_dir s dst) eqn:Ed; [|reflexivity].
    rewrite (is_dir_exists _ _ Ed) in Hnew. discriminate. }
  assert (Etgt : target_of s src dst = dst)
    by (unfold target_of; rewrite Hd; reflexivity).
  rewrite Etgt in Hcase.
  rewrite (nothing_made s dst ds Hwf (or_intror Hpar) Hk), app_nil_r in Hcase.
  destruct Hcase as [[Hf _]|[Hn ->]].
  { unfold is_file in Hf. unfold exists_ in Hnew.
    destruct (lookup s dst); discriminate. }
  assert (Hl : lookup (s ++ [(dst, File c)]) dst = Some (File c)).
  { apply (copied_state s dst c). right. auto. }
  unfold remove, bind, get_fs, try_except_OSError, ret, unlink.
  unfold exists_, is_dir. rewrite Hl. cbn [negb]. cbv beta. rewrite !Hl.
  unfold remove_entry. rewrite filter_app. cbn [List.filter fst].
  rewrite path_eqb_refl. cbn [negb]. rewrite app_nil_r.
  fold (remove_entry dst s).
  rewrite (remove_entry_absent dst s (lookup_none_not_key s dst Hn)).
  reflexivity.
Qed.

Lemma copy_file_then_remove_witness :
  remove ["home"; "Work"; "copy.txt"] false false
         (Samples.home_tree ++ [(["home"; "Work"; "copy.txt"], File "needle")])
  = (Ok true, Samples.home_tree).
Proof.
  apply (copy_file_then_remove Samples.home_tree _ ["home"; "notes.txt"]
           ["home"; "Work"; "copy.txt"] false); reflexivity.
Defined.

(** After a copy with [overwrite] that succeeded, the same copy succeeds
    again and changes nothing, and without [overwrite] it is refused. *)
Lemma copy_file_repeated (s s' : fs) (src dst : path) :
  copy_file src dst true s = (Ok true, s') ->
  copy_file src dst true s' = (Ok true, s') /\
  copy_file src dst false s' = (Ok false, s').
Proof.
  intros H.
  destruct (copy_file_result s src dst true)
    as [b [s'' [ds [E [Hds [Hk [_ [Ht Hiff]]]]]]]].
  rewrite E in H. injection H as -> ->.
  destruct (Ht eq_refl) as [Hok [c [Hc Hcase]]].
  destruct Hiff as [Hiff _]. destruct (Hiff eq_refl) as [_ [_ [_ [Hne Hnd]]]].
  set (t := target_of s src dst) in *.
  assert (Hcase' : is_file (s ++ ds) t = true /\ s' = write_over t c (s ++ ds) \/
                   lookup (s ++ ds) t = None /\ s' = (s ++ ds) ++ [(t, File c)]).
  { destruct Hcase as [[Hf ->]|[Hn ->]].
    - left. rewrite is_file_ext by exact Hds. auto.
    - right. split; [|reflexivity]. rewrite lookup_ext_other; [exact Hn|].
      intros Hin. destruct (made_above s src dst ds t Hk Hin) as [_ [Hx _]].
      apply Hx. reflexivity. }
  destruct (copied_state _ _ _ _ Hcase') as [Hlt [Hlo Hw]].
  assert (Hdirs : forall q, is_dir (s ++ ds) q = true -> is_dir s' q = true).
  { intros q Hq. unfold is_dir. rewrite Hlo; [exact Hq|].
    intros ->. destruct Hcase' as [[Hf _]|[Hn _]].
    - rewrite (is_file_not_dir _ _ Hf) in Hq. discriminate.
    - unfold is_dir in Hq. rewrite Hn in Hq. discriminate. }
  assert (Hsrc : lookup s' src = Some (File c)).
  { rewrite (Hlo src Hne). apply lookup_app_some.
    unfold file_at in Hc. destruct (lookup s src) as [[c0|]|]; congruence. }
  assert (Hesrc : exists_ s' src = true) by (unfold exists_; rewrite Hsrc; reflexivity).
  assert (Hdd : is_dir s' dst = is_dir s dst).
  { unfold t, target_of in *. destruct (is_dir s dst) eqn:Edd.
    - apply Hdirs, is_dir_mono, Edd.
    - unfold is_dir. rewrite Hlt. reflexivity. }
  assert (Hedst : exists_ s' dst = true).
  { unfold t, target_of in *. destruct (is_dir s dst) eqn:Edd.
    - apply is_dir_exists. rewrite Hdd. reflexivity.
    - unfold exists_. rewrite Hlt. reflexivity. }
  split.
  - rewrite copy_file_unfold, Hesrc, Hedst. cbn [negb andb].
    rewrite (mkdirs_settled (parent dst) s').
    2:{ intros a b Ep Ha. apply Hdirs, (Hok a b Ep Ha). }
    assert (Htt : target_of s' src dst = t)
      by (unfold t, target_of; rewrite Hdd; reflexivity).
    unfold copy2. cbv zeta.
    rewrite !Htt, Hesrc, (path_eqb_neq src t Hne), Hsrc, Hlt, Hw.
    reflexivity.
  - rewrite copy_file_unfold, Hesrc, Hedst. reflexivity.
Qed.

(** X19.  After a copy with [overwrite] that succeeded, a second call that
    returns without [overwrite] gives [False], the destination being there,
    and has changed nothing; a second call that gives [True] has changed
    nothing either: it has written what was there.  (A second call with
    [overwrite] need not succeed: [copy2] takes the permissions of the
    source along, and a file that may not be written is not written
    again.) *)
Theorem copy_file_again (s s' s'' : fs) (src dst : path) (overwrite b : bool) :
  copy_file src dst true s = (Ok true, s') ->
  copy_file src dst overwrite s' = (Ok b, s'') ->
  (overwrite = false -> b = false) /\
  (overwrite = false \/ b = true -> s'' = s').
Proof.
  intros H H2.
  destruct (copy_file_repeated s s' src dst H) as [Hwith Hwithout].
  destruct overwrite.
  - rewrite Hwith in H2. injection H2 as <- <-.
    split; [discriminate|reflexivity].
  - rewrite Hwithout in H2. injection H2 as <- <-.
    split; reflexivity.
Qed.

Lemma copy_file_again_witness :
  (false = false -> false = false) /\
  (false = false \/ false = true ->
   FileCopy.write_over ["home"; "Zebra.txt"] "needle" Samples.home_tree
   = FileCopy.write_over ["home"; "Zebra.txt"] "needle" Samples.home_tree).
Proof.
  apply (copy_file_again Samples.home_tree
           (FileCopy.write_over ["home"; "Zebra.txt"] "needle" Samples.home_tree)
           (FileCopy.write_over ["home"; "Zebra.txt"] "needle" Samples.home_tree)
           ["home"; "notes.txt"] ["home"; "Zebra.txt"] false false);
    vm_compute; reflexivity.
Defined.

End FileCopyFacts.

(** ** dir_ops.py: more on [sync] *)

Module SyncMore.
Import FS PathLib DirOps FSFacts SyncFacts TreeFacts RemoveFacts.

(** When the copy loop returns, the directory of the counterpart of every
    regular file it met is there, with all above it. *)
Lemma copy_loop_dirs s0 src dst dry_run entries :
  forall result s r s',
    reached s0 src dst s -> under_src src entries ->
    copy_loop src dst dry_run entries result s = (Ok r, s') ->
    Forall (fun f =>
              is_file s0 f = true ->
              forall a b, parent (counterpart src dst f) = a ++ b -> a <> [] ->
                          is_dir s' a = true) entries.
Proof.
  induction entries as [|f entries IH]; intros result s r s' Hr Hu E;
    [constructor|].
  inversion Hu as [|? ? Hf Hu']. subst.
  rewrite copy_loop_cons in E. rewrite (reached_is_file _ _ _ _ f Hr) in E.
  destruct (is_file s0 f) eqn:Ef.
  2:{ constructor; [intros Hx; congruence|]. apply (IH _ _ _ _ Hr Hu' E). }
  destruct (mkdir_parents_exist_ok (parent (counterpart src dst f)) s)
    as [[[]|e] s1] eqn:Em; [|discriminate].
  destruct (reached_mkdirs s0 src dst s _ _ _ Hr
              (fun a b => created_above_counterpart s0 src dst f a b Ef Hf) Em)
    as [Hr1 [Hdirs _]].
  specialize (Hdirs eq_refl).
  assert (Hrest : forall result1,
             copy_loop src dst dry_run entries result1 s1 = (Ok r, s') ->
             Forall (fun f =>
                       is_file s0 f = true ->
                       forall a b, parent (counterpart src dst f) = a ++ b ->
                                   a <> [] -> is_dir s' a = true) (f :: entries)).
  { intros result1 E1. constructor; [|apply (IH _ _ _ _ Hr1 Hu' E1)].
    intros _ a b Ep Ha.
    destruct (copy_loop_reached s0 src dst dry_run _ _ _ _ _ Hr1 Hu' E1)
      as [_ [[X [-> _]] _]].
    apply is_dir_mono, (Hdirs a b Ep Ha). }
  destruct (exists_ s1 (counterpart src dst f)); [apply (Hrest _ E)|].
  destruct dry_run; [apply (Hrest _ E)|discriminate].
Qed.

(** X20.  A dry run is not without effect: when [sync] returns from a run with
    [dry_run] set on a source that is a directory, the destination directory
    is there afterwards, and so is, for every regular file below the source,
    the directory that would hold its copy.  Nothing else has changed: the
    new state is the old one with directories added. *)
Theorem sync_dry_run_makes_directories (s s' : fs) (src dst : path)
        (delete : bool) (r : SyncResult) :
  is_dir s src = true ->
  sync src dst delete true s = (Ok r, s') ->
  (exists D, s' = s ++ D /\ dirs_only D) /\
  (forall a t, dst = a ++ t -> a <> [] -> is_dir s' a = true) /\
  (forall f, In f (files_under s src) ->
             forall a t, parent (counterpart src dst f) = a ++ t -> a <> [] ->
                         is_dir s' a = true).
Proof.
  intros Ed. rewrite sync_unfold, Ed, (is_dir_exists _ _ Ed). cbn [negb orb].
  destruct (mkdir_parents_exist_ok dst s) as [[[]|e] s1] eqn:Em; [|discriminate].
  destruct (reached_mkdirs s src dst s dst _ _ (reached_start s src dst)
              (created_above_dst s src dst) Em) as [Hr1 [Hdst _]].
  specialize (Hdst eq_refl).
  destruct (copy_loop src dst true (rglob_all s1 src) (mkSyncResult 0 0 0) s1)
    as [[r2|e] s2] eqn:Ec; [|discriminate].
  destruct (copy_loop_reached s src dst true _ _ _ _ _ Hr1
              (under_src_rglob s1 src) Ec) as [Hr2 [[X [-> HX]] _]].
  pose proof (copy_loop_dirs s src dst true _ _ _ _ _ Hr1
                (under_src_rglob s1 src) Ec) as Hdirs.
  intros E.
  assert (Es : s' = s1 ++ X).
  { destruct delete; [|injection E as _ <-; reflexivity].
    destruct (delete_loop_dry src dst (rglob_all (s1 ++ X) dst) r2 (s1 ++ X))
      as [r' [Edl _]].
    rewrite Edl in E. injection E as _ <-. reflexivity. }
  subst s'. split; [|split].
  - destruct Hr2 as [D [-> [HD _]]]. eauto.
  - intros a t Ea Ha. apply is_dir_mono, (Hdst a t Ea Ha).
  - intros f Hf. rewrite Forall_forall in Hdirs.
    rewrite <- (reached_files_under s src dst s1 src Hr1) in Hf.
    unfold files_under in Hf. apply filter_In in Hf. destruct Hf as [Hin Hfile].
    rewrite (reached_is_file s src dst s1 f Hr1) in Hfile.
    apply (Hdirs f Hin Hfile).
Qed.

Lemma sync_dry_run_makes_directories_witness :
  is_dir (Samples.sync_tree ++ [(["dst"; "sub"], Dir)]) ["dst"; "sub"] = true.
Proof.
  destruct (sync_dry_run_makes_directories Samples.sync_tree
              (Samples.sync_tree ++ [(["dst"; "sub"], Dir)])
              ["src"] ["dst"] true (mkSyncResult 1 1 1)) as [_ [_ H]].
  - reflexivity.
  - vm_compute. reflexivity.
  - apply (H ["src"; "sub"; "b.txt"]) with (t := []).
    + vm_compute. auto.
    + reflexivity.
    + discriminate.
Defined.

Lemma is_prefix_trans a b c :
  is_prefix a b = true -> is_prefix b c = true -> is_prefix a c = true.
Proof.
  intros H1 H2. destruct (is_prefix_inv _ _ H2) as [t ->].
  apply is_prefix_below, H1.
Qed.

(** Two prefixes of a path are prefixes of one another. *)
Lemma prefixes_comparable a :
  forall b l, is_prefix a l = true -> is_prefix b l = true ->
              is_prefix a b = true \/ is_prefix b a = true.
Proof.
  induction a as [|x a IH]; intros b l Ha Hb; [left; reflexivity|].
  destruct b as [|y b]; [right; reflexivity|].
  destruct l as [|z l]; [discriminate|].
  cbn [is_prefix] in *.
  apply andb_true_iff in Ha. destruct Ha as [Hx Ha].
  apply andb_true_iff in Hb. destruct Hb as [Hy Hb].
  apply String.eqb_eq in Hx, Hy. subst x y. rewrite String.eqb_refl.
  cbn [andb]. apply (IH b l Ha Hb).
Qed.

(** Source and destination do not contain one another: nothing below the
    one is below the other. *)
Lemma apart_below src dst q :
  is_prefix src dst = false -> is_prefix dst src = false ->
  is_prefix src q = true -> is_prefix dst q = true -> False.
Proof.
  intros H1 H2 Hs Hd.
  destruct (prefixes_comparable src dst q Hs Hd) as [H|H]; congruence.
Qed.

Lemma is_file_remove_entry g s h :
  is_file (remove_entry g s) h = negb (path_eqb g h) && is_file s h.
Proof.
  unfold is_file. destruct (path_eqb g h) eqn:E; cbn [negb andb].
  - apply path_eqb_eq in E. subst h. destruct g as [|x g]; [reflexivity|].
    rewrite lookup_remove_entry_same by discriminate. reflexivity.
  - rewrite lookup_remove_entry_other; [reflexivity|].
    intros ->. rewrite path_eqb_refl in E. discriminate.
Qed.

(** The delete loop of a real run, when no entry is the counterpart in the
    source of an entry: the regular files without a counterpart go, and
    nothing else changes. *)
Lemma delete_loop_real src dst entries :
  (forall g h, In g entries -> In h entries -> counterpart dst src h <> g) ->
  forall result s,
  exists r s',
    delete_loop src dst false entries result s = (Ok r, s') /\
    copied r = copied result /\ skipped r = skipped result /\
    (forall q, In q (List.filter
                       (fun g => is_file s g &&
                                 negb (exists_ s (counterpart dst src g)))
                       entries) ->
               lookup s' q = None) /\
    (forall q, ~ In q (List.filter
                         (fun g => is_file s g &&
                                   negb (exists_ s (counterpart dst src g)))
                         entries) ->
               lookup s' q = lookup s q) /\
    (NoDup (List.filter
              (fun g => is_file s g && negb (exists_ s (counterpart dst src g)))
              entries) ->
     deleted r = deleted result
                 + Z.of_nat (List.length
                     (List.filter
                        (fun g => is_file s g &&
                                  negb (exists_ s (counterpart dst src g)))
                        entries))).
Proof.
  induction entries as [|g entries IH]; intros Hne result s.
  - exists result, s. split; [reflexivity|]. cbn.
    repeat split; auto; try contradiction. intros _. lia.
  - assert (Hne' : forall g h, In g entries -> In h entries ->
                               counterpart dst src h <> g).
    { intros g' h Hg Hh. apply Hne; right; assumption. }
    rewrite delete_loop_cons. cbn [List.filter].
    destruct (is_file s g) eqn:Ef; cbn [andb]; [|apply (IH Hne')].
    destruct (exists_ s (counterpart dst src g)) eqn:Ee; cbn [negb];
      [apply (IH Hne')|].
    assert (Hg : g <> []) by (intros ->; discriminate).
    destruct (IH Hne' (incr_deleted result) (remove_entry g s))
      as [r [s' [E [H1 [H2 [Hgone [Hkept Hcount]]]]]]].
    exists r, s'. split; [exact E|]. split; [exact H1|]. split; [exact H2|].
    assert (Hfilter :
              List.filter
                (fun h => is_file (remove_entry g s) h &&
                          negb (exists_ (remove_entry g s) (counterpart dst src h)))
                entries
              = List.filter
                  (fun h => negb (path_eqb g h) &&
                            (is_file s h &&
                             negb (exists_ s (counterpart dst src h))))
                  entries).
    { apply filter_ext_in. intros h Hh. rewrite is_file_remove_entry.
      unfold exists_ at 1. rewrite lookup_remove_entry_other.
      - fold (exists_ s (counterpart dst src h)). symmetry. apply andb_assoc.
      - apply Hne; [left; reflexivity|right; exact Hh]. }
    rewrite Hfilter in Hgone, Hkept, Hcount.
    assert (Hin1 : forall q,
               In q (List.filter
                       (fun h => negb (path_eqb g h) &&
                                 (is_file s h &&
                                  negb (exists_ s (counterpart dst src h))))
                       entries) <->
               q <> g /\
               In q (List.filter
                       (fun h => is_file s h &&
                                 negb (exists_ s (counterpart dst src h)))
                       entries)).
    { intros q. rewrite !filter_In. split.
      - intros [Hq Hp]. apply andb_true_iff in Hp. destruct Hp as [Hp1 Hp2].
        split; [|auto]. intros ->. rewrite path_eqb_refl in Hp1. discriminate.
      - intros [Hq [Hq1 Hq2]]. split; [exact Hq1|]. rewrite Hq2, andb_true_r.
        rewrite path_eqb_neq; [reflexivity|congruence]. }
    split; [|split].
    + intros q [<-|Hq].
      * rewrite Hkept; [apply lookup_remove_entry_same, Hg|].
        intros Hin. apply Hin1 in Hin. destruct Hin as [Hx _]. contradiction.
      * destruct (list_eq_dec string_dec q g) as [->|Hqg].
        -- rewrite Hkept; [apply lookup_remove_entry_same, Hg|].
           intros Hin. apply Hin1 in Hin. destruct Hin as [Hx _]. contradiction.
        -- apply Hgone. apply Hin1. auto.
    + intros q Hq. rewrite Hkept.
      * apply lookup_remove_entry_other. intros ->. apply Hq. left. reflexivity.
      * intros Hin. apply Hin1 in Hin. apply Hq. right. apply Hin.
    + intros Hnd. inversion Hnd as [|? ? Hnotin Hnd']. subst.
      assert (Hsame :
                List.filter
                  (fun h => negb (path_eqb g h) &&
                            (is_file s h &&
                             negb (exists_ s (counterpart dst src h))))
                  entries
                = List.filter
                    (fun h => is_file s h &&
                              negb (exists_ s (counterpart dst src h)))
                    entries).
      { apply filter_ext_in. intros h Hh.
        destruct (path_eqb g h) eqn:Egh; [|reflexivity].
        apply path_eqb_eq in Egh. subst h. exfalso. apply Hnotin.
        apply filter_In. split; [exact Hh|]. rewrite Ef, Ee. reflexivity. }
      rewrite Hsame in Hcount. rewrite (Hcount Hnd'). cbn [incr_deleted deleted List.length].
      lia.
Qed.

(** X21.  A real run with [delete] that returns, for a source and a destination
    that do not contain one another: nothing is copied; the regular files
    of the destination whose counterpart in the source is missing are gone,
    every other regular file is what it was, and no directory is removed,
    not even one that the source does not have.  [deleted] counts the files
    that went. *)
Theorem sync_delete_removes_extras (s s' : fs) (src dst : path) (r : SyncResult) :
  is_dir s src = true ->
  is_prefix src dst = false -> is_prefix dst src = false ->
  sync src dst true false s = (Ok r, s') ->
  copied r = 0 /\
  (forall g, In g (to_delete s s src dst) -> exists_ s' g = false) /\
  (forall q, ~ In q (to_delete s s src dst) -> file_at s' q = file_at s q) /\
  (forall q, is_dir s q = true -> is_dir s' q = true) /\
  (NoDup (to_delete s s src dst) ->
   deleted r = Z.of_nat (List.length (to_delete s s src dst))).
Proof.
  intros Ed Hsd Hds. rewrite sync_unfold, Ed, (is_dir_exists _ _ Ed).
  cbn [negb orb].
  destruct (mkdir_parents_exist_ok dst s) as [[[]|e] s1] eqn:Em; [|discriminate].
  destruct (reached_mkdirs s src dst s dst _ _ (reached_start s src dst)
              (created_above_dst s src dst) Em) as [Hr1 _].
  destruct (copy_loop src dst false (rglob_all s1 src) (mkSyncResult 0 0 0) s1)
    as [[r2|e] s2] eqn:Ec; [|discriminate].
  destruct (copy_loop_real s src dst _ _ _ _ _ Hr1 (under_src_rglob s1 src) Ec)
    as [Hcop _]. cbn in Hcop.
  destruct (copy_loop_reached s src dst false _ _ _ _ _ Hr1
              (under_src_rglob s1 src) Ec) as [Hr2 [_ [Hdel _]]].
  specialize (Hdel r2 eq_refl). cbn in Hdel.
  assert (Hne : forall g h, In g (rglob_all s2 dst) -> In h (rglob_all s2 dst) ->
                            counterpart dst src h <> g).
  { intros g h Hg Hh Heq. apply rglob_all_under in Hg, Hh.
    destruct (strictly_under_inv _ _ Hh) as [_ Hrel].
    unfold strictly_under in Hg. apply andb_true_iff in Hg.
    destruct Hg as [Hg _]. subst g. unfold counterpart in Hg.
    apply (apart_below src dst (src ++ relative_to h dst) Hsd Hds);
      [apply is_prefix_app|exact Hg]. }
  destruct (delete_loop_real src dst (rglob_all s2 dst) Hne r2 s2)
    as [r' [s'' [Edl [H1 [H2 [Hgone [Hkept Hcount]]]]]]].
  rewrite Edl. intros E. injection E as -> ->.
  assert (Hlist :
            List.filter
              (fun g => is_file s2 g && negb (exists_ s2 (counterpart dst src g)))
              (rglob_all s2 dst)
            = to_delete s s src dst).
  { rewrite filter_andb. fold (files_under s2 dst).
    rewrite (reached_files_under s src dst s2 dst Hr2). unfold to_delete.
    apply filter_ext_in. intros g Hg. f_equal.
    unfold files_under in Hg. apply filter_In in Hg. destruct Hg as [Hg _].
    apply rglob_all_under in Hg.
    destruct (strictly_under_inv _ _ Hg) as [_ Hrel].
    destruct Hr2 as [D [-> [HD HkD]]].
    apply exists_ext_other.
    - unfold counterpart. destruct src; [cbn [app]; exact Hrel|discriminate].
    - intros Hin. destruct (HkD _ Hin) as [_ [_ Hc]].
      assert (Hsrc : is_prefix src (counterpart dst src g) = true)
        by apply is_prefix_app.
      destruct Hc as [Hc|[f [_ [Hu Hc]]]].
      + rewrite (is_prefix_trans _ _ _ Hsrc Hc) in Hsd. discriminate.
      + destruct (strictly_under_inv _ _ Hu) as [_ Hrelf].
        unfold counterpart at 2 in Hc. unfold parent in Hc.
        rewrite removelast_app in Hc by exact Hrelf.
        apply (apart_below src dst _ Hsd Hds
                 (is_prefix_trans _ _ _ Hsrc Hc) (is_prefix_app _ _)). }
  rewrite Hlist in Hgone, Hkept, Hcount.
  split; [congruence|]. split; [|split; [|split]].
  - intros g Hg. unfold exists_. rewrite (Hgone g Hg). reflexivity.
  - intros q Hq. unfold file_at. rewrite (Hkept q Hq).
    apply (reached_file_at s src dst s2 q Hr2).
  - intros q Hq. unfold is_dir. rewrite Hkept.
    + apply (reached_is_dir s src dst s2 q Hr2 Hq).
    + intros Hin. unfold to_delete, files_under in Hin.
      apply filter_In in Hin. destruct Hin as [Hin _].
      apply filter_In in Hin. destruct Hin as [_ Hf].
      rewrite (is_file_not_dir _ _ Hf) in Hq. discriminate.
  - intros Hnd. rewrite (Hcount Hnd). lia.
Qed.

Lemma sync_delete_removes_extras_witness :
  copied (mkSyncResult 0 1 1) = 0 /\
  (forall g, In g (to_delete MoreSamples.stale_tree MoreSamples.stale_tree
                             ["s"] ["d"]) ->
             exists_ (remove_entry ["d"; "old"] MoreSamples.stale_tree) g = false) /\
  (NoDup (to_delete MoreSamples.stale_tree MoreSamples.stale_tree ["s"] ["d"]) ->
   deleted (mkSyncResult 0 1 1)
   = Z.of_nat (List.length (to_delete MoreSamples.stale_tree
                                      MoreSamples.stale_tree ["s"] ["d"]))).
Proof.
  destruct (sync_delete_removes_extras MoreSamples.stale_tree
              (remove_entry ["d"; "old"] MoreSamples.stale_tree)
              ["s"] ["d"] (mkSyncResult 0 1 1))
    as [H1 [H2 [_ [_ H5]]]]; try reflexivity.
  split; [exact H1|]. split; [exact H2|exact H5].
Defined.

End SyncMore.

(** ** dir_ops.py: [tree] *)

Module DirTreeFacts.
Import FS PathLib DirOps DirTree FSFacts ListingFacts SyncFacts.

Section TreeProps.
Variable P : Platform.

Lemma add_entries_returns recur s entries :
  (forall e, In e entries -> is_dir s e = true -> exists b, recur e = Ok b) ->
  exists c, add_entries recur s entries = Ok c.
Proof.
  induction entries as [|e entries IH]; intros H; cbn [add_entries]; [eauto|].
  destruct IH as [c Ec]; [intros e' He'; apply H; right; exact He'|].
  destruct (PyStr.startswith (name e) "."); [eauto|].
  destruct (is_dir s e) eqn:Ed.
  - destruct (H e (or_introl eq_refl) Ed) as [b ->]. rewrite Ec. eauto.
  - rewrite Ec. eauto.
Qed.

(** On a directory [_add_to_tree] returns: what it descends into are
    directories. *)
Lemma add_to_tree_returns levels :
  forall s p, is_dir s p = true -> exists c, _add_to_tree P levels s p = Ok c.
Proof.
  induction levels as [|levels IH]; intros s p Hd; cbn [_add_to_tree]; [eauto|].
  unfold iterdir, PathLib.iterdir. destruct (may_list P p); [|eauto].
  unfold is_dir in Hd. destruct (lookup s p) as [[]|]; try discriminate.
  apply add_entries_returns. intros e _ He. apply IH, He.
Qed.

Lemma add_entries_labels recur s entries c :
  add_entries recur s entries = Ok c ->
  List.map label c
  = List.map (entry_label s) (List.filter (visible false) entries).
Proof.
  revert c. induction entries as [|e entries IH]; intros c E;
    cbn [add_entries] in E.
  - injection E as <-. reflexivity.
  - cbn [List.filter]. unfold visible at 1. cbn [orb].
    destruct (PyStr.startswith (name e) "."); cbn [negb]; [apply IH, E|].
    cbn [List.map]. unfold entry_label at 1.
    destruct (is_dir s e).
    + destruct (recur e) as [b|x]; [|discriminate].
      destruct (add_entries recur s entries) as [rest|x]; [|discriminate].
      injection E as <-. cbn [List.map label]. rewrite (IH rest eq_refl).
      reflexivity.
    + destruct (add_entries recur s entries) as [rest|x]; [|discriminate].
      injection E as <-. cbn [List.map label]. rewrite (IH rest eq_refl).
      reflexivity.
Qed.

Lemma add_entries_nodes recur s entries (Q : nat * string -> Prop) d :
  (forall l, shown_label l -> Q (S d, l)) ->
  (forall e b, recur e = Ok b -> Forall Q (List.flat_map (nodes (S (S d))) b)) ->
  forall c,
    add_entries recur s entries = Ok c ->
    Forall Q (List.flat_map (nodes (S d)) c).
Proof.
  intros Hq Hrec. induction entries as [|e entries IH]; intros c E;
    cbn [add_entries] in E.
  - injection E as <-. constructor.
  - destruct (PyStr.startswith (name e) ".") eqn:Eh; [apply IH, E|].
    destruct (is_dir s e).
    + destruct (recur e) as [b|x] eqn:Er; [|discriminate].
      destruct (add_entries recur s entries) as [rest|x]; [|discriminate].
      injection E as <-. cbn [List.flat_map nodes].
      constructor; [apply Hq; exists (name e); auto|].
      apply Forall_app. split; [apply (Hrec e b Er)|apply IH; reflexivity].
    + destruct (add_entries recur s entries) as [rest|x]; [|discriminate].
      injection E as <-. cbn [List.flat_map nodes app].
      constructor; [apply Hq; exists (name e); auto|].
      apply IH. reflexivity.
Qed.

Lemma add_to_tree_nodes levels :
  forall d s p c,
    _add_to_tree P levels s p = Ok c ->
    Forall (fun dl => (fst dl <= d + levels)%nat /\ shown_label (snd dl))
           (List.flat_map (nodes (S d)) c).
Proof.
  induction levels as [|levels IH]; intros d s p c E; cbn [_add_to_tree] in E.
  - injection E as <-. constructor.
  - destruct (iterdir P s p) as [entries|e].
    + eapply (add_entries_nodes (_add_to_tree P levels s) s _ _ d);
        [| |exact E].
      * intros l Hl. cbn [fst snd]. split; [lia|exact Hl].
      * intros e b Er. specialize (IH (S d) s e b Er).
        eapply Forall_impl; [|exact IH]. cbn beta. intros dl [H1 H2].
        split; [lia|exact H2].
    + destruct e; try discriminate. injection E as <-. constructor.
Qed.

(** X22.  How [tree] ends.  With [max_depth] below 1 nothing is listed and the
    result is the bare root, whether the path is there or not.  Otherwise the
    root is listed: a root that may not be listed gives the bare root, a
    missing root raises [FileNotFoundError] and a regular file
    [NotADirectoryError]; on a directory [tree] returns, whatever lies
    below. *)
Theorem tree_outcome (s : fs) (root : path) (max_depth : Z) :
  (max_depth <= 0 \/ may_list P root = false ->
   tree P s root max_depth = Ok (mkTree (folder_label (str_path root)) [])) /\
  (0 < max_depth -> may_list P root = true -> exists_ s root = false ->
   tree P s root max_depth = Raise FileNotFoundError) /\
  (0 < max_depth -> may_list P root = true -> is_file s root = true ->
   tree P s root max_depth = Raise NotADirectoryError) /\
  (is_dir s root = true ->
   exists c, tree P s root max_depth
             = Ok (mkTree (folder_label (str_path root)) c)).
Proof.
  unfold tree. split; [|split; [|split]].
  - intros [H|H].
    + replace (Z.to_nat max_depth) with 0%nat by lia. reflexivity.
    + destruct (Z.to_nat max_depth); [reflexivity|].
      cbn [_add_to_tree]. unfold iterdir. rewrite H. reflexivity.
  - intros H Hm He. destruct (Z.to_nat max_depth) eqn:En; [lia|].
    cbn [_add_to_tree]. unfold iterdir, PathLib.iterdir. rewrite Hm.
    unfold exists_ in He. destruct (lookup s root); [discriminate|reflexivity].
  - intros H Hm Hf. destruct (Z.to_nat max_depth) eqn:En; [lia|].
    cbn [_add_to_tree]. unfold iterdir, PathLib.iterdir. rewrite Hm.
    unfold is_file in Hf. destruct (lookup s root) as [[]|]; try discriminate.
    reflexivity.
  - intros Hd. destruct (add_to_tree_returns (Z.to_nat max_depth) s root Hd)
      as [c ->]. eauto.
Qed.

(** X23.  The tree that [tree] returns is at most [max_depth] levels deep below
    its root, and every node below the root carries the label of an entry
    whose name does not start with a dot: hidden entries are never shown,
    and never descended into. *)
Theorem tree_shape (s : fs) (root : path) (max_depth : Z) (t : Tree) :
  tree P s root max_depth = Ok t ->
  label t = folder_label (str_path root) /\
  Forall (fun dl => (fst dl <= Z.to_nat max_depth)%nat /\ shown_label (snd dl))
         (List.flat_map (nodes 1) (children t)).
Proof.
  unfold tree. destruct (_add_to_tree P (Z.to_nat max_depth) s root) as [c|e] eqn:E;
    [|discriminate].
  intros H. injection H as <-. split; [reflexivity|].
  apply (add_to_tree_nodes _ 0 s root c E).
Qed.

(** What [list_directory] lists are the names of the same entries, whatever
    the two options: those of them that are to be shown. *)
Lemma list_directory_entries (C : Os.Calls) (s : fs) (p : path) :
  exists entries,
    forall show_hidden detailed l,
      list_directory P C s p show_hidden detailed = Ok l ->
      List.map info_name l
      = List.map name (List.filter (visible show_hidden) entries).
Proof.
  unfold list_directory.
  destruct (Os.path_exists C s p) as [[]|e].
  2,3: exists []; intros sh d l H; try discriminate; injection H as <-;
       reflexivity.
  destruct (Os.path_is_dir C s p) as [[]|e].
  2,3: exists []; intros sh d l H; try discriminate; injection H as <-;
       reflexivity.
  destruct (sorted_entries P C s p) as [entries|e].
  - exists entries. intros sh d l H.
    apply (listing_loop_names _ _ _ _ _ _ _ H).
  - exists []. intros sh d l H. destruct e; try discriminate.
    injection H as <-. reflexivity.
Qed.

(** X24.  Where [exists()], [is_dir()] and [is_file()] answer for the root
    and for its children as the tree has it, and with [detailed] the times
    of the children can be put into the entries, the first level of the tree
    that [tree] returns shows what [list_directory] lists without
    [show_hidden], in the same order: both are made from the same
    entries. *)
Theorem tree_first_level (C : Os.Calls) (s : fs) (root : path) (max_depth : Z)
        (t : Tree) (detailed : bool) :
  0 < max_depth ->
  Os.sees C s root ->
  (forall q, In q (FS.iterdir s root) -> Os.sees C s q) ->
  (detailed = true ->
   forall q size mtime,
     In q (FS.iterdir s root) -> stat P s q = Some (size, mtime) ->
     renders P mtime = true) ->
  tree P s root max_depth = Ok t ->
  exists entries infos,
    list_directory P C s root false detailed = Ok infos /\
    List.map info_name infos = List.map name entries /\
    List.map label (children t) = List.map (entry_label s) entries.
Proof.
  intros Hm Hroot Hq Hr. unfold tree.
  destruct (Z.to_nat max_depth) as [|levels] eqn:En; [lia|].
  cbn [_add_to_tree].
  destruct (iterdir P s root) as [entries|e] eqn:Ei.
  - destruct (add_entries _ s _) as [c|e] eqn:Ea; [|discriminate].
    intros H. injection H as <-. cbn [children].
    assert (Hl : may_list P root = true /\ is_dir s root = true
                 /\ entries = FS.iterdir s root).
    { unfold iterdir, PathLib.iterdir in Ei. unfold is_dir.
      destruct (may_list P root); [|discriminate].
      destruct (lookup s root) as [[]|]; try discriminate.
      injection Ei as <-. auto. }
    destruct Hl as [Hml [Hd ->]].
    destruct (list_directory_sees P C s root false detailed Hd Hroot Hml Hq Hr)
      as [infos [E Enames]].
    exists (List.filter (visible false)
                        (sorted_by (sort_key s) key_ltb (FS.iterdir s root))),
           infos.
    split; [exact E|]. split; [exact Enames|].
    apply (add_entries_labels _ _ _ _ Ea).
  - destruct e; try discriminate. intros H. injection H as <-.
    exists [], []. split; [|split; reflexivity].
    assert (Hml : may_list P root = false).
    { unfold iterdir in Ei. destruct (may_list P root); [|reflexivity].
      unfold PathLib.iterdir in Ei.
      destruct (lookup s root) as [[]|]; discriminate. }
    destruct Hroot as [He [Hd _]]. unfold list_directory.
    rewrite He, Hd. destruct (exists_ s root); [|reflexivity].
    destruct (is_dir s root); [|reflexivity].
    unfold sorted_entries, iterdir. rewrite Hml. reflexivity.
Qed.

(** X25.  Of the calls of [list_directory] on one directory that return, the
    names listed do not depend on [detailed], and the names listed without
    [show_hidden] are those listed with it whose first character is not a
    dot, in the same order. *)
Theorem list_directory_options (C : Os.Calls) (s : fs) (p : path)
        (show_hidden detailed detailed' : bool) (l l' shown : list info) :
  list_directory P C s p show_hidden detailed = Ok l ->
  list_directory P C s p show_hidden detailed' = Ok l' ->
  list_directory P C s p true detailed = Ok shown ->
  List.map info_name l' = List.map info_name l /\
  (show_hidden = false ->
   List.map info_name l
   = List.filter (fun n => negb (PyStr.startswith n "."))
                 (List.map info_name shown)).
Proof.
  destruct (list_directory_entries C s p) as [entries Hn].
  intros H H' Hs.
  rewrite (Hn _ _ _ H), (Hn _ _ _ H'), (Hn _ _ _ Hs).
  split; [reflexivity|]. intros ->. clear.
  induction entries as [|e entries IH]; [reflexivity|].
  cbn [List.filter visible orb List.map].
  destruct (PyStr.startswith (name e) "."); cbn [negb List.map];
    rewrite IH; reflexivity.
Qed.

End TreeProps.

Lemma tree_outcome_witness :
  tree Samples.bare_platform Samples.home_tree ["gone"] 3
  = Raise FileNotFoundError.
Proof.
  destruct (tree_outcome Samples.bare_platform Samples.home_tree ["gone"] 3)
    as [_ [H _]].
  apply H; [lia|reflexivity|reflexivity].
Defined.

Lemma tree_shape_witness :
  Forall (fun dl => (fst dl <= Z.to_nat 2)%nat /\ shown_label (snd dl))
         (List.flat_map (nodes 1) (children MoreSamples.home_picture)).
Proof.
  destruct (tree_shape Samples.bare_platform Samples.home_tree ["home"] 2
              MoreSamples.home_picture) as [_ H].
  - vm_compute. reflexivity.
  - exact H.
Defined.

Lemma tree_first_level_witness :
  exists entries infos,
    list_directory Samples.dated_platform Os.open_calls
                   Samples.home_tree ["home"] false true = Ok infos /\
    List.map info_name infos = List.map name entries /\
    List.map label (children MoreSamples.home_picture)
    = List.map (entry_label Samples.home_tree) entries.
Proof.
  apply (tree_first_level Samples.dated_platform Os.open_calls
           Samples.home_tree ["home"] 2 MoreSamples.home_picture true).
  - lia.
  - repeat split.
  - intros q _. repeat split.
  - intros _ q size mtime Hq Hs.
    vm_compute in Hq.
    repeat (destruct Hq as [<-|Hq];
            [vm_compute in Hs; injection Hs as <- <-; reflexivity|]).
    contradiction.
  - vm_compute. reflexivity.
Defined.

Lemma list_directory_options_witness :
  List.map info_name
           [[("name", "archive"); ("size", "-"); ("modified", "-")];
            [("name", "Work"); ("size", "-"); ("modified", "-")];
            [("name", "notes.txt"); ("size", "-"); ("modified", "-")];
            [("name", "Zebra.txt"); ("size", "-"); ("modified", "-")]]%string
  = List.map info_name
             [[("name", "archive")]; [("name", "Work")];
              [("name", "notes.txt")]; [("name", "Zebra.txt")]]%string /\
  (false = false ->
   List.map info_name
            [[("name", "archive")]; [("name", "Work")];
             [("name", "notes.txt")]; [("name", "Zebra.txt")]]%string
   = List.filter (fun n => negb (PyStr.startswith n "."))
       (List.map info_name
                 [[("name", "archive")]; [("name", "Work")];
                  [("name", ".profile")]; [("name", "notes.txt")];
                  [("name", "Zebra.txt")]]%string)).
Proof.
  apply (list_directory_options Samples.bare_platform Os.open_calls
           Samples.home_tree ["home"] false false true);
    vm_compute; reflexivity.
Defined.

End DirTreeFacts.

(** ** example_workflow.py: [backup_project] *)

Module WorkflowFacts.
Import FS PathLib DirOps Workflow FSFacts SyncFacts TreeFacts RemoveFacts SyncMore.


Section BackupFacts.
Variable cleanup_old_backups : path -> Z -> M unit.
Variable timestamp : string.


End BackupFacts.


End WorkflowFacts.
